(** * Voice controller and scribe storage: a shallow embedding

    This development embeds the text-classification core of
    [frontend/public/js/voice.js] (class [VoiceController]) and the
    session store of [scribe-storage.js] (class [ScribeStorage]) and
    proves the properties stated about them.

    Modelling conventions.
    - A JavaScript string is a [string] of Rocq [ascii] characters.  The
      model is exact on 7-bit text; a code unit above 127 is treated as
      a character that is neither a word character, nor white space, nor
      subject to case conversion.
    - A callback handed to the controller ([onCommand], [onTranscript],
      ...) is recorded as an [event]; every method returns the new
      controller state together with the events it fired, in order.
    - Regular expressions are abstract syntax interpreted by a
      backtracking matcher with the priorities of the JavaScript engine
      (leftmost start, greedy quantifiers, left alternative first). *)

From Stdlib Require Import Ascii NArith Bool Lia.
From Stdlib Require String.
From stdpp Require Import gmap strings pretty.

(** ** Characters *)

Definition code (c : ascii) : N := N_of_ascii c.

Definition in_range (lo hi c : ascii) : bool :=
  ((code lo <=? code c) && (code c <=? code hi))%N.

Definition is_upper (c : ascii) : bool := in_range "A" "Z" c.
Definition is_lower (c : ascii) : bool := in_range "a" "z" c.
Definition is_digit (c : ascii) : bool := in_range "0" "9" c.
Definition is_letter (c : ascii) : bool := is_upper c || is_lower c.

(** [\w] *)
Definition is_word (c : ascii) : bool :=
  is_letter c || is_digit c || Ascii.eqb c "_".

(** [\s] and the characters removed by [trim()]: TAB, LF, VT, FF, CR, SP. *)
Definition is_space (c : ascii) : bool :=
  in_range "009" "013" c || Ascii.eqb c " ".

Definition upper_char (c : ascii) : ascii :=
  if is_lower c then ascii_of_N (code c - 32) else c.

Definition lower_char (c : ascii) : ascii :=
  if is_upper c then ascii_of_N (code c + 32) else c.

(** ** Strings *)

Fixpoint map_string (f : ascii -> ascii) (s : string) : string :=
  match s with
  | EmptyString => EmptyString
  | String c s' => String (f c) (map_string f s')
  end.

Fixpoint forallb_string (p : ascii -> bool) (s : string) : bool :=
  match s with
  | EmptyString => true
  | String c s' => p c && forallb_string p s'
  end.

Fixpoint existsb_string (p : ascii -> bool) (s : string) : bool :=
  match s with
  | EmptyString => false
  | String c s' => p c || existsb_string p s'
  end.

Definition toUpperCase : string -> string := map_string upper_char.
Definition toLowerCase : string -> string := map_string lower_char.

(** JavaScript truthiness of a string: non-empty. *)
Definition truthy (s : string) : bool :=
  match s with EmptyString => false | String _ _ => true end.

Definition head_char (s : string) : option ascii :=
  match s with EmptyString => None | String c _ => Some c end.

Fixpoint trimStart (s : string) : string :=
  match s with
  | EmptyString => EmptyString
  | String c s' => if is_space c then trimStart s' else s
  end.

Fixpoint trimEnd (s : string) : string :=
  match s with
  | EmptyString => EmptyString
  | String c s' =>
      match trimEnd s' with
      | EmptyString => if is_space c then EmptyString else String c EmptyString
      | t => String c t
      end
  end.

Definition trim (s : string) : string := trimEnd (trimStart s).

(** [s.startsWith(p)] *)
Fixpoint starts_with (p s : string) : bool :=
  match p, s with
  | EmptyString, _ => true
  | String a p', String b s' => Ascii.eqb a b && starts_with p' s'
  | String _ _, EmptyString => false
  end.

(** [s.includes(p)] *)
Fixpoint includes (s p : string) : bool :=
  starts_with p s ||
  match s with
  | EmptyString => false
  | String _ s' => includes s' p
  end.

(** [l.join(sep)] *)
Fixpoint join (sep : string) (l : list string) : string :=
  match l with
  | [] => EmptyString
  | [x] => x
  | x :: l' => x +:+ sep +:+ join sep l'
  end.

(** [s.split(/\s+/)]: the pieces between maximal runs of white space,
    the (possibly empty) first and last piece included. *)
Fixpoint split_ws_from (cur : string) (skipping : bool) (s : string) : list string :=
  match s with
  | EmptyString => [cur]
  | String c s' =>
      if is_space c then
        if skipping then split_ws_from EmptyString true s'
        else cur :: split_ws_from EmptyString true s'
      else split_ws_from (cur +:+ String c EmptyString) false s'
  end.

Definition split_ws (s : string) : list string := split_ws_from EmptyString false s.

(** ** Regular expressions *)

(** Atoms that match one character. *)
Inductive cls : Type :=
| CChar (c : ascii)            (* a literal character *)
| CRange (lo hi : ascii)       (* [lo-hi] *)
| CDigit                       (* \d *)
| CSpace                       (* \s *)
| CAny                         (* . *)
| COr (a b : cls).             (* [ab] *)

Inductive regex : Type :=
| Eps
| Chr (c : cls)
| Bnd                          (* \b *)
| Bos                          (* ^ *)
| Eos                          (* $ *)
| Seq (r1 r2 : regex)
| Alt (r1 r2 : regex)          (* r1|r2 *)
| Opt (r : regex)              (* (?:r)? *)
| Rep (min : nat) (c : cls)    (* c{min,}: c* is Rep 0, c+ is Rep 1 *)
| Cap (r : regex).             (* the capturing group read as match[1] *)

(** A pattern is a regular expression with its [i] flag. *)
Record pattern : Type := Pattern { pat_re : regex; pat_icase : bool }.

Fixpoint cls_match (icase : bool) (k : cls) (c : ascii) : bool :=
  match k with
  | CChar x => if icase then Ascii.eqb (upper_char x) (upper_char c) else Ascii.eqb x c
  | CRange lo hi =>
      in_range lo hi c ||
      (icase && (in_range lo hi (upper_char c) || in_range lo hi (lower_char c)))
  | CDigit => is_digit c
  | CSpace => is_space c
  | CAny => negb (Ascii.eqb c "010" || Ascii.eqb c "013")
  | COr a b => cls_match icase a c || cls_match icase b c
  end.

Definition is_word_opt (o : option ascii) : bool :=
  match o with Some c => is_word c | None => false end.

(** The matcher is written in continuation-passing style: [k] receives
    the character before the current position, the rest of the input
    and the current capture, and a [None] answer makes the matcher
    backtrack into the most recent choice. *)
Section Matcher.
Context {A : Type}.
Variable icase : bool.

Definition cont : Type := option ascii -> string -> option string -> option A.

Definition or_else (x : option A) (y : option A) : option A :=
  match x with Some _ => x | None => y end.

Fixpoint rep_greedy (c : cls) (min : nat) (prev : option ascii) (s : string)
    (cap : option string) (k : cont) {struct s} : option A :=
  let stop := match min with O => k prev s cap | S _ => None end in
  match s with
  | EmptyString => stop
  | String a s' =>
      if cls_match icase c a
      then or_else (rep_greedy c (Nat.pred min) (Some a) s' cap k) stop
      else stop
  end.

Fixpoint rmatch (r : regex) (prev : option ascii) (s : string)
    (cap : option string) (k : cont) {struct r} : option A :=
  match r with
  | Eps => k prev s cap
  | Chr c =>
      match s with
      | String a s' => if cls_match icase c a then k (Some a) s' cap else None
      | EmptyString => None
      end
  | Bnd => if xorb (is_word_opt prev) (is_word_opt (head_char s)) then k prev s cap else None
  | Bos => match prev with None => k prev s cap | Some _ => None end
  | Eos => match s with EmptyString => k prev s cap | String _ _ => None end
  | Seq r1 r2 => rmatch r1 prev s cap (fun p' s' c' => rmatch r2 p' s' c' k)
  | Alt r1 r2 => or_else (rmatch r1 prev s cap k) (rmatch r2 prev s cap k)
  | Opt r1 => or_else (rmatch r1 prev s cap k) (k prev s cap)
  | Rep min c => rep_greedy c min prev s cap k
  | Cap r1 =>
      rmatch r1 prev s cap
        (fun p' s' _ =>
           k p' s' (Some (String.substring 0 (String.length s - String.length s') s)))
  end.
End Matcher.

(** The result of one successful match attempt: the input left after the
    match and the text of the capturing group. *)
Record match_result : Type := MatchResult { m_rest : string; m_cap : option string }.

Definition match_here (p : pattern) (prev : option ascii) (s : string) : option match_result :=
  rmatch (pat_icase p) (pat_re p) prev s None (fun _ s' c => Some (MatchResult s' c)).

(** [RegExp.prototype.exec] without the [g] flag: the first position, from
    the left, at which the pattern matches. *)
Fixpoint search_from (p : pattern) (prev : option ascii) (s : string) : option match_result :=
  match match_here p prev s with
  | Some r => Some r
  | None =>
      match s with
      | EmptyString => None
      | String c s' => search_from p (Some c) s'
      end
  end.

Definition exec (p : pattern) (s : string) : option match_result := search_from p None s.

(** [re.test(s)] *)
Definition test (p : pattern) (s : string) : bool :=
  match exec p s with Some _ => true | None => false end.

(** [s.match(re)[1]] for a pattern without the [g] flag; [None] stands for
    both a failed match and an unset group. *)
Definition match1 (p : pattern) (s : string) : option string :=
  match exec p s with Some r => m_cap r | None => None end.

(** [s.replace(re, by)] for a pattern with the [g] flag and a replacement
    without [$] references.  [skip] counts the characters of the current
    match that are still to be dropped. *)
Fixpoint replace_from (p : pattern) (by_ : string) (prev : option ascii) (skip : nat)
    (s : string) : string :=
  match skip with
  | S n =>
      match s with
      | EmptyString => EmptyString
      | String c s' => replace_from p by_ (Some c) n s'
      end
  | O =>
      match match_here p prev s with
      | Some r =>
          match String.length s - String.length (m_rest r) with
          | O =>
              by_ +:+
              match s with
              | EmptyString => EmptyString
              | String c s' => String c (replace_from p by_ (Some c) 0 s')
              end
          | S n =>
              by_ +:+
              match s with
              | EmptyString => EmptyString
              | String c s' => replace_from p by_ (Some c) n s'
              end
          end
      | None =>
          match s with
          | EmptyString => EmptyString
          | String c s' => String c (replace_from p by_ (Some c) 0 s')
          end
      end
  end.

Definition replace_all (p : pattern) (by_ : string) (s : string) : string :=
  replace_from p by_ None 0 s.

(** *** Building patterns *)

Fixpoint lit (s : string) : regex :=
  match s with
  | EmptyString => Eps
  | String c EmptyString => Chr (CChar c)
  | String c s' => Seq (Chr (CChar c)) (lit s')
  end.

Fixpoint seqs (l : list regex) : regex :=
  match l with
  | [] => Eps
  | [r] => r
  | r :: l' => Seq r (seqs l')
  end.

Fixpoint alts (l : list regex) : regex :=
  match l with
  | [] => Eps
  | [r] => r
  | r :: l' => Alt r (alts l')
  end.

Definition star (c : cls) : regex := Rep 0 c.
Definition plus (c : cls) : regex := Rep 1 c.
Definition upperAZ : cls := CRange "A" "Z".
Definition dash_or_space : cls := COr (CChar "-") CSpace.

(** * VoiceController *)

Module Voice.

(** ** MRN detection *)

(** Pattern 1: [/\bMRN[-\s]*([A-Z]{2,}[-\s]*\d+)\b/i] *)
Definition mrn_pattern1 : pattern :=
  Pattern
    (seqs [Bnd; lit "MRN"; star dash_or_space;
           Cap (seqs [Rep 2 upperAZ; star dash_or_space; plus CDigit]); Bnd])
    true.

(** Pattern 2: [/\bMRN\s+(?:number\s+)?(\d+)\b/i] *)
Definition mrn_pattern2 : pattern :=
  Pattern
    (seqs [Bnd; lit "MRN"; plus CSpace; Opt (seqs [lit "number"; plus CSpace]);
           Cap (plus CDigit); Bnd])
    true.

(** Pattern 3: [/\bpatient'?s?\s+MRN\s+(?:is\s+)?([A-Z]{2,}\d+)\b/i] *)
Definition mrn_pattern3 : pattern :=
  Pattern
    (seqs [Bnd; lit "patient"; Opt (Chr (CChar "'")); Opt (Chr (CChar "s"));
           plus CSpace; lit "MRN"; plus CSpace; Opt (seqs [lit "is"; plus CSpace]);
           Cap (seqs [Rep 2 upperAZ; plus CDigit]); Bnd])
    true.

(** Pattern 4: [/\b[Mm]\s*[Rr]\s*[Nn]\s+([A-Z]{2,}\s*\d+|\d+)\b/] *)
Definition mrn_pattern4 : pattern :=
  Pattern
    (seqs [Bnd; Chr (COr (CChar "M") (CChar "m")); star CSpace;
           Chr (COr (CChar "R") (CChar "r")); star CSpace;
           Chr (COr (CChar "N") (CChar "n")); plus CSpace;
           Cap (Alt (seqs [Rep 2 upperAZ; star CSpace; plus CDigit]) (plus CDigit));
           Bnd])
    false.

(** Pattern 5: [/\b([A-Z]{2,}\d{3,})\b/] *)
Definition mrn_pattern5 : pattern :=
  Pattern (seqs [Bnd; Cap (seqs [Rep 2 upperAZ; Rep 3 CDigit]); Bnd]) false.

Definition mrn_patterns : list pattern :=
  [mrn_pattern1; mrn_pattern2; mrn_pattern3; mrn_pattern4; mrn_pattern5].

(** [/\s+/g], [/-/g], [/^\d+$/], [/[A-Z]/] and [/\d/] *)
Definition re_spaces : pattern := Pattern (plus CSpace) false.
Definition re_hyphen : pattern := Pattern (Chr (CChar "-")) false.
Definition re_all_digits : pattern := Pattern (seqs [Bos; plus CDigit; Eos]) false.
Definition re_has_upper : pattern := Pattern (Chr upperAZ) false.
Definition re_has_digit : pattern := Pattern (Chr CDigit) false.

(** The body of the loop of [_detectMRN] for one pattern: the normalized
    candidate when the pattern matches with a non-empty group. *)
Definition mrn_candidate (p : pattern) (text : string) : option string :=
  match match1 p text with
  | Some g =>
      if truthy g then
        let mrn := toUpperCase (replace_all re_hyphen "" (replace_all re_spaces "" g)) in
        Some (if test re_all_digits mrn then "MRNAB" +:+ mrn else mrn)
      else None
  | None => None
  end.

Definition mrn_valid (mrn : string) : bool :=
  test re_has_upper mrn && test re_has_digit mrn.

Fixpoint detectMRN_loop (ps : list pattern) (text : string) : option string :=
  match ps with
  | [] => None
  | p :: ps' =>
      match mrn_candidate p text with
      | Some mrn => if mrn_valid mrn then Some mrn else detectMRN_loop ps' text
      | None => detectMRN_loop ps' text
      end
  end.

Definition _detectMRN (text : string) : option string :=
  if truthy text then detectMRN_loop mrn_patterns text else None.


(** ** Template detection *)

(** The four replacements of [normalize], all with flags [gi]:
    [/\b(consultation|consult)\b/], [/\b(soap)\b/], [/\b(progress)\b/]
    and [/\b(note|notes)\b/]. *)
Definition re_consultation : pattern :=
  Pattern (seqs [Bnd; Alt (lit "consultation") (lit "consult"); Bnd]) true.
Definition re_soap : pattern := Pattern (seqs [Bnd; lit "soap"; Bnd]) true.
Definition re_progress : pattern := Pattern (seqs [Bnd; lit "progress"; Bnd]) true.
Definition re_notes : pattern :=
  Pattern (seqs [Bnd; Alt (lit "note") (lit "notes"); Bnd]) true.

Definition normalize (str : string) : string :=
  replace_all re_notes "note"
    (replace_all re_progress "progress"
       (replace_all re_soap "soap"
          (replace_all re_consultation "consultation" str))).

Definition stopwords : list string := ["form"; "note"; "the"].

Definition is_stopword (w : string) : bool := existsb (String.eqb w) stopwords.

(** [normalizedTemplate.split(/\s+/).filter(w => w.length > 3 && !stop.includes(w))] *)
Definition templateWords (normalizedTemplate : string) : list string :=
  filter (fun w => Is_true ((3 <? String.length w) && negb (is_stopword w)))
    (split_ws normalizedTemplate).

Definition matchedWords (normalizedText : string) (words : list string) : list string :=
  filter (fun w => Is_true (includes normalizedText w)) words.

(** [matchRatio >= 0.7], the quotient of two array lengths compared with
    a constant: for lengths below 2^32 the rounded quotient is at least
    the rounded 0.7 exactly when [7 * total <= 10 * matched]. *)
Definition ratio_ok (matched total : nat) : bool := 7 * total <=? 10 * matched.

(** The two phrases tried after the fuzzy match: first and last word,
    and the first two words. *)
Definition phrases (words : list string) : list string :=
  [ default "" (head words) +:+ " " +:+ default "" (last words);
    join " " (take 2 words) ].

Definition phrase_hit (normalizedText phrase : string) : bool :=
  (5 <? String.length phrase) && includes normalizedText phrase.

(** One iteration of the loop over the templates: does [template] match? *)
Definition template_matches (normalizedText template : string) : bool :=
  let normalizedTemplate := normalize (toLowerCase template) in
  if includes normalizedText normalizedTemplate then true
  else
    let words := templateWords normalizedTemplate in
    match words with
    | [] => false
    | _ =>
        if ratio_ok (length (matchedWords normalizedText words)) (length words) then true
        else existsb (phrase_hit normalizedText) (phrases words)
    end.

Fixpoint detectTemplate_loop (normalizedText : string) (templates : list string)
    : option string :=
  match templates with
  | [] => None
  | t :: ts =>
      if template_matches normalizedText t then Some t
      else detectTemplate_loop normalizedText ts
  end.

Definition _detectTemplate (templates : list string) (text : string) : option string :=
  if truthy text then detectTemplate_loop (normalize (toLowerCase text)) templates
  else None.

(** ** Controller state, callbacks and the method monad *)

(** A callback invocation. *)
Inductive event : Type :=
| OnCommand (action rawText : string)
| OnTranscript (text : string) (isFinal : bool)
| OnListenStateChange (isListening : bool)
| OnError (err : string)
| OnMRNTemplateDetected (mrn template text : string).

(** An entry [{re, action}] of [opts.customMap]; [cr_test] is [re.test]
    for an expression without the [g] and [y] flags, whose answer
    depends on the text alone. *)
Record custom_rule : Type := CustomRule { cr_test : string -> bool; cr_action : string }.

(** The fields of a [VoiceController].  [_SR] tells whether the speech
    recognition constructor exists, [_rec] whether a recognizer object
    has been created. *)
Record controller : Type := Controller {
  partialThrottleMs : Z;
  _customMap : list custom_rule;
  _SR : bool;
  _rec : bool;
  _listening : bool;
  _lastPartialAt : Z;
  _noteMode : bool;
  _noteBuffer : string;
  _fullTranscript : string;
  _detectedMRN : option string;
  _detectedTemplate : option string;
  _availableTemplates : list string
}.

(** What the page offers to [_loadTemplatesFromAPI]: whether
    [window.getAvailableTemplates] is a function, and the options of the
    [select] element with id [templateSelect] when the document has one,
    each with its [value] and its [textContent]. *)
Record select_option : Type := SelectOption { opt_value : string; opt_textContent : string }.

Record page : Type := Page {
  has_getAvailableTemplates : bool;
  templateSelect : option (list select_option)
}.

(** The fields as the constructor sets them before it calls
    [_loadTemplatesFromAPI]. *)
Definition initial_fields (throttle : Z) (customMap : list custom_rule) (sr : bool)
    : controller :=
  {| partialThrottleMs := throttle; _customMap := customMap; _SR := sr;
     _rec := false; _listening := false; _lastPartialAt := 0;
     _noteMode := false; _noteBuffer := ""; _fullTranscript := "";
     _detectedMRN := None; _detectedTemplate := None; _availableTemplates := [] |}.

Definition set_rec (v : bool) (c : controller) : controller :=
  {| partialThrottleMs := partialThrottleMs c; _customMap := _customMap c; _SR := _SR c;
     _rec := v; _listening := _listening c; _lastPartialAt := _lastPartialAt c;
     _noteMode := _noteMode c; _noteBuffer := _noteBuffer c;
     _fullTranscript := _fullTranscript c; _detectedMRN := _detectedMRN c;
     _detectedTemplate := _detectedTemplate c;
     _availableTemplates := _availableTemplates c |}.

Definition set_listening (v : bool) (c : controller) : controller :=
  {| partialThrottleMs := partialThrottleMs c; _customMap := _customMap c; _SR := _SR c;
     _rec := _rec c; _listening := v; _lastPartialAt := _lastPartialAt c;
     _noteMode := _noteMode c; _noteBuffer := _noteBuffer c;
     _fullTranscript := _fullTranscript c; _detectedMRN := _detectedMRN c;
     _detectedTemplate := _detectedTemplate c;
     _availableTemplates := _availableTemplates c |}.

Definition set_lastPartialAt (v : Z) (c : controller) : controller :=
  {| partialThrottleMs := partialThrottleMs c; _customMap := _customMap c; _SR := _SR c;
     _rec := _rec c; _listening := _listening c; _lastPartialAt := v;
     _noteMode := _noteMode c; _noteBuffer := _noteBuffer c;
     _fullTranscript := _fullTranscript c; _detectedMRN := _detectedMRN c;
     _detectedTemplate := _detectedTemplate c;
     _availableTemplates := _availableTemplates c |}.

Definition set_noteMode (v : bool) (c : controller) : controller :=
  {| partialThrottleMs := partialThrottleMs c; _customMap := _customMap c; _SR := _SR c;
     _rec := _rec c; _listening := _listening c; _lastPartialAt := _lastPartialAt c;
     _noteMode := v; _noteBuffer := _noteBuffer c;
     _fullTranscript := _fullTranscript c; _detectedMRN := _detectedMRN c;
     _detectedTemplate := _detectedTemplate c;
     _availableTemplates := _availableTemplates c |}.

Definition set_noteBuffer (v : string) (c : controller) : controller :=
  {| partialThrottleMs := partialThrottleMs c; _customMap := _customMap c; _SR := _SR c;
     _rec := _rec c; _listening := _listening c; _lastPartialAt := _lastPartialAt c;
     _noteMode := _noteMode c; _noteBuffer := v;
     _fullTranscript := _fullTranscript c; _detectedMRN := _detectedMRN c;
     _detectedTemplate := _detectedTemplate c;
     _availableTemplates := _availableTemplates c |}.

Definition set_fullTranscript (v : string) (c : controller) : controller :=
  {| partialThrottleMs := partialThrottleMs c; _customMap := _customMap c; _SR := _SR c;
     _rec := _rec c; _listening := _listening c; _lastPartialAt := _lastPartialAt c;
     _noteMode := _noteMode c; _noteBuffer := _noteBuffer c;
     _fullTranscript := v; _detectedMRN := _detectedMRN c;
     _detectedTemplate := _detectedTemplate c;
     _availableTemplates := _availableTemplates c |}.

Definition set_detectedMRN (v : option string) (c : controller) : controller :=
  {| partialThrottleMs := partialThrottleMs c; _customMap := _customMap c; _SR := _SR c;
     _rec := _rec c; _listening := _listening c; _lastPartialAt := _lastPartialAt c;
     _noteMode := _noteMode c; _noteBuffer := _noteBuffer c;
     _fullTranscript := _fullTranscript c; _detectedMRN := v;
     _detectedTemplate := _detectedTemplate c;
     _availableTemplates := _availableTemplates c |}.

Definition set_detectedTemplate (v : option string) (c : controller) : controller :=
  {| partialThrottleMs := partialThrottleMs c; _customMap := _customMap c; _SR := _SR c;
     _rec := _rec c; _listening := _listening c; _lastPartialAt := _lastPartialAt c;
     _noteMode := _noteMode c; _noteBuffer := _noteBuffer c;
     _fullTranscript := _fullTranscript c; _detectedMRN := _detectedMRN c;
     _detectedTemplate := v;
     _availableTemplates := _availableTemplates c |}.

Definition set_availableTemplates (v : list string) (c : controller) : controller :=
  {| partialThrottleMs := partialThrottleMs c; _customMap := _customMap c; _SR := _SR c;
     _rec := _rec c; _listening := _listening c; _lastPartialAt := _lastPartialAt c;
     _noteMode := _noteMode c; _noteBuffer := _noteBuffer c;
     _fullTranscript := _fullTranscript c; _detectedMRN := _detectedMRN c;
     _detectedTemplate := _detectedTemplate c;
     _availableTemplates := v |}.

(** A method: from the controller before the call to the returned value,
    the controller after it and the callbacks fired, oldest first. *)
Definition method (A : Type) : Type := controller -> A * controller * list event.

#[global] Instance method_ret : MRet method := fun A a c => (a, c, []).

#[global] Instance method_bind : MBind method := fun A B f m c =>
  let '(a, c1, e1) := m c in
  let '(b, c2, e2) := f a c1 in
  (b, c2, e1 ++ e2).

Definition this : method controller := fun c => (c, c, []).
Definition update (f : controller -> controller) : method unit := fun c => (tt, f c, []).
Definition fire (e : event) : method unit := fun c => (tt, c, [e]).

Definition when (b : bool) (m : method unit) : method unit := if b then m else mret tt.

Definition value_of {A : Type} (r : A * controller * list event) : A := r.1.1.
Definition state_of {A : Type} (r : A * controller * list event) : controller := r.1.2.
Definition events_of {A : Type} (r : A * controller * list event) : list event := r.2.

(** [a + (a ? ' ' : '') + b], the idiom of [+=] with a separator *)
Definition append_sp (a b : string) : string :=
  a +:+ (if truthy a then " " else "") +:+ b.

(** ** Construction *)

(** The fallback of [_loadTemplatesFromAPI]: the trimmed texts of the
    options of [#templateSelect] that have a value.  Without such an
    element, or without a document, nothing is assigned. *)
Definition load_templates_from_DOM (pg : page) : method unit :=
  match templateSelect pg with
  | Some options =>
      update (set_availableTemplates
                (map (fun opt => trim (opt_textContent opt))
                   (List.filter (fun opt => truthy (opt_value opt)) options)))
  | None => mret tt
  end.

(** [_loadTemplatesFromAPI()] is an [async] method.  This is the part
    that runs before the call returns: up to the [await] when the page
    has [window.getAvailableTemplates], to the end otherwise.  The value
    tells whether [window.getAvailableTemplates] was called, in which
    case the method is suspended at the [await] or, if that call threw,
    has ended in its [catch] block. *)
Definition _loadTemplatesFromAPI (pg : page) : method bool :=
  if has_getAvailableTemplates pg then mret true
  else load_templates_from_DOM pg ;; mret false.

(** The part of [_loadTemplatesFromAPI] after the [await]: [templates] is
    the awaited value, [None] when the call threw or its promise was
    rejected, the empty list standing for every value that is falsy or
    has no elements; [pg] is the page at that time. *)
Definition _loadTemplatesFromAPI_resumed (templates : option (list string)) (pg : page)
    : method unit :=
  match templates with
  | Some ts =>
      if bool_decide (ts ≠ []) then update (set_availableTemplates ts)
      else load_templates_from_DOM pg
  | None => mret tt
  end.

(** [new VoiceController(opts)] on page [pg] *)
Definition constructor (throttle : Z) (customMap : list custom_rule) (sr : bool) (pg : page)
    : controller :=
  state_of (_loadTemplatesFromAPI pg (initial_fields throttle customMap sr)).

(** ** Note mode *)

Definition _emitStartNote : method unit :=
  c ← this;
  if _noteMode c then mret tt
  else
    update (set_noteMode true) ;;
    update (set_noteBuffer "") ;;
    fire (OnCommand "start_note" "note").

Definition _emitStopNote : method unit :=
  c ← this;
  if negb (_noteMode c) then mret tt
  else
    update (set_noteMode false) ;;
    let finalNote := trim (_noteBuffer c) in
    update (set_noteBuffer "") ;;
    when (truthy finalNote) (fire (OnTranscript finalNote true)) ;;
    fire (OnCommand "stop_note" "create").

(** ** Combined MRN and template detection *)

Definition differs (v : string) (stored : option string) : bool :=
  match stored with
  | Some w => negb (String.eqb v w)
  | None => true
  end.

Definition truthy_opt (o : option string) : bool :=
  match o with Some v => truthy v | None => false end.

Definition _detectMRNAndTemplate (text : string) : method unit :=
  if negb (truthy text) then mret tt
  else
    c ← this;
    when (match _detectMRN text with
          | Some m => truthy m && differs m (_detectedMRN c)
          | None => false
          end)
      (update (set_detectedMRN (_detectMRN text))) ;;
    when (match _detectTemplate (_availableTemplates c) text with
          | Some t => truthy t && differs t (_detectedTemplate c)
          | None => false
          end)
      (update (set_detectedTemplate (_detectTemplate (_availableTemplates c) text))) ;;
    c' ← this;
    match _detectedMRN c', _detectedTemplate c' with
    | Some m, Some t =>
        when (truthy m && truthy t)
          (fire (OnMRNTemplateDetected m t (_fullTranscript c')))
    | _, _ => mret tt
    end.

(** ** Command parsing *)

(** The rules of [_parseCommand], none of which has the [i] flag.  Their
    groups are only used for grouping: the method calls [test] alone. *)
Definition word_re (w : string) : pattern := Pattern (seqs [Bnd; lit w; Bnd]) false.

(** [/\bnote\b/], [/\bcreate\b/], [/\bdisconnect\b/], [/\bconnect\b/] *)
Definition re_note : pattern := word_re "note".
Definition re_create : pattern := word_re "create".
Definition re_disconnect : pattern := word_re "disconnect".
Definition re_connect : pattern := word_re "connect".

Definition mic_suffix : regex := Opt (seqs [plus CSpace; lit "mic"; Opt (lit "rophone")]).

(** [/\bunmute(\s+mic(rophone)?)?\b/] and [/\bmute(\s+mic(rophone)?)?\b/] *)
Definition re_unmute : pattern := Pattern (seqs [Bnd; lit "unmute"; mic_suffix; Bnd]) false.
Definition re_mute : pattern := Pattern (seqs [Bnd; lit "mute"; mic_suffix; Bnd]) false.

(** [/\bstart( the)? (stream|video|camera)\b/] and the same with [stop] *)
Definition stream_re (verb : string) : pattern :=
  Pattern
    (seqs [Bnd; lit verb; Opt (lit " the"); lit " ";
           alts [lit "stream"; lit "video"; lit "camera"]; Bnd])
    false.
Definition re_start_stream : pattern := stream_re "start".
Definition re_stop_stream : pattern := stream_re "stop".

(** [/\bhide( the)? (video|camera|preview)?\b/] and the same with [show] *)
Definition video_re (verb : string) : pattern :=
  Pattern
    (seqs [Bnd; lit verb; Opt (lit " the"); lit " ";
           Opt (alts [lit "video"; lit "camera"; lit "preview"]); Bnd])
    false.
Definition re_hide_video : pattern := video_re "hide".
Definition re_show_video : pattern := video_re "show".

(** [/\bsend( an)? urgent (message|alert)\b/] and [/\burgent\b.*\bmessage\b/] *)
Definition re_send_urgent : pattern :=
  Pattern
    (seqs [Bnd; lit "send"; Opt (lit " an"); lit " urgent ";
           Alt (lit "message") (lit "alert"); Bnd])
    false.
Definition re_urgent_message : pattern :=
  Pattern (seqs [Bnd; lit "urgent"; Bnd; star CAny; Bnd; lit "message"; Bnd]) false.

(** The loop over [_customMap]: the action of the first entry whose
    expression matches. *)
Fixpoint custom_action (rules : list custom_rule) (text : string) : option string :=
  match rules with
  | [] => None
  | r :: rules' => if cr_test r text then Some (cr_action r) else custom_action rules' text
  end.

(** The rules after the two note rules, which have no side effect. *)
Definition plain_command (text : string) : option string :=
  if test re_disconnect text then Some "disconnect"
  else if test re_connect text then Some "connect"
  else if test re_unmute text then Some "unmute"
  else if test re_mute text then Some "mute"
  else if test re_start_stream text then Some "start_stream"
  else if test re_stop_stream text then Some "stop_stream"
  else if test re_hide_video text then Some "hide_video"
  else if test re_show_video text then Some "show_video"
  else if test re_send_urgent text then Some "urgent"
  else if test re_urgent_message text then Some "urgent"
  else None.

Definition _parseCommand (s : string) : method (option string) :=
  let text := trim (toLowerCase s) in
  if negb (truthy text) then mret None
  else
    c ← this;
    match custom_action (_customMap c) text with
    | Some action => mret (Some action)
    | None =>
        if test re_note text then _emitStartNote ;; mret (Some "start_note")
        else if test re_create text then _emitStopNote ;; mret (Some "stop_note")
        else mret (plain_command text)
    end.

(** ** Recognizer results *)

(** One entry of [e.results]: the transcript of its best alternative, if
    it has one, and its [isFinal] flag. *)
Record slot : Type := Slot { transcript : option string; isFinal : bool }.

(** A [result] event together with the reading of [Date.now()] taken
    while it is handled. *)
Record result_event : Type := ResultEvent { results : list slot; now : Z }.

(** [(res[0]?.transcript || '').trim()] *)
Definition slot_text (res : slot) : string := trim (default "" (transcript res)).

(** The [for] loop of [_onResult]: [finalSegments] and [latestInterim]
    after the slots [rs] that are still to be visited. *)
Fixpoint scan_results (rs : list slot) (finalSegments : list string) (latestInterim : string)
    : list string * string :=
  match rs with
  | [] => (finalSegments, latestInterim)
  | res :: rs' =>
      let txt := slot_text res in
      if negb (truthy txt) then scan_results rs' finalSegments latestInterim
      else if isFinal res then scan_results rs' (finalSegments ++ [txt]) latestInterim
      else
        match rs' with
        | [] => scan_results rs' finalSegments txt
        | _ :: _ => scan_results rs' finalSegments latestInterim
        end
  end.

Definition _onResult (e : result_event) : method unit :=
  let '(finalSegments, latestInterim) := scan_results (results e) [] "" in
  if truthy latestInterim && bool_decide (finalSegments = []) then
    c ← this;
    when (bool_decide (partialThrottleMs c ≤ now e - _lastPartialAt c)%Z)
      (update (set_lastPartialAt (now e)) ;;
       fire (OnTranscript latestInterim false))
  else if bool_decide (finalSegments = []) then mret tt
  else
    let finalTxt := join " " finalSegments in
    let finalTxtLower := toLowerCase finalTxt in
    c ← this;
    update (set_fullTranscript (append_sp (_fullTranscript c) finalTxt)) ;;
    _detectMRNAndTemplate finalTxt ;;
    c ← this;
    if _noteMode c then
      update (set_noteBuffer (append_sp (_noteBuffer c) finalTxt)) ;;
      fire (OnTranscript finalTxt true) ;;
      when (test re_create finalTxtLower) _emitStopNote
    else
      action ← _parseCommand finalTxtLower;
      if truthy_opt action then fire (OnCommand (default "" action) finalTxt)
      else fire (OnTranscript finalTxt true).

(** ** The public control surface *)

(** [start()]; [rec_start] is the outcome of [this._rec.start()]: [None]
    when it returns, the error string when it throws. *)
Definition start (rec_start : option string) : method bool :=
  c ← this;
  if negb (_SR c) then fire (OnError "speech_api_unavailable") ;; mret false
  else if _listening c then mret true
  else
    when (negb (_rec c)) (update (set_rec true)) ;;
    match rec_start with
    | None =>
        update (set_listening true) ;; fire (OnListenStateChange true) ;; mret true
    | Some err =>
        update (set_listening false) ;; fire (OnListenStateChange false) ;;
        fire (OnError err) ;; mret false
    end.

Definition stop : method unit :=
  c ← this;
  if negb (_rec c) then mret tt
  else
    update (set_listening false) ;;
    fire (OnListenStateChange false) ;;
    when (_noteMode c) _emitStopNote.



(** A listening session: the [result] events handled one after the other. *)
Fixpoint run_session (es : list result_event) : method unit :=
  match es with
  | [] => mret tt
  | e :: es' => _onResult e ;; run_session es'
  end.

(** ** Recognizer events and the rest of the control surface *)

(** [destroy()] *)
Definition destroy : method unit := stop ;; update (set_rec false).

(** The argument of [_onError]: its [error] and [message] fields, the
    empty string standing for a field that is absent or falsy; [None]
    is an event that is [undefined]. *)
Record error_event : Type := ErrorEvent { ev_error : string; ev_message : string }.

(** [ev?.error || ev?.message || 'speech_error'] *)
Definition error_code (ev : option error_event) : string :=
  match ev with
  | Some x =>
      if truthy (ev_error x) then ev_error x
      else if truthy (ev_message x) then ev_message x
      else "speech_error"
  | None => "speech_error"
  end.

Definition recoverable : list string := ["no-speech"; "aborted"; "audio-capture"; "network"].

(** [_onError(ev)]; the value tells whether [this._rec.start()] is
    called to restart the recognizer. *)
Definition _onError (ev : option error_event) : method bool :=
  let code := error_code ev in
  fire (OnError code) ;;
  c ← this;
  mret (_listening c && bool_decide (code ∈ recoverable)).

(** [_onEnd()]; the value tells whether [this._rec.start()] is called. *)
Definition _onEnd : method bool :=
  c ← this;
  if _listening c then mret true
  else fire (OnListenStateChange false) ;; mret false.



End Voice.

(** * ScribeStorage *)

Module ScribeStorage.

(** [STORAGE_KEYS] *)
Definition CURRENT_MRN : string := "scribe_current_mrn".
Definition CURRENT_TEMPLATE : string := "scribe_current_template".
Definition CURRENT_TRANSCRIPT : string := "scribe_current_transcript".
Definition SESSION_DATA : string := "scribe_session_data".

(** [Object.values(STORAGE_KEYS)] *)
Definition storage_keys : list string :=
  [CURRENT_MRN; CURRENT_TEMPLATE; CURRENT_TRANSCRIPT; SESSION_DATA].

(** A value of a field of the session object or an element of an array:
    a string, a number, a boolean, [null] ([JNul]) or a nested object or
    array.  The class only copies such a value, writes it back and tests
    whether it is truthy, so that a nested object or array, which is
    always truthy, stands as its JSON text. *)
Inductive jsval : Type :=
| JStr (s : string)
| JNum (n : Z)
| JBool (b : bool)
| JNul
| JNested (text : string).

(** A value that [JSON.parse] may return for the stored session text:
    the class writes objects only, but the text under the session key
    can be any JSON text. *)
Inductive json : Type :=
| JObject (fields : gmap string jsval)
| JArray (items : list jsval)
| JString (s : string)
| JNumber (n : Z)
| JBoolean (b : bool)
| JNull.

(** The elements of a list as fields named by their indices, which are
    written in decimal. *)
Definition indexed {A : Type} (f : A -> jsval) (l : list A) : gmap string jsval :=
  list_to_map (imap (fun i x => (pretty i, f x)) l).

(** The fields that [{...v}] copies: the own enumerable properties of
    [v], which are the fields of an object, the elements of an array and
    the characters of a string under their indices, and none for a
    number, a boolean or [null]. *)
Definition own_fields (v : json) : gmap string jsval :=
  match v with
  | JObject o => o
  | JArray l => indexed id l
  | JString s => indexed (fun a => JStr (String a "")) (String.list_ascii_of_string s)
  | JNumber _ | JBoolean _ | JNull => ∅
  end.

(** [v.name] for a value that is not [null] and a name that is neither
    an index nor [length]: [None] is [undefined]. *)
Definition named_field (v : json) (name : string) : option jsval :=
  match v with
  | JObject o => o !! name
  | _ => None
  end.

(** [delete v.name] for such a name: a value that is not an object has
    no such field and is left as it is. *)
Definition delete_field (name : string) (v : json) : json :=
  match v with
  | JObject o => JObject (delete name o)
  | _ => v
  end.

(** [localStorage] is a finite map from keys to strings.  [getItem] and
    [removeItem] return normally; [setItem] throws when the browser
    refuses the write (the quota is exceeded, or storage is disabled):
    [accepts ls key value] tells whether the store [ls] takes the write,
    and [setItem] answers [None] when it throws.  [JSON.parse] may throw
    as well, which [parse] reports as [None]. *)
Section Store.
Variable accepts : gmap string string -> string -> string -> bool.
Variable stringify : json -> string.
Variable parse : string -> option json.

Definition getItem (ls : gmap string string) (key : string) : option string := ls !! key.
Definition setItem (ls : gmap string string) (key value : string)
    : option (gmap string string) :=
  if accepts ls key value then Some (<[key := value]> ls) else None.
Definition removeItem (ls : gmap string string) (key : string) : gmap string string :=
  delete key ls.

(** [{...a, ...b}]: the fields of [b] take precedence. *)
Definition spread (a b : gmap string jsval) : gmap string jsval := b ∪ a.

(** [getSessionData()]: the parsed text, whatever it is; the empty
    object when there is no text or when it cannot be parsed. *)
Definition getSessionData (ls : gmap string string) : json :=
  match getItem ls SESSION_DATA with
  | Some data => if truthy data then default (JObject ∅) (parse data) else JObject ∅
  | None => JObject ∅
  end.

(** [saveSessionData(data)]; a refused write ends in the [catch] block,
    which leaves the store as it is. *)
Definition saveSessionData (now : Z) (data : gmap string jsval) (ls : gmap string string)
    : gmap string string :=
  let existing := getSessionData ls in
  let updated := <["timestamp" := JNum now]> (spread (own_fields existing) data) in
  match setItem ls SESSION_DATA (stringify (JObject updated)) with
  | Some ls' => ls'
  | None => ls
  end.

Definition _updateSessionData (now : Z) (data : gmap string jsval) (ls : gmap string string)
    : gmap string string :=
  let existing := getSessionData ls in
  saveSessionData now (spread (own_fields existing) data) ls.

(** [saveMRN(mrn)]: nothing for a falsy value; otherwise the value is
    written and, if that write did not throw, the session object is
    updated; the [catch] block leaves the store as it is. *)
Definition saveMRN (now : Z) (mrn : string) (ls : gmap string string) : gmap string string :=
  if negb (truthy mrn) then ls
  else
    match setItem ls CURRENT_MRN mrn with
    | Some ls1 => _updateSessionData now {["mrn" := JStr mrn]} ls1
    | None => ls
    end.

(** [localStorage.getItem(key) || null] *)
Definition get_or_null (ls : gmap string string) (key : string) : option string :=
  match getItem ls key with
  | Some v => if truthy v then Some v else None
  | None => None
  end.

Definition getMRN (ls : gmap string string) : option string := get_or_null ls CURRENT_MRN.

Definition saveTemplate (now : Z) (template : string) (ls : gmap string string)
    : gmap string string :=
  if negb (truthy template) then ls
  else
    match setItem ls CURRENT_TEMPLATE template with
    | Some ls1 => _updateSessionData now {["template" := JStr template]} ls1
    | None => ls
    end.

Definition getTemplate (ls : gmap string string) : option string :=
  get_or_null ls CURRENT_TEMPLATE.

Definition saveTranscript (now : Z) (transcript : string) (ls : gmap string string)
    : gmap string string :=
  if negb (truthy transcript) then ls
  else
    match setItem ls CURRENT_TRANSCRIPT transcript with
    | Some ls1 => _updateSessionData now {["transcript" := JStr transcript]} ls1
    | None => ls
    end.

Definition getTranscript (ls : gmap string string) : option string :=
  get_or_null ls CURRENT_TRANSCRIPT.

Definition clearAll (ls : gmap string string) : gmap string string :=
  foldl removeItem ls storage_keys.

(** [clearMRN()].  The key is removed first.  [delete session.mrn]
    throws a [TypeError] when the stored session is [null], and
    [setItem] may throw: either way the [catch] block is entered with
    the key already removed and the session text untouched. *)
Definition clearMRN (ls : gmap string string) : gmap string string :=
  let ls1 := removeItem ls CURRENT_MRN in
  match getSessionData ls1 with
  | JNull => ls1
  | session =>
      match setItem ls1 SESSION_DATA (stringify (delete_field "mrn" session)) with
      | Some ls2 => ls2
      | None => ls1
      end
  end.

Definition clearTemplate (ls : gmap string string) : gmap string string :=
  let ls1 := removeItem ls CURRENT_TEMPLATE in
  match getSessionData ls1 with
  | JNull => ls1
  | session =>
      match setItem ls1 SESSION_DATA (stringify (delete_field "template" session)) with
      | Some ls2 => ls2
      | None => ls1
      end
  end.

End Store.

(** ** The active session *)

(** JavaScript truthiness of a field value, and of a field of a value
    that may lack it. *)
Definition js_truthy (v : jsval) : bool :=
  match v with
  | JStr s => truthy s
  | JNum n => negb (n =? 0)%Z
  | JBool b => b
  | JNul => false
  | JNested _ => true
  end.

Definition field_truthy (session : json) (field : string) : bool :=
  match named_field session field with
  | Some v => js_truthy v
  | None => false
  end.

(** [hasActiveSession()]: [!!(session.mrn || session.template)].  The
    method has no [try]: when the stored session is [null] the property
    access throws a [TypeError], which is the answer [None]. *)
Definition hasActiveSession (parse : string -> option json) (ls : gmap string string)
    : option bool :=
  match getSessionData parse ls with
  | JNull => None
  | session => Some (field_truthy session "mrn" || field_truthy session "template")
  end.

(** A stored string or [null] as a field value. *)
Definition or_null (o : option string) : jsval :=
  match o with
  | Some s => JStr s
  | None => JNul
  end.

(** [getActiveSession()]: the three stored values, overridden by the
    fields of the session object. *)
Definition getActiveSession (parse : string -> option json) (ls : gmap string string)
    : gmap string jsval :=
  own_fields (getSessionData parse ls) ∪
  {[ "mrn" := or_null (getMRN ls);
     "template" := or_null (getTemplate ls);
     "transcript" := or_null (getTranscript ls) ]}.

End ScribeStorage.

(** * The earlier VoiceController of [voice.js] *)

(** The second class of [voice.js] (from line 543) is the earlier version
    of the controller.  Its fields, its note mode and its command parser
    are those of the current one; its result handler starts at
    [e.resultIndex], lower-cases every text and detects the MRN and the
    template in the accumulated transcript with simpler rules. *)
Module VoiceV1.

Import Voice.

(** [new VoiceController(opts)]: the earlier constructor sets the same
    fields and loads no templates; [_availableTemplates] is not read by
    this class. *)
Definition constructor (throttle : Z) (customMap : list custom_rule) (sr : bool)
    : controller :=
  initial_fields throttle customMap sr.

(** The text of the first match of a pattern, [text.match(re)[0]] for a
    pattern with the [g] flag. *)
Fixpoint first_match (p : pattern) (prev : option ascii) (s : string) : option string :=
  match match_here p prev s with
  | Some r => Some (String.substring 0 (String.length s - String.length (m_rest r)) s)
  | None =>
      match s with
      | EmptyString => None
      | String c s' => first_match p (Some c) s'
      end
  end.

Definition alnum : cls := COr (CRange "A" "Z") (CRange "0" "9").

(** [/\b(MRN[-\s]?[A-Z0-9]+)\b/gi] and [/\bMRN\s+(\d+)\b/gi] *)
Definition mrnPattern1 : pattern :=
  Pattern (seqs [Bnd; lit "MRN"; Opt (Chr dash_or_space); plus alnum; Bnd]) true.
Definition mrnPattern2 : pattern :=
  Pattern (seqs [Bnd; lit "MRN"; plus CSpace; plus CDigit; Bnd]) true.

(** [/\d+/] *)
Definition re_digits : pattern := Pattern (plus CDigit) false.

Definition _detectMRN (text : string) : option string :=
  if negb (truthy text) then None
  else
    match first_match mrnPattern1 None text with
    | Some m => Some (toUpperCase (replace_all re_hyphen "" (replace_all re_spaces "" m)))
    | None =>
        match first_match mrnPattern2 None text with
        | Some m => Some ("MRNAB" +:+ default "" (first_match re_digits None m))
        | None => None
        end
    end.

Definition templates : list string :=
  ["SOAP Note"; "Admission Note"; "Consultation Note"; "Diagnostic Report";
   "Discharge Summary"; "Follow Up Visit Note"; "Followup Visit"; "History And Physical";
   "Hospital Followup Visit"; "New Patient Visit"; "Operative Report"; "Preop Visit";
   "Procedure Note"; "Procedure-Note Abdominal Aortography";
   "Procedure-Note Right And Left Heart Catheterization"; "Progress Note Soap";
   "Stress Test Exercise MPI"; "Telehealth Visit"; "Vein Consult"; "Vein Followup"].

(** [s.split(' ')] *)
Fixpoint split_space_from (cur : string) (s : string) : list string :=
  match s with
  | EmptyString => [cur]
  | String c s' =>
      if Ascii.eqb c " " then cur :: split_space_from EmptyString s'
      else split_space_from (cur +:+ String c EmptyString) s'
  end.

Definition template_matches (lowerText template : string) : bool :=
  let templateLower := toLowerCase template in
  if includes lowerText templateLower then true
  else
    let templateWords :=
      List.filter (fun w => 2 <? String.length w) (split_space_from "" templateLower) in
    (1 <? length templateWords) && forallb (includes lowerText) templateWords.

Definition _detectTemplate (text : string) : option string :=
  if negb (truthy text) then None
  else List.find (template_matches (toLowerCase text)) templates.

Definition _detectMRNAndTemplate (text : string) : method unit :=
  if negb (truthy text) then mret tt
  else
    c ← this;
    when (match _detectMRN text with
          | Some m => truthy m && differs m (_detectedMRN c)
          | None => false
          end)
      (update (set_detectedMRN (_detectMRN text))) ;;
    when (match _detectTemplate text with
          | Some t => truthy t && differs t (_detectedTemplate c)
          | None => false
          end)
      (update (set_detectedTemplate (_detectTemplate text))) ;;
    c' ← this;
    match _detectedMRN c', _detectedTemplate c' with
    | Some m, Some t =>
        when (truthy m && truthy t)
          (fire (OnMRNTemplateDetected m t (_fullTranscript c')))
    | _, _ => mret tt
    end.

(** A [result] event with its [resultIndex]. *)
Record result_event : Type :=
  ResultEvent { results : list slot; resultIndex : nat; now : Z }.

(** [(res[0]?.transcript || '').toLowerCase().trim()] *)
Definition slot_text (res : slot) : string :=
  trim (toLowerCase (default "" (transcript res))).

(** The loop of [_onResult] over the slots from [resultIndex] on. *)
Fixpoint scan_results (rs : list slot) (interim finalTxt : string) : string * string :=
  match rs with
  | [] => (interim, finalTxt)
  | res :: rs' =>
      let txt := slot_text res in
      if negb (truthy txt) then scan_results rs' interim finalTxt
      else if isFinal res then scan_results rs' interim (append_sp finalTxt txt)
      else scan_results rs' (append_sp interim txt) finalTxt
  end.

Definition _onResult (e : result_event) : method unit :=
  let '(interim, finalTxt) := scan_results (drop (resultIndex e) (results e)) "" "" in
  when (truthy interim)
    (c ← this;
     when (bool_decide (partialThrottleMs c ≤ now e - _lastPartialAt c)%Z)
       (update (set_lastPartialAt (now e)) ;;
        fire (OnTranscript interim false))) ;;
  if negb (truthy finalTxt) then mret tt
  else
    c ← this;
    update (set_fullTranscript (append_sp (_fullTranscript c) finalTxt)) ;;
    c1 ← this;
    _detectMRNAndTemplate (_fullTranscript c1) ;;
    c2 ← this;
    if _noteMode c2 then
      update (set_noteBuffer (append_sp (_noteBuffer c2) finalTxt)) ;;
      fire (OnTranscript finalTxt true) ;;
      when (test re_create finalTxt) _emitStopNote
    else
      action ← _parseCommand finalTxt;
      if truthy_opt action then fire (OnCommand (default "" action) finalTxt)
      else fire (OnTranscript finalTxt true).

Fixpoint run_session (es : list result_event) : method unit :=
  match es with
  | [] => mret tt
  | e :: es' => _onResult e ;; run_session es'
  end.

End VoiceV1.

(** * Vocabulary of the statements *)

Import Voice.
Import ScribeStorage.

(** The texts that a [result] event contributes: those of its final
    slots, trimmed, the empty ones left out. *)
Definition final_texts (rs : list slot) : list string :=
  List.filter truthy (map slot_text (List.filter isFinal rs)).

(** The final chunk of an event, [finalTxt] in [_onResult]. *)
Definition final_text (e : result_event) : string := join " " (final_texts (results e)).

Definition session_finals (es : list result_event) : list string :=
  concat (map (fun e => final_texts (results e)) es).

(** The texts of the final slots of a session as the recognizer
    delivered them, before any trimming. *)
Definition delivered_finals (es : list result_event) : list string :=
  concat (map (fun e => map (fun r => default "" (transcript r))
                          (List.filter isFinal (results e))) es).

(** The callbacks of each kind among the events fired. *)
Definition commands_fired (evs : list event) : list (string * string) :=
  omap (fun ev => match ev with OnCommand a r => Some (a, r) | _ => None end) evs.

Definition transcripts_fired (evs : list event) : list (string * bool) :=
  omap (fun ev => match ev with OnTranscript t f => Some (t, f) | _ => None end) evs.

Definition detections_fired (evs : list event) : list (string * string * string) :=
  omap (fun ev => match ev with
                  | OnMRNTemplateDetected m t x => Some (m, t, x)
                  | _ => None
                  end) evs.

Definition actions_fired (evs : list event) : list string := (commands_fired evs).*1.

(** The actions listed in the header of [voice.js]. *)
Definition command_actions : list string :=
  ["connect"; "disconnect"; "start_stream"; "stop_stream"; "mute"; "unmute";
   "hide_video"; "show_video"; "urgent"; "start_note"; "stop_note"].

(** An action that [onCommand] may receive from controller [c]. *)
Definition allowed_action (c : controller) (a : string) : Prop :=
  a ∈ command_actions \/ a ∈ map cr_action (_customMap c).

(** The detection state after [_detectMRNAndTemplate text], and the
    events it fires. *)
Definition next_MRN (text : string) (c : controller) : option string :=
  match _detectMRN text with
  | Some m => if truthy m && differs m (_detectedMRN c) then Some m else _detectedMRN c
  | None => _detectedMRN c
  end.

Definition next_template (text : string) (c : controller) : option string :=
  match _detectTemplate (_availableTemplates c) text with
  | Some t => if truthy t && differs t (_detectedTemplate c) then Some t else _detectedTemplate c
  | None => _detectedTemplate c
  end.

Definition detection_events (m t : option string) (full : string) : list event :=
  match m, t with
  | Some m, Some t =>
      if truthy m && truthy t then [OnMRNTemplateDetected m t full] else []
  | _, _ => []
  end.

(** What [_onResult] does when the event carries final text, written
    without the monad. *)
Definition onResult_final (e : result_event) (c : controller) : unit * controller * list event :=
  let finalTxt := final_text e in
  let c1 := set_fullTranscript (append_sp (_fullTranscript c) finalTxt) c in
  let '(_, c2, ev2) := _detectMRNAndTemplate finalTxt c1 in
  if _noteMode c2 then
    let c3 := set_noteBuffer (append_sp (_noteBuffer c2) finalTxt) c2 in
    if test re_create (toLowerCase finalTxt) then
      let '(_, c4, ev4) := _emitStopNote c3 in
      (tt, c4, ev2 ++ OnTranscript finalTxt true :: ev4)
    else (tt, c3, ev2 ++ [OnTranscript finalTxt true])
  else
    let '(a, c3, ev3) := _parseCommand (toLowerCase finalTxt) c2 in
    (tt, c3,
     ev2 ++ ev3 ++
       [if truthy_opt a then OnCommand (default "" a) finalTxt
        else OnTranscript finalTxt true]).

(** A syntactic condition under which every match of [r] begins by
    consuming a character that satisfies [P]. *)
Fixpoint begins_with (icase : bool) (P : ascii -> bool) (r : regex) : Prop :=
  match r with
  | Chr k => forall a, cls_match icase k a = true -> P a = true
  | Rep (S _) k => forall a, cls_match icase k a = true -> P a = true
  | Seq Bnd r2 => begins_with icase P r2
  | Seq Bos r2 => begins_with icase P r2
  | Seq r1 _ => begins_with icase P r1
  | Alt r1 r2 => begins_with icase P r1 /\ begins_with icase P r2
  | Cap r1 => begins_with icase P r1
  | _ => False
  end.

Definition head_avoids (P : ascii -> bool) (s : string) : Prop :=
  match s with
  | EmptyString => True
  | String a _ => P a = false
  end.

(** ** Sample data *)

(** An event with one final slot. *)
Definition final_event (text : string) (t : Z) : result_event :=
  ResultEvent [Slot (Some text) true] t.

(** A session with interim slots between the final ones. *)
Definition sample_session : list result_event :=
  [ResultEvent [Slot (Some "Patient has") true; Slot (Some "hea") false] 0;
   ResultEvent [Slot (Some " a headache ") true] 900;
   ResultEvent [Slot (Some "since") false] 1000;
   ResultEvent [Slot (Some "since Monday") true] 2000].

(** A session whose second final slot is blank and whose third begins
    with a space, as recognizers deliver them. *)
Definition blank_slot_session : list result_event :=
  [ResultEvent [Slot (Some "Hello") true] 0;
   ResultEvent [Slot (Some "hm") false; Slot (Some " ") true] 500;
   ResultEvent [Slot (Some " world") true] 1000].

(** A session in which the recognizer delivers its whole result list
    with every event, as it does in continuous mode. *)
Definition cumulative_session : list result_event :=
  [ResultEvent [Slot (Some "Hello") true] 0;
   ResultEvent [Slot (Some "Hello") true; Slot (Some "world") true] 1000].

(** A page without [window.getAvailableTemplates] and without a
    [#templateSelect] element. *)
Definition bare_page : page := Page false None.

(** A listening controller in note mode with the given buffer. *)
Definition note_controller (buffer : string) : controller :=
  set_noteBuffer buffer
    (set_noteMode true (set_listening true (set_rec true (constructor 800 [] true bare_page)))).

(** The controller after [start()] and the utterance "note". *)
Definition started_note : controller :=
  state_of (_onResult (final_event "note" 0)
              (state_of (start None (constructor 800 [] true bare_page)))).

(** A controller with two templates. *)
Definition soap_controller : controller :=
  set_availableTemplates ["SOAP Note"; "Consultation Note Form"]
    (constructor 800 [] true bare_page).

(** An override list whose rule answers with an action of its own. *)
Definition zoom_rule : custom_rule := CustomRule (fun text => includes text "zoom") "zoom_in".

(** A stand-in for [JSON.stringify] and [JSON.parse] on the sample data:
    the store is only read back through [getMRN]. *)
Definition sample_stringify (v : json) : string := "{}".
Definition sample_parse (s : string) : option json := Some (JObject ∅).

(** A store that takes every write, one whose quota is exhausted, and
    one with room for values of at most [n] characters. *)
Definition roomy (ls : gmap string string) (key value : string) : bool := true.
Definition exhausted (ls : gmap string string) (key value : string) : bool := false.
Definition room_for (n : nat) (ls : gmap string string) (key value : string) : bool :=
  String.length value <=? n.

(** ** Vocabulary of the further properties *)


(** The interim text that the loop of [_onResult] keeps: the trimmed
    text of the last slot when that slot is not final. *)
Definition latest_interim (rs : list slot) : string :=
  match last rs with
  | Some res => if isFinal res then "" else slot_text res
  | None => ""
  end.


(** The fields that only [start], [stop], [destroy], [setTemplates] and
    the constructor write. *)
Definition same_setup (c c' : controller) : Prop :=
  partialThrottleMs c' = partialThrottleMs c /\ _customMap c' = _customMap c /\
  _SR c' = _SR c /\ _rec c' = _rec c /\ _listening c' = _listening c /\
  _availableTemplates c' = _availableTemplates c.

(** Two interim-only events, the first of which is reported. *)
Definition interim_event (text : string) (t : Z) : result_event :=
  ResultEvent [Slot (Some text) false] t.


(** The text that [_parseCommand] classifies for an event. *)
Definition command_text (e : result_event) : string := trim (toLowerCase (final_text e)).

(** A controller whose override list maps every text with "note" to an
    action of the caller. *)
Definition memo_rule : custom_rule := CustomRule (fun text => includes text "note") "memo".


(** A non-empty string without white space at either end. *)
Definition clean (s : string) : Prop := s <> "" /\ trimStart s = s /\ trimEnd s = s.

(** A session that dictates two sentences. *)
Definition dictation : list result_event :=
  [final_event "Patient is stable" 0;
   interim_event "blood" 500;
   final_event " Blood pressure normal " 2000].

Definition listen_changes (evs : list event) : list bool :=
  omap (fun ev => match ev with OnListenStateChange b => Some b | _ => None end) evs.


(** The combined-detection callback that the stored state calls for. *)
Definition stored_detection (c : controller) : list (string * string * string) :=
  match _detectedMRN c, _detectedTemplate c with
  | Some m, Some t =>
      if truthy m && truthy t then [(m, t, _fullTranscript c)] else []
  | _, _ => []
  end.

(** The detection state is well formed: a stored MRN passes the letter
    and digit check and a stored template is one of the available ones. *)
Definition detection_ok (c : controller) : Prop :=
  (forall m, _detectedMRN c = Some m -> mrn_valid m = true) /\
  (forall t, _detectedTemplate c = Some t -> t ∈ _availableTemplates c).


(** A character that a normalized MRN may hold: no white space, no
    hyphen, no lower-case letter. *)
Definition canonical_char (a : ascii) : bool :=
  negb (is_space a) && negb (Ascii.eqb "-" a) && negb (is_lower a).

(** A codec with the two properties of [JSON.stringify] and
    [JSON.parse] that the session store relies on: parsing what was
    written gives the object back, and no object is written as the empty
    string. *)
#[global] Instance jsval_eq_dec : EqDecision jsval.
Proof. solve_decision. Defined.

#[global] Instance jsval_countable : Countable jsval :=
  inj_countable'
    (fun v => match v with
              | JStr s => inl (inl s)
              | JNested t => inl (inr t)
              | JNum n => inr (inl n)
              | JBool b => inr (inr (Some b))
              | JNul => inr (inr None)
              end)
    (fun x => match x with
              | inl (inl s) => JStr s
              | inl (inr t) => JNested t
              | inr (inl n) => JNum n
              | inr (inr (Some b)) => JBool b
              | inr (inr None) => JNul
              end)
    (fun v => match v with
              | JStr _ | JNum _ | JBool _ | JNul | JNested _ => eq_refl
              end).

#[global] Instance json_eq_dec : EqDecision json.
Proof. solve_decision. Defined.

#[global] Instance json_countable : Countable json :=
  inj_countable'
    (fun v => match v with
              | JObject o => inl (inl o)
              | JArray l => inl (inr l)
              | JString s => inr (inl s)
              | JNumber n => inr (inr (inl n))
              | JBoolean b => inr (inr (inr (Some b)))
              | JNull => inr (inr (inr None))
              end)
    (fun x => match x with
              | inl (inl o) => JObject o
              | inl (inr l) => JArray l
              | inr (inl s) => JString s
              | inr (inr (inl n)) => JNumber n
              | inr (inr (inr (Some b))) => JBoolean b
              | inr (inr (inr None)) => JNull
              end)
    (fun v => match v with
              | JObject _ | JArray _ | JString _ | JNumber _ | JBoolean _ | JNull => eq_refl
              end).

Fixpoint pos_digits (p : positive) : string :=
  match p with
  | xH => "."
  | xO q => String "0" (pos_digits q)
  | xI q => String "1" (pos_digits q)
  end.

Fixpoint digits_pos (s : string) : option positive :=
  match s with
  | EmptyString => None
  | String a r =>
      if Ascii.eqb a "." then match r with EmptyString => Some xH | _ => None end
      else if Ascii.eqb a "0" then xO <$> digits_pos r
      else if Ascii.eqb a "1" then xI <$> digits_pos r
      else None
  end.

Definition codec_stringify (v : json) : string := pos_digits (encode v).
Definition codec_parse (s : string) : option json := digits_pos s ≫= decode.

(** A store that holds a value of each kind. *)
Definition filled_store : gmap string string :=
  saveTranscript roomy codec_stringify codec_parse 30 "patient is stable"
    (saveTemplate roomy codec_stringify codec_parse 20 "SOAP Note"
       (saveMRN roomy codec_stringify codec_parse 10 "AB123" ∅)).

(** A store whose session text is the JSON text [null]. *)
Definition null_session_store : gmap string string :=
  {[ SESSION_DATA := codec_stringify JNull; CURRENT_MRN := "AB123" ]}.

(** The three save methods have one shape, and so have the two clear
    methods. *)
Definition save_shape (accepts : gmap string string -> string -> string -> bool)
    (stringify : json -> string) (parse : string -> option json) (key field : string)
    (now : Z) (value : string) (ls : gmap string string) : gmap string string :=
  if negb (truthy value) then ls
  else
    match setItem accepts ls key value with
    | Some ls1 => _updateSessionData accepts stringify parse now {[field := JStr value]} ls1
    | None => ls
    end.

Definition clear_shape (accepts : gmap string string -> string -> string -> bool)
    (stringify : json -> string) (parse : string -> option json) (key field : string)
    (ls : gmap string string) : gmap string string :=
  let ls1 := removeItem ls key in
  match getSessionData parse ls1 with
  | JNull => ls1
  | session =>
      match setItem accepts ls1 SESSION_DATA (stringify (delete_field field session)) with
      | Some ls2 => ls2
      | None => ls1
      end
  end.

(** The character before the position reached after reading [s]. *)
Fixpoint last_char (prev : option ascii) (s : string) : option ascii :=
  match s with
  | EmptyString => prev
  | String a s' => last_char (Some a) s'
  end.

(** [s] without the characters that satisfy [P]. *)
Fixpoint remove_chars (P : ascii -> bool) (s : string) : string :=
  match s with
  | EmptyString => EmptyString
  | String a s' => if P a then remove_chars P s' else String a (remove_chars P s')
  end.

(** A character of the class [[-\s]]. *)
Definition is_dash_or_space (a : ascii) : bool := Ascii.eqb "-" a || is_space a.

(** A syntactic condition under which every match of [r] consumes a
    white-space character. *)
Fixpoint consumes_space (r : regex) : bool :=
  match r with
  | Chr CSpace => true
  | Rep (S _) CSpace => true
  | Seq r1 r2 => consumes_space r1 || consumes_space r2
  | Alt r1 r2 => consumes_space r1 && consumes_space r2
  | Cap r1 => consumes_space r1
  | _ => false
  end.

(** The letters of a value begin with the keyword: "MRN" followed by at
    least two more letters. *)
Definition mrn_prefixed (letters : string) : bool :=
  starts_with "MRN" letters && (5 <=? String.length letters).

(** [s.slice(3)] *)
Definition without_keyword (s : string) : string :=
  String.substring 3 (String.length s - 3) s.

(** Text of the 7-bit character set, on which the case conversions of
    the model are those of JavaScript. *)
Definition seven_bit (s : string) : Prop :=
  forallb_string (fun a => (code a <? 128)%N) s = true.

(** The final texts that the earlier handler takes from an event: those
    of the final slots from [resultIndex] on. *)
Definition final_texts_v1 (e : VoiceV1.result_event) : list string :=
  List.filter truthy
    (map VoiceV1.slot_text
       (List.filter isFinal (drop (VoiceV1.resultIndex e) (VoiceV1.results e)))).

(** The events of a recognizer in continuous mode: each event delivers
    the whole result list so far, with [resultIndex] at the first slot
    of the new batch. *)
Fixpoint cumulative_events (seen : list slot) (batches : list (list slot))
    : list VoiceV1.result_event :=
  match batches with
  | [] => []
  | b :: bs =>
      VoiceV1.ResultEvent (seen ++ b) (length seen) 0 :: cumulative_events (seen ++ b) bs
  end.

(** A recognizer that finalizes one slot per batch. *)
Definition two_batches : list (list slot) :=
  [[Slot (Some "Hello there") true]; [Slot (Some " General ") false];
   [Slot (Some "General Kenobi") true]].

(** * Proofs *)

(** ** Strings *)
Lemma append_nil (t : string) : "" +:+ t = t.
Proof. reflexivity. Qed.

Lemma append_cons (a : ascii) (s t : string) : String a s +:+ t = String a (s +:+ t).
Proof. reflexivity. Qed.

Ltac sapp := rewrite ?append_cons, ?append_nil.

Lemma append_empty_r (s : string) : s +:+ "" = s.
Proof. induction s as [|a s IH]; sapp; [reflexivity | f_equal; exact IH]. Qed.

Lemma append_assoc (a b c : string) : (a +:+ b) +:+ c = a +:+ (b +:+ c).
Proof. induction a as [|x a IH]; sapp; [reflexivity | f_equal; exact IH]. Qed.

Lemma truthy_nonempty (s : string) : s <> "" -> truthy s = true.
Proof. by destruct s. Qed.

Lemma truthy_append_r (a b : string) : truthy b = true -> truthy (a +:+ b) = true.
Proof. destruct a; sapp; simpl; auto. Qed.

Lemma truthy_append_l (a b : string) : truthy a = true -> truthy (a +:+ b) = true.
Proof. destruct a; sapp; simpl; [discriminate | reflexivity]. Qed.

Lemma truthy_false (s : string) : truthy s = false <-> s = "".
Proof. destruct s; simpl; split; congruence. Qed.

Lemma trimEnd_empty (s : string) : trimEnd s = "" <-> forallb_string is_space s = true.
Proof.
  induction s as [|a s IH]; simpl; [tauto|].
  destruct (trimEnd s) eqn:E.
  - destruct (is_space a); simpl; [tauto | split; discriminate].
  - split; [discriminate|].
    intros H. apply andb_true_iff in H as [_ H]. apply IH in H. discriminate.
Qed.

Lemma trimStart_head (s : string) :
  match trimStart s with
  | String a _ => is_space a = false
  | EmptyString => True
  end.
Proof.
  induction s as [|a s IH]; simpl; [exact I|].
  destruct (is_space a) eqn:E; [exact IH | exact E].
Qed.

Lemma trimEnd_head (a : ascii) (s : string) :
  is_space a = false -> exists t, trimEnd (String a s) = String a t.
Proof.
  intros H. simpl. destruct (trimEnd s); [rewrite H|]; eauto.
Qed.

(** A trimmed string, when it is not empty, starts with a character that
    is not white space. *)
Lemma trim_head (s : string) :
  match trim s with
  | String a _ => is_space a = false
  | EmptyString => True
  end.
Proof.
  unfold trim. pose proof (trimStart_head s) as H.
  destruct (trimStart s) as [|a t]; [exact I|].
  destruct (trimEnd_head a t H) as [u ->]. exact H.
Qed.

Lemma trim_truthy_of_head (a : ascii) (s : string) :
  is_space a = false -> truthy (trim (String a s)) = true.
Proof.
  intros H. unfold trim. simpl. rewrite H.
  destruct (trimEnd_head a s H) as [u ->]. reflexivity.
Qed.

Lemma trimStart_append_head (a : ascii) (s t : string) :
  is_space a = false -> exists u, trimStart (s +:+ String a t) = String a u \/
    exists b, trimStart (s +:+ String a t) = String b u /\ is_space b = false.
Proof.
  intros H. induction s as [|b s IH]; sapp; simpl.
  - rewrite H. eauto.
  - destruct (is_space b) eqn:E; [exact IH|]. exists (s +:+ String a t). right. eauto.
Qed.

(** Appending text that has a visible character gives a buffer that does
    not trim to the empty string. *)
Lemma trim_append_visible (s t : string) (a : ascii) (u : string) :
  t = String a u -> is_space a = false -> truthy (trim (s +:+ t)) = true.
Proof.
  intros -> H. unfold trim.
  destruct (trimStart_append_head a s u H) as [v [E | [b [E Hb]]]]; rewrite E.
  - destruct (trimEnd_head a v H) as [w ->]. reflexivity.
  - destruct (trimEnd_head b v Hb) as [w ->]. reflexivity.
Qed.

(** ** Joining segments *)
Lemma join_cons (sep x : string) (l : list string) :
  l <> [] -> join sep (x :: l) = x +:+ sep +:+ join sep l.
Proof. destruct l; [congruence | reflexivity]. Qed.

Lemma join_app (sep : string) (l1 l2 : list string) :
  l1 <> [] -> l2 <> [] ->
  join sep (l1 ++ l2) = join sep l1 +:+ sep +:+ join sep l2.
Proof.
  intros H1 H2. induction l1 as [|x l1 IH]; [congruence|].
  destruct l1 as [|y l1].
  - simpl app. by rewrite join_cons.
  - change ((x :: y :: l1) ++ l2) with (x :: (y :: l1) ++ l2).
    rewrite !join_cons by (try discriminate; destruct l1; discriminate).
    rewrite IH by discriminate. by rewrite !append_assoc.
Qed.

Lemma join_truthy (l : list string) :
  l <> [] -> Forall (fun x => truthy x = true) l -> truthy (join " " l) = true.
Proof.
  intros Hne Hall. destruct l as [|x l]; [congruence|].
  inversion Hall as [|? ? Hx _]; subst.
  destruct l; [exact Hx|]. rewrite join_cons by discriminate.
  by apply truthy_append_l.
Qed.

Lemma append_sp_join (segs fs : list string) :
  Forall (fun x => truthy x = true) segs -> fs <> [] ->
  append_sp (join " " segs) (join " " fs) = join " " (segs ++ fs).
Proof.
  intros Hall Hfs. unfold append_sp. destruct segs as [|x segs]; [reflexivity|].
  rewrite join_truthy by (done || discriminate).
  by rewrite join_app by (done || discriminate).
Qed.


(** ** The methods of the controller *)

Ltac unfold_method :=
  unfold when, this, update, fire, mbind, method_bind, mret, method_ret,
    state_of, events_of, value_of in *.

Lemma detect_spec (text : string) (c : controller) :
  truthy text = true ->
  _detectMRNAndTemplate text c =
    (tt,
     set_detectedTemplate (next_template text c) (set_detectedMRN (next_MRN text c) c),
     detection_events (next_MRN text c) (next_template text c) (_fullTranscript c)).
Proof.
  intros H. unfold _detectMRNAndTemplate, next_MRN, next_template, detection_events.
  rewrite H. destruct c as [? ? ? ? ? ? ? ? ? sm st tpls]. unfold_method.
  cbn -[_detectMRN _detectTemplate].
  generalize (_detectMRN text) (_detectTemplate tpls text).
  intros dm dt.
  destruct dm as [m|], dt as [t|], sm as [m'|], st as [t'|]; cbn;
    repeat (case_match; cbn); simplify_eq/=; try reflexivity; congruence.
Qed.

(** The loop of [_onResult] collects the trimmed, non-empty texts of the
    final slots, in order. *)
Lemma scan_results_finals (rs : list slot) (acc : list string) (li : string) :
  (scan_results rs acc li).1 = acc ++ final_texts rs.
Proof.
  revert acc li. induction rs as [|r rs IH]; intros acc li.
  - unfold final_texts. simpl. by rewrite app_nil_r.
  - unfold final_texts in *. cbn -[slot_text].
    destruct (truthy (slot_text r)) eqn:Et; cbn -[slot_text].
    + destruct (isFinal r) eqn:Ef; cbn -[slot_text].
      * rewrite Et, IH, <- app_assoc. reflexivity.
      * destruct rs; apply IH.
    + destruct (isFinal r); cbn -[slot_text]; rewrite ?Et; apply IH.
Qed.

Lemma final_texts_truthy (rs : list slot) :
  Forall (fun x => truthy x = true) (final_texts rs).
Proof.
  unfold final_texts. apply Forall_forall. intros x Hx.
  apply list_elem_of_In, filter_In in Hx. tauto.
Qed.

Lemma emitStopNote_frame (c : controller) :
  let c' := state_of (_emitStopNote c) in
  _fullTranscript c' = _fullTranscript c /\ _customMap c' = _customMap c /\
  _detectedMRN c' = _detectedMRN c /\ _detectedTemplate c' = _detectedTemplate c /\
  _availableTemplates c' = _availableTemplates c.
Proof.
  unfold _emitStopNote. destruct c as [? ? ? ? ? ? nm ? ? ? ? ?], nm; unfold_method;
    cbn -[trim]; [|done].
  by destruct (truthy (trim _)).
Qed.

Lemma emitStartNote_frame (c : controller) :
  let c' := state_of (_emitStartNote c) in
  _fullTranscript c' = _fullTranscript c /\ _customMap c' = _customMap c /\
  _detectedMRN c' = _detectedMRN c /\ _detectedTemplate c' = _detectedTemplate c /\
  _availableTemplates c' = _availableTemplates c.
Proof.
  unfold _emitStartNote. by destruct c as [? ? ? ? ? ? nm ? ? ? ? ?], nm.
Qed.

Lemma parseCommand_frame (s : string) (c : controller) :
  let c' := state_of (_parseCommand s c) in
  _fullTranscript c' = _fullTranscript c /\ _customMap c' = _customMap c /\
  _detectedMRN c' = _detectedMRN c /\ _detectedTemplate c' = _detectedTemplate c /\
  _availableTemplates c' = _availableTemplates c.
Proof.
  unfold _parseCommand.
  destruct (negb (truthy (trim (toLowerCase s)))); [done|].
  unfold_method. cbn -[trim toLowerCase test plain_command _emitStartNote _emitStopNote].
  destruct (custom_action _ _); [done|].
  destruct (test re_note _).
  - pose proof (emitStartNote_frame c) as H. unfold state_of in H.
    destruct (_emitStartNote c) as [[? ?] ?]. exact H.
  - destruct (test re_create _); [|done].
    pose proof (emitStopNote_frame c) as H. unfold state_of in H.
    destruct (_emitStopNote c) as [[? ?] ?]. exact H.
Qed.


Lemma onResult_final_eq (e : result_event) (c : controller) :
  final_texts (results e) <> [] -> _onResult e c = onResult_final e c.
Proof.
  intros Hne. unfold _onResult, onResult_final, final_text.
  pose proof (scan_results_finals (results e) [] "") as Hs.
  destruct (scan_results (results e) [] "") as [fs li]. simpl in Hs. subst fs.
  rewrite (bool_decide_eq_false_2 _ Hne), andb_false_r.
  set (finalTxt := join " " (final_texts (results e))).
  unfold mbind at 1, method_bind at 1, this at 1.
  unfold mbind at 1, method_bind at 1, update at 1.
  unfold mbind at 1, method_bind at 1.
  destruct (_detectMRNAndTemplate finalTxt _) as [[[] c2] ev2].
  unfold mbind at 1, method_bind at 1, this at 1.
  destruct (_noteMode c2).
  - unfold mbind at 1, method_bind at 1, update at 1.
    unfold mbind at 1, method_bind at 1, fire at 1.
    destruct (test re_create (toLowerCase finalTxt)); unfold when.
    + destruct (_emitStopNote _) as [[[] c4] ev4]. reflexivity.
    + unfold mret, method_ret. by rewrite app_nil_r.
  - unfold mbind at 1, method_bind at 1.
    destruct (_parseCommand _ c2) as [[a c3] ev3].
    destruct (truthy_opt a); unfold fire; by rewrite app_nil_l.
Qed.


(** ** Transcript order *)

Lemma onResult_no_final (e : result_event) (c : controller) :
  final_texts (results e) = [] ->
  _onResult e c = (tt, c, []) \/
  exists li, _onResult e c = (tt, set_lastPartialAt (now e) c, [OnTranscript li false]).
Proof.
  intros Hnil. unfold _onResult.
  pose proof (scan_results_finals (results e) [] "") as Hs.
  destruct (scan_results (results e) [] "") as [fs li]. simpl in Hs. subst fs.
  rewrite Hnil. rewrite bool_decide_eq_true_2 by done. rewrite andb_true_r.
  destruct (truthy li); [|by left].
  unfold_method. destruct (bool_decide _); [right; by exists li | by left].
Qed.

Lemma onResult_fullTranscript (e : result_event) (c : controller) :
  _fullTranscript (state_of (_onResult e c)) =
    match final_texts (results e) with
    | [] => _fullTranscript c
    | _ :: _ => append_sp (_fullTranscript c) (final_text e)
    end.
Proof.
  destruct (final_texts (results e)) as [|x l] eqn:E.
  - destruct (onResult_no_final e c E) as [-> | [li ->]]; reflexivity.
  - rewrite onResult_final_eq by (rewrite E; discriminate).
    unfold onResult_final.
    set (c1 := set_fullTranscript _ c).
    assert (Hd : _fullTranscript (state_of (_detectMRNAndTemplate (final_text e) c1))
                 = _fullTranscript c1).
    { destruct (truthy (final_text e)) eqn:Ht.
      - by rewrite detect_spec.
      - unfold _detectMRNAndTemplate. by rewrite Ht. }
    unfold state_of in *.
    destruct (_detectMRNAndTemplate (final_text e) c1) as [[[] c2] ev2]. simpl in Hd.
    destruct (_noteMode c2).
    + destruct (test re_create _).
      * pose proof (emitStopNote_frame
                      (set_noteBuffer (append_sp (_noteBuffer c2) (final_text e)) c2))
          as (H & _).
        unfold state_of in H. destruct (_emitStopNote _) as [[[] c4] ev4]. simpl in *.
        rewrite H. exact Hd.
      * exact Hd.
    + pose proof (parseCommand_frame (toLowerCase (final_text e)) c2) as (H & _).
      unfold state_of in H. destruct (_parseCommand _ c2) as [[a c3] ev3]. simpl in *.
      rewrite H. exact Hd.
Qed.

Lemma run_session_cons (e : result_event) (es : list result_event) (c : controller) :
  state_of (run_session (e :: es) c) = state_of (run_session es (state_of (_onResult e c))).
Proof.
  simpl. unfold_method. destruct (_onResult e c) as [[[] c1] ev1]. simpl.
  by destruct (run_session es c1) as [[[] c2] ev2].
Qed.

Lemma run_session_transcript (es : list result_event) (c : controller) (segs : list string) :
  Forall (fun x => truthy x = true) segs ->
  _fullTranscript c = join " " segs ->
  _fullTranscript (state_of (run_session es c)) = join " " (segs ++ session_finals es).
Proof.
  revert c segs. induction es as [|e es IH]; intros c segs Hall Hc.
  - unfold session_finals. simpl. by rewrite app_nil_r.
  - rewrite run_session_cons.
    unfold session_finals. simpl. fold (session_finals es). rewrite app_assoc.
    apply IH.
    + apply Forall_app. split; [done | apply final_texts_truthy].
    + rewrite onResult_fullTranscript.
      destruct (final_texts (results e)) as [|x l] eqn:E.
      * by rewrite app_nil_r.
      * rewrite Hc. unfold final_text. rewrite E. by apply append_sp_join.
Qed.

(** With three final texts [F1], [F2], [F3], already trimmed and not
    empty, the transcript is [F1 + " " + F2 + " " + F3]. *)
Corollary three_finals_in_order (es : list result_event) (c : controller)
    (F1 F2 F3 : string) :
  _fullTranscript c = "" ->
  session_finals es = [F1; F2; F3] ->
  _fullTranscript (state_of (run_session es c)) = F1 +:+ " " +:+ F2 +:+ " " +:+ F3.
Proof.
  intros Hc Hs. rewrite (run_session_transcript es c []) by done. by rewrite Hs.
Qed.

(** C1 (amended): starting from an empty transcript, the transcript after
    a session is the single-space join, in delivery order, of the trimmed
    texts of the final slots whose trimmed text is not empty; slots that
    are not final contribute nothing. *)
Theorem transcript_order_preserved (es : list result_event) (c : controller) :
  _fullTranscript c = "" ->
  _fullTranscript (state_of (run_session es c)) = join " " (session_finals es).
Proof.
  intros H. by apply (run_session_transcript es c []).
Qed.

Lemma transcript_order_preserved_witness :
  _fullTranscript (constructor 800 [] true bare_page) = "" /\
  _fullTranscript (state_of (run_session sample_session (constructor 800 [] true bare_page)))
    = "Patient has a headache since Monday".
Proof.
  split; [reflexivity|].
  exact (transcript_order_preserved sample_session (constructor 800 [] true bare_page) eq_refl).
Defined.

(** C1 as stated fails: the three final slots of [blank_slot_session]
    are delivered in order, but the transcript is not their
    concatenation with single spaces, because the handler trims every
    slot and skips a blank one. *)
Lemma transcript_as_stated_fails :
  delivered_finals blank_slot_session = ["Hello"; " "; " world"] /\
  _fullTranscript (constructor 800 [] true bare_page) = "" /\
  _fullTranscript (state_of (run_session blank_slot_session (constructor 800 [] true bare_page)))
    = "Hello world" /\
  _fullTranscript (state_of (run_session blank_slot_session (constructor 800 [] true bare_page)))
    <> "Hello" +:+ " " +:+ " " +:+ " " +:+ " world".
Proof.
  repeat split; try reflexivity. vm_compute. discriminate.
Qed.

(** A final slot that the recognizer delivers again with a later event
    is appended again. *)
Example redelivered_final_is_repeated :
  _fullTranscript (state_of (run_session cumulative_session (constructor 800 [] true bare_page)))
    = "Hello Hello world".
Proof. reflexivity. Qed.


(** ** Note mode *)

Lemma commands_fired_app (a b : list event) :
  commands_fired (a ++ b) = commands_fired a ++ commands_fired b.
Proof. apply omap_app. Qed.

Lemma transcripts_fired_app (a b : list event) :
  transcripts_fired (a ++ b) = transcripts_fired a ++ transcripts_fired b.
Proof. apply omap_app. Qed.

Lemma detections_fired_app (a b : list event) :
  detections_fired (a ++ b) = detections_fired a ++ detections_fired b.
Proof. apply omap_app. Qed.

Lemma detection_events_only (m t : option string) (full : string) :
  commands_fired (detection_events m t full) = [] /\
  transcripts_fired (detection_events m t full) = [].
Proof.
  unfold detection_events. destruct m, t; try done. by destruct (_ && _).
Qed.

Lemma final_text_truthy (e : result_event) :
  final_texts (results e) <> [] -> truthy (final_text e) = true.
Proof. intros H. apply join_truthy; [done | apply final_texts_truthy]. Qed.

(** The text of a final chunk starts with a visible character. *)
Lemma final_text_head (e : result_event) :
  final_texts (results e) <> [] ->
  exists a u, final_text e = String a u /\ is_space a = false.
Proof.
  intros Hne. unfold final_text.
  destruct (final_texts (results e)) as [|x l] eqn:E; [done|].
  assert (Hx : x ∈ final_texts (results e)) by (rewrite E; left).
  unfold final_texts in Hx.
  apply list_elem_of_In, filter_In in Hx as [Hin Ht].
  apply in_map_iff in Hin as (r & <- & _).
  pose proof (trim_head (default "" (transcript r))) as Hh.
  unfold slot_text in *. destruct (trim _) as [|a u]; [done|].
  destruct l; [by exists a, u|].
  rewrite join_cons by done. rewrite append_cons. eauto.
Qed.

(** The controller reached after the detection step of [_onResult]. *)
Lemma detect_after_transcript (e : result_event) (c : controller) :
  final_texts (results e) <> [] ->
  let c1 := set_fullTranscript (append_sp (_fullTranscript c) (final_text e)) c in
  exists c2 ev2,
    _detectMRNAndTemplate (final_text e) c1 = (tt, c2, ev2) /\
    c2 = set_detectedTemplate (next_template (final_text e) c1)
           (set_detectedMRN (next_MRN (final_text e) c1) c1) /\
    ev2 = detection_events (next_MRN (final_text e) c1) (next_template (final_text e) c1)
            (_fullTranscript c1).
Proof.
  intros Hne c1. rewrite detect_spec by by apply final_text_truthy. eauto.
Qed.

(** C2: in note mode a final utterance is dictation.  Without the word
    "create" it fires no command, is reported by one [onTranscript(text,
    true)] and is appended to the note buffer; with the word "create" it
    is reported the same way, note mode ends, the buffered note (which
    is not empty) is reported by a second [onTranscript], and
    [onCommand('stop_note', 'create')] is the only command fired. *)
Theorem note_mode_override (e : result_event) (c : controller) :
  _noteMode c = true ->
  final_texts (results e) <> [] ->
  let r := _onResult e c in
  let buffer := append_sp (_noteBuffer c) (final_text e) in
  if test re_create (toLowerCase (final_text e)) then
    _noteMode (state_of r) = false /\
    _noteBuffer (state_of r) = "" /\
    truthy (trim buffer) = true /\
    transcripts_fired (events_of r) = [(final_text e, true); (trim buffer, true)] /\
    commands_fired (events_of r) = [("stop_note", "create")]
  else
    _noteMode (state_of r) = true /\
    _noteBuffer (state_of r) = buffer /\
    transcripts_fired (events_of r) = [(final_text e, true)] /\
    commands_fired (events_of r) = [].
Proof.
  intros Hnote Hne r buffer. subst r.
  rewrite onResult_final_eq by done. unfold onResult_final.
  destruct (detect_after_transcript e c Hne) as (c2 & ev2 & -> & Hc2 & Hev2).
  assert (Hn2 : _noteMode c2 = true) by (subst c2; by destruct c).
  assert (Hb2 : _noteBuffer c2 = _noteBuffer c) by (subst c2; by destruct c).
  assert (commands_fired ev2 = [] /\ transcripts_fired ev2 = []) as [Hcmd Htr]
    by (subst ev2; apply detection_events_only).
  clear Hc2 Hev2.
  rewrite Hn2, Hb2. fold buffer.
  assert (Hvis : truthy (trim buffer) = true).
  { destruct (final_text_head e Hne) as (a & u & Hft & Ha).
    unfold buffer, append_sp. rewrite <- append_assoc.
    by apply (trim_append_visible _ _ a u). }
  destruct (test re_create (toLowerCase (final_text e))).
  - unfold _emitStopNote. unfold_method.
    destruct c2 as [? ? ? ? ? ? nm nb ? ? ? ?]. simpl in Hn2. subst nm.
    cbn -[trim]. rewrite Hvis. cbn -[trim].
    rewrite commands_fired_app, transcripts_fired_app, Hcmd, Htr. done.
  - destruct c2 as [? ? ? ? ? ? nm nb ? ? ? ?]. simpl in Hn2. subst nm.
    unfold state_of, events_of. cbn -[trim].
    rewrite commands_fired_app, transcripts_fired_app, Hcmd, Htr. done.
Qed.


Lemma note_mode_override_witness :
  (let r := _onResult (final_event "mute" 0) (note_controller "patient is stable") in
   _noteMode (state_of r) = true /\
   _noteBuffer (state_of r) = "patient is stable mute" /\
   transcripts_fired (events_of r) = [("mute", true)] /\
   commands_fired (events_of r) = []) /\
  (let r := _onResult (final_event "Create" 0) (note_controller "patient is stable") in
   _noteMode (state_of r) = false /\
   _noteBuffer (state_of r) = "" /\
   truthy "patient is stable Create" = true /\
   transcripts_fired (events_of r) = [("Create", true); ("patient is stable Create", true)] /\
   commands_fired (events_of r) = [("stop_note", "create")]).
Proof.
  split.
  - exact (note_mode_override (final_event "mute" 0) (note_controller "patient is stable")
             eq_refl ltac:(discriminate)).
  - exact (note_mode_override (final_event "Create" 0) (note_controller "patient is stable")
             eq_refl ltac:(discriminate)).
Defined.

(** ** Commands *)

(** C5: without override phrases, "unmute the microphone" is classified
    as [unmute] and "disconnect now" as [disconnect]; the rules for
    [disconnect] and [unmute] are tried before, and win over, the rules
    for [connect] and [mute]. *)
Theorem command_precedence (c : controller) :
  _customMap c = [] ->
  value_of (_parseCommand "unmute the microphone" c) = Some "unmute" /\
  value_of (_parseCommand "unmute the microphone" c) <> Some "mute" /\
  value_of (_parseCommand "disconnect now" c) = Some "disconnect" /\
  value_of (_parseCommand "disconnect now" c) <> Some "connect".
Proof.
  intros H. unfold _parseCommand. unfold_method.
  assert (E1 : trim (toLowerCase "unmute the microphone") = "unmute the microphone")
    by (vm_compute; reflexivity).
  assert (E2 : trim (toLowerCase "disconnect now") = "disconnect now")
    by (vm_compute; reflexivity).
  rewrite E1, E2. cbn -[test plain_command]. rewrite H.
  assert (T1 : test re_note "unmute the microphone" = false) by (vm_compute; reflexivity).
  assert (T2 : test re_create "unmute the microphone" = false) by (vm_compute; reflexivity).
  assert (T3 : test re_note "disconnect now" = false) by (vm_compute; reflexivity).
  assert (T4 : test re_create "disconnect now" = false) by (vm_compute; reflexivity).
  assert (P1 : plain_command "unmute the microphone" = Some "unmute")
    by (vm_compute; reflexivity).
  assert (P2 : plain_command "disconnect now" = Some "disconnect")
    by (vm_compute; reflexivity).
  cbn -[test plain_command]. rewrite T1, T2, T3, T4. cbn -[test plain_command].
  rewrite P1, P2. repeat split; congruence.
Qed.

Lemma command_precedence_witness :
  value_of (_parseCommand "unmute the microphone" (constructor 800 [] true bare_page))
    = Some "unmute" /\
  value_of (_parseCommand "disconnect now" (constructor 800 [] true bare_page)) = Some "disconnect".
Proof.
  destruct (command_precedence (constructor 800 [] true bare_page) eq_refl) as (H1 & _ & H2 & _).
  split; assumption.
Defined.

Ltac in_actions := apply list_elem_of_In; simpl; tauto.

Lemma actions_fired_app (a b : list event) :
  actions_fired (a ++ b) = actions_fired a ++ actions_fired b.
Proof. unfold actions_fired. by rewrite commands_fired_app, fmap_app. Qed.

Lemma plain_command_actions (text a : string) :
  plain_command text = Some a -> a ∈ command_actions.
Proof.
  unfold plain_command. intros H.
  repeat (case_match; [simplify_eq; in_actions|]). discriminate.
Qed.

Lemma custom_action_in (rules : list custom_rule) (text a : string) :
  custom_action rules text = Some a -> a ∈ map cr_action rules.
Proof.
  induction rules as [|r rules IH]; simpl; [discriminate|].
  destruct (cr_test r text); intros H.
  - simplify_eq. left.
  - right. by apply IH.
Qed.

Lemma emitStartNote_actions (c : controller) :
  Forall (fun a => a ∈ command_actions) (actions_fired (events_of (_emitStartNote c))).
Proof.
  unfold _emitStartNote. destruct c as [? ? ? ? ? ? nm ? ? ? ? ?], nm; unfold_method; cbn.
  - constructor.
  - repeat constructor.
Qed.

Lemma emitStopNote_actions (c : controller) :
  Forall (fun a => a ∈ command_actions) (actions_fired (events_of (_emitStopNote c))).
Proof.
  unfold _emitStopNote. destruct c as [? ? ? ? ? ? nm ? ? ? ? ?], nm; unfold_method;
    cbn -[trim].
  - destruct (truthy (trim _)); cbn; repeat constructor.
  - constructor.
Qed.

Lemma parseCommand_actions (s : string) (c : controller) :
  Forall (fun a => a ∈ command_actions) (actions_fired (events_of (_parseCommand s c))) /\
  forall a, value_of (_parseCommand s c) = Some a -> allowed_action c a.
Proof.
  unfold _parseCommand, allowed_action.
  destruct (negb (truthy (trim (toLowerCase s)))); [split; [constructor | discriminate]|].
  unfold_method. cbn -[trim toLowerCase test plain_command _emitStartNote _emitStopNote].
  destruct (custom_action _ _) as [x|] eqn:Ec.
  { split; [constructor|]. intros a [= <-]. right. by eapply custom_action_in. }
  destruct (test re_note _).
  { pose proof (emitStartNote_actions c) as H. unfold events_of in H.
    destruct (_emitStartNote c) as [[? ?] ev]. cbn. rewrite app_nil_r.
    split; [exact H|]. intros a [= <-]. left. in_actions. }
  destruct (test re_create _).
  { pose proof (emitStopNote_actions c) as H. unfold events_of in H.
    destruct (_emitStopNote c) as [[? ?] ev]. cbn. rewrite app_nil_r.
    split; [exact H|]. intros a [= <-]. left. in_actions. }
  cbn -[plain_command]. split; [constructor|].
  intros a H. left. by eapply plain_command_actions.
Qed.

Lemma detection_events_actions (m t : option string) (full : string) :
  actions_fired (detection_events m t full) = [].
Proof.
  unfold actions_fired. by rewrite (proj1 (detection_events_only m t full)).
Qed.

Lemma Forall_allowed (c : controller) (l : list string) :
  Forall (fun a => a ∈ command_actions) l -> Forall (allowed_action c) l.
Proof. intros H. eapply Forall_impl; [exact H|]. intros a Ha. by left. Qed.

Lemma onResult_actions (e : result_event) (c : controller) :
  Forall (allowed_action c) (actions_fired (events_of (_onResult e c))).
Proof.
  destruct (final_texts (results e)) as [|x l] eqn:E.
  { destruct (onResult_no_final e c E) as [-> | [li ->]]; cbn; constructor. }
  assert (Hne : final_texts (results e) <> []) by (rewrite E; discriminate).
  rewrite onResult_final_eq by done. unfold onResult_final.
  destruct (detect_after_transcript e c Hne) as (c2 & ev2 & -> & Hc2 & Hev2).
  assert (Hm : _customMap c2 = _customMap c) by (subst c2; by destruct c).
  assert (Ha2 : actions_fired ev2 = []) by (subst ev2; apply detection_events_actions).
  clear Hc2 Hev2.
  destruct (_noteMode c2).
  - destruct (test re_create _).
    + pose proof (emitStopNote_actions
                    (set_noteBuffer (append_sp (_noteBuffer c2) (final_text e)) c2)) as H.
      unfold events_of in *. destruct (_emitStopNote _) as [[[] c4] ev4].
      cbn -[actions_fired] in *.
      rewrite (actions_fired_app ev2 (_ :: ev4)), Ha2. by apply Forall_allowed.
    + unfold events_of. cbn -[actions_fired]. rewrite actions_fired_app, Ha2. constructor.
  - pose proof (parseCommand_actions (toLowerCase (final_text e)) c2) as [H1 H2].
    unfold events_of, value_of in *.
    destruct (_parseCommand _ c2) as [[a c3] ev3]. cbn -[actions_fired] in *.
    rewrite !actions_fired_app, Ha2, app_nil_l. apply Forall_app. split.
    + by apply Forall_allowed.
    + destruct a as [a|]; cbn; [|constructor].
      destruct (truthy a); cbn; constructor; [|constructor].
      specialize (H2 a eq_refl). unfold allowed_action in *. by rewrite <- Hm.
Qed.

(** Without override phrases the result handler only passes the eleven
    fixed actions. *)
Corollary onResult_actions_without_overrides (e : result_event) (c : controller) :
  _customMap c = [] ->
  Forall (fun a => a ∈ command_actions) (actions_fired (events_of (_onResult e c))).
Proof.
  intros Hc. eapply Forall_impl; [apply onResult_actions|].
  intros a [H|H]; [exact H|]. rewrite Hc in H. by apply elem_of_nil in H.
Qed.

(** C8 (amended): every action passed to [onCommand], by the result
    handler, by [stop()] or by [start()], is one of the eleven fixed
    actions or the action of an entry of [customMap]. *)
Theorem command_actions_closed (c : controller) (e : result_event) (rec_start : option string) :
  Forall (allowed_action c) (actions_fired (events_of (_onResult e c))) /\
  Forall (allowed_action c) (actions_fired (events_of (stop c))) /\
  Forall (allowed_action c) (actions_fired (events_of (start rec_start c))).
Proof.
  split; [apply onResult_actions|]. split.
  - unfold stop. unfold_method. destruct (negb (_rec c)); cbn; [constructor|].
    destruct (_noteMode c); cbn; [|constructor].
    pose proof (emitStopNote_actions (set_listening false c)) as H. unfold events_of in H.
    destruct (_emitStopNote _) as [[[] c4] ev4]. cbn -[actions_fired] in *.
    by apply Forall_allowed.
  - unfold start. unfold_method. destruct c as [? ? sr rc ls ? ? ? ? ? ? ?]. cbn.
    destruct sr, ls, rc, rec_start; cbn; constructor.
Qed.

(** C8 as stated fails: with the override rule above, the utterance
    "zoom please" makes [onCommand] receive the action "zoom_in", which
    is not one of the eleven fixed actions. *)
Lemma custom_action_escapes :
  commands_fired (events_of (_onResult (final_event "zoom please" 0)
                               (constructor 800 [zoom_rule] true bare_page)))
    = [("zoom_in", "zoom please")] /\
  "zoom_in" ∉ command_actions.
Proof.
  split; [reflexivity|]. intros H. apply list_elem_of_In in H. simpl in H.
  repeat (destruct H as [H|H]; [discriminate|]). exact H.
Qed.


(** ** MRN validation *)
Lemma test_class (k : cls) (s : string) :
  test (Pattern (Chr k) false) s = existsb_string (cls_match false k) s.
Proof.
  unfold test, exec. generalize (@None ascii) as prev.
  induction s as [|a s IH]; intros prev; [reflexivity|].
  simpl. unfold match_here. simpl.
  destruct (cls_match false k a); [reflexivity|]. simpl. apply IH.
Qed.

Lemma existsb_string_ext (p q : ascii -> bool) (s : string) :
  (forall a, p a = q a) -> existsb_string p s = existsb_string q s.
Proof. intros H. induction s as [|a s IH]; simpl; [done | by rewrite H, IH]. Qed.

Lemma test_has_upper (s : string) : test re_has_upper s = existsb_string is_upper s.
Proof.
  unfold re_has_upper. rewrite test_class. apply existsb_string_ext.
  intros a. unfold upperAZ, is_upper. simpl. apply orb_false_r.
Qed.

Lemma test_has_digit (s : string) : test re_has_digit s = existsb_string is_digit s.
Proof. unfold re_has_digit. by rewrite test_class. Qed.

Lemma existsb_string_impl (p q : ascii -> bool) (s : string) :
  (forall a, p a = true -> q a = true) ->
  existsb_string p s = true -> existsb_string q s = true.
Proof.
  intros Hpq. induction s as [|a s IH]; simpl; [done|].
  intros [H|H]%orb_true_iff; apply orb_true_iff; [left; by apply Hpq | right; by apply IH].
Qed.

Lemma existsb_string_truthy (p : ascii -> bool) (s : string) :
  existsb_string p s = true -> truthy s = true.
Proof. by destruct s. Qed.

Lemma detectMRN_loop_valid (ps : list pattern) (text mrn : string) :
  detectMRN_loop ps text = Some mrn -> mrn_valid mrn = true.
Proof.
  induction ps as [|p ps IH]; cbn -[mrn_candidate mrn_valid]; [discriminate|].
  destruct (mrn_candidate p text) as [v|]; [|exact IH].
  destruct (mrn_valid v) eqn:Ev; [|exact IH]. by intros [= <-].
Qed.

Lemma detectMRN_valid (text mrn : string) :
  _detectMRN text = Some mrn -> mrn_valid mrn = true.
Proof.
  unfold _detectMRN. destruct (truthy text); [apply detectMRN_loop_valid | discriminate].
Qed.

Lemma detectMRN_truthy (text mrn : string) :
  _detectMRN text = Some mrn -> truthy mrn = true.
Proof.
  intros H%detectMRN_valid. unfold mrn_valid in H.
  apply andb_true_iff in H as [H _]. rewrite test_has_upper in H.
  by eapply existsb_string_truthy.
Qed.

(** ** Combined detection *)
Lemma emitStopNote_detections (c : controller) :
  detections_fired (events_of (_emitStopNote c)) = [].
Proof.
  unfold _emitStopNote. destruct c as [? ? ? ? ? ? nm ? ? ? ? ?], nm; unfold_method;
    cbn -[trim]; [|done].
  by destruct (truthy (trim _)).
Qed.

Lemma emitStartNote_detections (c : controller) :
  detections_fired (events_of (_emitStartNote c)) = [].
Proof.
  unfold _emitStartNote. by destruct c as [? ? ? ? ? ? nm ? ? ? ? ?], nm.
Qed.

Lemma parseCommand_detections (s : string) (c : controller) :
  detections_fired (events_of (_parseCommand s c)) = [].
Proof.
  unfold _parseCommand.
  destruct (negb (truthy (trim (toLowerCase s)))); [done|].
  unfold_method. cbn -[trim toLowerCase test plain_command _emitStartNote _emitStopNote].
  destruct (custom_action _ _); [done|].
  destruct (test re_note _).
  - pose proof (emitStartNote_detections c) as H. unfold events_of in H.
    destruct (_emitStartNote c) as [[? ?] ?]. cbn. by rewrite app_nil_r.
  - destruct (test re_create _); [|done].
    pose proof (emitStopNote_detections c) as H. unfold events_of in H.
    destruct (_emitStopNote c) as [[? ?] ?]. cbn. by rewrite app_nil_r.
Qed.

(** The effect of one final chunk on the detection state and on the
    combined-detection callback. *)
Lemma onResult_detection (e : result_event) (c : controller) :
  final_texts (results e) <> [] ->
  let r := _onResult e c in
  let c1 := set_fullTranscript (append_sp (_fullTranscript c) (final_text e)) c in
  _detectedMRN (state_of r) = next_MRN (final_text e) c1 /\
  _detectedTemplate (state_of r) = next_template (final_text e) c1 /\
  _availableTemplates (state_of r) = _availableTemplates c /\
  _fullTranscript (state_of r) = _fullTranscript c1 /\
  detections_fired (events_of r) =
    detections_fired
      (detection_events (next_MRN (final_text e) c1) (next_template (final_text e) c1)
         (_fullTranscript c1)).
Proof.
  intros Hne r c1. subst r.
  rewrite onResult_final_eq by done. unfold onResult_final. fold c1.
  destruct (detect_after_transcript e c Hne) as (c2 & ev2 & Hd & Hc2 & Hev2).
  fold c1 in Hd, Hc2, Hev2. rewrite Hd.
  assert (H2 : _detectedMRN c2 = next_MRN (final_text e) c1 /\
               _detectedTemplate c2 = next_template (final_text e) c1 /\
               _availableTemplates c2 = _availableTemplates c /\
               _fullTranscript c2 = _fullTranscript c1).
  { subst c2. unfold c1. by destruct c. }
  rewrite <- Hev2. clear Hc2 Hev2 Hd.
  destruct H2 as (<- & <- & <- & <-).
  destruct (_noteMode c2).
  - destruct (test re_create _).
    + pose proof (emitStopNote_frame
                    (set_noteBuffer (append_sp (_noteBuffer c2) (final_text e)) c2)) as F.
      pose proof (emitStopNote_detections
                    (set_noteBuffer (append_sp (_noteBuffer c2) (final_text e)) c2)) as D.
      unfold state_of, events_of in *. destruct (_emitStopNote _) as [[[] c4] ev4].
      cbn -[detections_fired] in *. destruct F as (-> & _ & -> & -> & ->).
      rewrite (detections_fired_app ev2 (_ :: ev4)).
      change (detections_fired (OnTranscript (final_text e) true :: ev4))
        with (detections_fired ev4).
      rewrite D, app_nil_r. by destruct c2.
    + unfold state_of, events_of. cbn -[detections_fired].
      rewrite detections_fired_app. cbn. rewrite app_nil_r. by destruct c2.
  - pose proof (parseCommand_frame (toLowerCase (final_text e)) c2) as F.
    pose proof (parseCommand_detections (toLowerCase (final_text e)) c2) as D.
    unfold state_of, events_of in *. destruct (_parseCommand _ c2) as [[a c3] ev3].
    cbn -[detections_fired] in *. destruct F as (-> & _ & -> & -> & ->).
    rewrite !detections_fired_app, D.
    assert (detections_fired
              [if truthy_opt a then OnCommand (default "" a) (final_text e)
               else OnTranscript (final_text e) true] = []) as -> by by destruct (truthy_opt a).
    by rewrite !app_nil_r.
Qed.

(** C3: from a state in which no MRN and no template is stored, a final
    utterance in which only an MRN is detected fires no combined event;
    a following final utterance in which only a template is detected
    fires exactly one, which carries the stored MRN, the new template
    and the transcript accumulated so far. *)
Theorem combined_detection_trigger (c : controller) (e1 e2 : result_event) (m t : string) :
  _detectedMRN c = None ->
  _detectedTemplate c = None ->
  final_texts (results e1) <> [] ->
  final_texts (results e2) <> [] ->
  _detectMRN (final_text e1) = Some m ->
  _detectTemplate (_availableTemplates c) (final_text e1) = None ->
  _detectMRN (final_text e2) = None ->
  _detectTemplate (_availableTemplates c) (final_text e2) = Some t ->
  t <> "" ->
  let r1 := _onResult e1 c in
  let r2 := _onResult e2 (state_of r1) in
  detections_fired (events_of r1) = [] /\
  detections_fired (events_of r2) = [(m, t, _fullTranscript (state_of r2))].
Proof.
  intros Hm0 Ht0 Hne1 Hne2 Hm1 Ht1 Hm2 Ht2 Ht r1 r2.
  pose proof (detectMRN_truthy _ _ Hm1) as Hmt.
  assert (Htt : truthy t = true) by by destruct t.
  destruct (onResult_detection e1 c Hne1) as (Sm & St & Sa & _ & Ev1).
  fold r1 in Sm, St, Sa, Ev1.
  unfold next_MRN, next_template in Sm, St, Ev1.
  cbn [set_fullTranscript _detectedMRN _detectedTemplate _availableTemplates] in Sm, St, Ev1.
  rewrite Hm1, Hm0 in Sm, Ev1. rewrite Ht1, Ht0 in St, Ev1.
  rewrite Hmt in Sm, Ev1. cbn in Sm, Ev1.
  split; [exact Ev1|].
  destruct (onResult_detection e2 (state_of r1) Hne2) as (_ & _ & _ & Sf & Ev2).
  fold r2 in Sf, Ev2. rewrite Sf, Ev2.
  unfold next_MRN, next_template.
  set (c1 := set_fullTranscript _ (state_of r1)).
  assert (E : _detectedMRN c1 = Some m /\ _detectedTemplate c1 = None /\
              _availableTemplates c1 = _availableTemplates c).
  { unfold c1. by rewrite <- Sm, <- St, <- Sa. }
  destruct E as (-> & -> & ->). rewrite Hm2, Ht2, Htt. cbn. by rewrite Hmt, Htt.
Qed.

Lemma combined_detection_trigger_witness :
  let r1 := _onResult (final_event "patient MRN AB123" 0) soap_controller in
  let r2 := _onResult (final_event "please use the soap note" 5000) (state_of r1) in
  detections_fired (events_of r1) = [] /\
  detections_fired (events_of r2)
    = [("AB123", "SOAP Note", "patient MRN AB123 please use the soap note")].
Proof.
  exact (combined_detection_trigger soap_controller
           (final_event "patient MRN AB123" 0) (final_event "please use the soap note" 5000)
           "AB123" "SOAP Note"
           eq_refl eq_refl ltac:(discriminate) ltac:(discriminate)
           eq_refl eq_refl eq_refl eq_refl ltac:(discriminate)).
Defined.


(** ** Patterns that must begin with a character of a given kind *)

Lemma rmatch_begins {A : Type} (icase : bool) (P : ascii -> bool) (r : regex) :
  begins_with icase P r ->
  forall prev s cap (k : @cont A),
    head_avoids P s -> rmatch icase r prev s cap k = None.
Proof.
  induction r as [| k | | | | r1 IH1 r2 IH2 | r1 IH1 r2 IH2 | r1 IH1 | min k | r1 IH1];
    simpl; intros Hb prev s cap kk Hs; try contradiction.
  - destruct s as [|a s]; [reflexivity|]. simpl in Hs.
    destruct (cls_match icase k a) eqn:E; [|reflexivity].
    apply Hb in E. congruence.
  - destruct r1; simpl in Hb; try contradiction; try (by apply IH1).
    + simpl. destruct (xorb _ _); [by apply IH2 | reflexivity].
    + simpl. destruct prev; [reflexivity | by apply IH2].
  - destruct Hb as [H1 H2]. by rewrite IH1, IH2.
  - destruct min as [|n]; [contradiction|].
    destruct s as [|a s]; [reflexivity|]. simpl in *.
    destruct (cls_match icase k a) eqn:E; [|reflexivity].
    apply Hb in E. congruence.
  - by apply IH1.
Qed.




Ltac by_cases_on_char :=
  let a := fresh "a" in
  intros a; destruct a as [[] [] [] [] [] [] [] []]; vm_compute; intros; congruence.





(** ** The digits-only branch of MRN detection *)
Lemma forallb_string_impl (p q : ascii -> bool) (s : string) :
  (forall a, p a = true -> q a = true) ->
  forallb_string p s = true -> forallb_string q s = true.
Proof.
  intros Hpq. induction s as [|a s IH]; simpl; [done|].
  intros [H1 H2]%andb_true_iff. apply andb_true_iff. split; [by apply Hpq | by apply IH].
Qed.

Lemma digit_facts (a : ascii) :
  is_digit a = true ->
  negb (is_space a) = true /\ negb (Ascii.eqb "-" a) = true /\ upper_char a = a /\
  is_upper a = false.
Proof.
  destruct a as [[] [] [] [] [] [] [] []]; vm_compute; intros; repeat split; congruence.
Qed.

Lemma toUpperCase_digits (g : string) :
  forallb_string is_digit g = true -> toUpperCase g = g.
Proof.
  unfold toUpperCase. induction g as [|a g IH]; simpl; [done|].
  intros [Ha Hg]%andb_true_iff. apply digit_facts in Ha as (_ & _ & Hu & _).
  by rewrite Hu, IH.
Qed.



Lemma existsb_string_app (p : ascii -> bool) (s t : string) :
  existsb_string p (s +:+ t) = existsb_string p s || existsb_string p t.
Proof.
  induction s as [|a s IH]; sapp; simpl; [done|]. by rewrite IH, orb_assoc.
Qed.





(** ** Substrings *)
Lemma starts_with_spec (p s : string) :
  starts_with p s = true <-> exists b, s = p +:+ b.
Proof.
  revert s. induction p as [|x p IH]; intros s.
  - simpl. split; [intros _; by exists s | done].
  - destruct s as [|y s]; simpl.
    + split; [done | intros [b Hb]; sapp; discriminate].
    + rewrite andb_true_iff, IH. split.
      * intros [Hxy [b ->]]. apply Ascii.eqb_eq in Hxy as ->. by exists b.
      * intros [b Hb]. rewrite append_cons in Hb. injection Hb as -> ->.
        split; [apply Ascii.eqb_refl | by exists b].
Qed.

Lemma includes_spec (s p : string) :
  includes s p = true <-> exists a b, s = a +:+ p +:+ b.
Proof.
  induction s as [|x s IH].
  - simpl. rewrite orb_false_r, starts_with_spec. split.
    + intros [b Hb]. by exists "", b.
    + intros (a & b & H). destruct a; [by exists b | sapp; discriminate].
  - cbn [includes]. rewrite orb_true_iff, IH, starts_with_spec. split.
    + intros [[b Hb] | (a & b & ->)]; [by exists "", b | by exists (String x a), b].
    + intros (a & b & H). destruct a as [|y a]; [left; by exists b|].
      right. rewrite append_cons in H. injection H as -> ->. by exists a, b.
Qed.

Lemma includes_trans (s p q : string) :
  includes s p = true -> includes p q = true -> includes s q = true.
Proof.
  rewrite !includes_spec. intros (a & b & ->) (a' & b' & ->).
  exists (a +:+ a'), (b' +:+ b). by rewrite !append_assoc.
Qed.

Lemma includes_app_l (s p q : string) :
  includes s (p +:+ q) = true -> includes s p = true.
Proof.
  rewrite !includes_spec. intros (a & b & ->). exists a, (q +:+ b). by rewrite !append_assoc.
Qed.

Lemma includes_app_r (s p q : string) :
  includes s (p +:+ q) = true -> includes s q = true.
Proof.
  rewrite !includes_spec. intros (a & b & ->). exists (a +:+ p), b. by rewrite !append_assoc.
Qed.

(** Each piece of a split is a substring of the text that was split. *)
Lemma split_ws_from_substring (s cur w : string) (skipping : bool) :
  w ∈ split_ws_from cur skipping s -> exists a b, cur +:+ s = a +:+ w +:+ b.
Proof.
  revert cur skipping. induction s as [|c s IH]; intros cur skipping; simpl.
  - intros ->%list_elem_of_singleton. exists "", "". by rewrite append_empty_r.
  - destruct (is_space c).
    + assert (Hrec : w ∈ split_ws_from "" true s ->
                     exists a b, cur +:+ String c s = a +:+ w +:+ b).
      { intros (a & b & H)%IH. rewrite append_nil in H. subst s.
        exists (cur +:+ String c a), b. by rewrite append_assoc, append_cons. }
      destruct skipping; [exact Hrec|].
      intros [-> | H]%elem_of_cons; [by exists "", (String c s) | by apply Hrec].
    + intros (a & b & H)%IH. exists a, b. rewrite <- H.
      by rewrite append_assoc, append_cons, append_nil.
Qed.

Lemma templateWords_substring (tpl w : string) :
  w ∈ templateWords tpl -> includes tpl w = true.
Proof.
  unfold templateWords, split_ws. intros [_ H]%list_elem_of_filter.
  apply split_ws_from_substring in H. rewrite append_nil in H. by apply includes_spec.
Qed.

Lemma matchedWords_hit (text w : string) (words : list string) :
  includes text w = true -> matchedWords text (w :: words) = w :: matchedWords text words.
Proof.
  intros H. unfold matchedWords. apply filter_cons_True. by apply Is_true_true.
Qed.

Lemma matchedWords_miss (text w : string) (words : list string) :
  includes text w = false -> matchedWords text (w :: words) = matchedWords text words.
Proof.
  intros H. unfold matchedWords. apply filter_cons_False. by apply Is_true_false.
Qed.

Lemma matchedWords_all (text : string) (words : list string) :
  Forall (fun w => includes text w = true) words -> matchedWords text words = words.
Proof.
  induction 1 as [|w words Hw _ IH]; [done|]. by rewrite matchedWords_hit, IH.
Qed.

(** ** Template detection *)
Lemma consultation_words :
  templateWords (normalize (toLowerCase "Consultation Note Form")) = ["consultation"].
Proof. vm_compute. reflexivity. Qed.

Lemma consultation_detected (text : string) :
  text <> "" ->
  includes (normalize (toLowerCase text)) "consultation" = true ->
  _detectTemplate ["Consultation Note Form"] text = Some "Consultation Note Form".
Proof.
  intros Hne Hinc. unfold _detectTemplate.
  assert (truthy text = true) as -> by by destruct text.
  cbn -[template_matches normalize toLowerCase].
  unfold template_matches. rewrite consultation_words.
  destruct (includes _ (normalize _)); [done|].
  by rewrite matchedWords_hit.
Qed.

Lemma two_of_three (text w0 w1 w2 : string) :
  includes text w0 = true ->
  includes text w1 = true \/ includes text w2 = true ->
  length (matchedWords text [w0; w1; w2]) <> 1.
Proof.
  intros H0 H. rewrite matchedWords_hit by done.
  destruct (includes text w1) eqn:E1.
  - rewrite matchedWords_hit by done. simpl. lia.
  - rewrite matchedWords_miss by done.
    destruct H as [H|H]; [done|].
    rewrite matchedWords_hit by done. simpl. lia.
Qed.

(** A template with three significant words is not detected in a text
    that holds exactly one of them. *)
Lemma one_of_three_rejected (template text : string) :
  length (templateWords (normalize (toLowerCase template))) = 3 ->
  length (matchedWords (normalize (toLowerCase text))
            (templateWords (normalize (toLowerCase template)))) = 1 ->
  _detectTemplate [template] text = None.
Proof.
  intros H3 H1. unfold _detectTemplate. destruct (truthy text); [|done].
  cbn -[template_matches normalize toLowerCase]. unfold template_matches.
  set (nt := normalize (toLowerCase text)) in *.
  set (ntpl := normalize (toLowerCase template)) in *.
  destruct (includes nt ntpl) eqn:Ei.
  { exfalso. rewrite matchedWords_all in H1 by
      (apply Forall_forall; intros w Hw; eapply includes_trans;
       [exact Ei | by apply templateWords_substring]).
    lia. }
  pose proof (templateWords_substring ntpl) as Hsub.
  destruct (templateWords ntpl) as [|w0 [|w1 [|w2 [|? ?]]]]; try discriminate.
  rewrite H1. cbn -[includes String.length].
  unfold phrase_hit.
  destruct (includes nt (w0 +:+ " " +:+ w2)) eqn:E1.
  { exfalso. apply (two_of_three nt w0 w1 w2); [|right|done].
    - by eapply includes_app_l.
    - eapply includes_app_r, includes_app_r. exact E1. }
  destruct (includes nt (w0 +:+ " " +:+ w1)) eqn:E2.
  { exfalso. apply (two_of_three nt w0 w1 w2); [|left|done].
    - by eapply includes_app_l.
    - eapply includes_app_r, includes_app_r. exact E2. }
  by rewrite !andb_false_r.
Qed.

(** C6: the significant words of "Consultation Note Form" are exactly
    ["consultation"], and that template is detected in every utterance
    whose normalized text contains "consultation", whether or not it
    contains "note" or "form"; a template with three significant words
    is not detected in an utterance that contains exactly one of them. *)
Theorem template_fuzzy_threshold :
  templateWords (normalize (toLowerCase "Consultation Note Form")) = ["consultation"] /\
  ratio_ok 1 1 = true /\
  ratio_ok 1 3 = false /\
  (forall text, text <> "" ->
     includes (normalize (toLowerCase text)) "consultation" = true ->
     _detectTemplate ["Consultation Note Form"] text = Some "Consultation Note Form") /\
  (forall template text,
     length (templateWords (normalize (toLowerCase template))) = 3 ->
     length (matchedWords (normalize (toLowerCase text))
               (templateWords (normalize (toLowerCase template)))) = 1 ->
     _detectTemplate [template] text = None).
Proof.
  split; [exact consultation_words|]. split; [reflexivity|]. split; [reflexivity|].
  split; [exact consultation_detected | exact one_of_three_rejected].
Qed.

Lemma template_fuzzy_threshold_witness :
  (includes (normalize (toLowerCase "I need a consultation today")) "note" = false /\
   includes (normalize (toLowerCase "I need a consultation today")) "form" = false /\
   _detectTemplate ["Consultation Note Form"] "I need a consultation today"
     = Some "Consultation Note Form") /\
  (templateWords (normalize (toLowerCase "Hospital Followup Visit"))
     = ["hospital"; "followup"; "visit"] /\
   matchedWords (normalize (toLowerCase "take me to the hospital"))
     ["hospital"; "followup"; "visit"] = ["hospital"] /\
   _detectTemplate ["Hospital Followup Visit"] "take me to the hospital" = None).
Proof.
  destruct template_fuzzy_threshold as (_ & _ & _ & H1 & H2).
  split.
  - split; [reflexivity|]. split; [reflexivity|].
    exact (H1 "I need a consultation today" ltac:(discriminate) eq_refl).
  - split; [reflexivity|]. split; [reflexivity|].
    exact (H2 "Hospital Followup Visit" "take me to the hospital" eq_refl eq_refl).
Defined.


(** ** Session store *)

Section StoreFacts.
Variable accepts : gmap string string -> string -> string -> bool.
Variable stringify : json -> string.
Variable parse : string -> option json.

Lemma setItem_Some (ls ls' : gmap string string) (key v : string) :
  setItem accepts ls key v = Some ls' -> accepts ls key v = true /\ ls' = <[key := v]> ls.
Proof. unfold setItem. destruct (accepts ls key v); naive_solver. Qed.

Lemma setItem_accepted (ls : gmap string string) (key v : string) :
  accepts ls key v = true -> setItem accepts ls key v = Some (<[key := v]> ls).
Proof. unfold setItem. by intros ->. Qed.

Lemma setItem_refused (ls : gmap string string) (key v : string) :
  accepts ls key v = false -> setItem accepts ls key v = None.
Proof. unfold setItem. by intros ->. Qed.

Lemma saveSessionData_other (now : Z) (data : gmap string jsval) (ls : gmap string string)
    (key : string) :
  key <> SESSION_DATA ->
  getItem (saveSessionData accepts stringify parse now data ls) key = getItem ls key.
Proof.
  intros H. unfold saveSessionData, setItem, getItem.
  destruct (accepts _ _ _); [|done]. by rewrite lookup_insert_ne.
Qed.

Lemma updateSessionData_other (now : Z) (data : gmap string jsval) (ls : gmap string string)
    (key : string) :
  key <> SESSION_DATA ->
  getItem (_updateSessionData accepts stringify parse now data ls) key = getItem ls key.
Proof. intros H. unfold _updateSessionData. by apply saveSessionData_other. Qed.

Lemma get_or_null_set (ls : gmap string string) (key v : string) :
  v <> "" -> get_or_null (<[key := v]> ls) key = Some v.
Proof.
  intros Hv. unfold get_or_null, getItem. rewrite lookup_insert_eq.
  by destruct v.
Qed.

Lemma get_or_null_set_ne (ls : gmap string string) (key key' v : string) :
  key <> key' -> get_or_null (<[key := v]> ls) key' = get_or_null ls key'.
Proof.
  intros H. unfold get_or_null, getItem. by rewrite lookup_insert_ne.
Qed.

Lemma get_or_null_update (now : Z) (data : gmap string jsval) (ls : gmap string string)
    (key : string) :
  key <> SESSION_DATA ->
  get_or_null (_updateSessionData accepts stringify parse now data ls) key = get_or_null ls key.
Proof.
  intros H. unfold get_or_null. by rewrite updateSessionData_other.
Qed.

Lemma save_shape_same_key (key field : string) (now : Z) (v : string)
    (ls : gmap string string) :
  key <> SESSION_DATA -> v <> "" -> accepts ls key v = true ->
  get_or_null (save_shape accepts stringify parse key field now v ls) key = Some v.
Proof.
  intros Hk Hv Ha. unfold save_shape. rewrite (truthy_nonempty v Hv). cbn [negb].
  rewrite (setItem_accepted _ _ _ Ha), get_or_null_update by done.
  by apply get_or_null_set.
Qed.

Lemma save_shape_other_key (key field : string) (now : Z) (v : string)
    (ls : gmap string string) (key' : string) :
  key <> key' -> key' <> SESSION_DATA ->
  get_or_null (save_shape accepts stringify parse key field now v ls) key' = get_or_null ls key'.
Proof.
  intros Hk Hk'. unfold save_shape. destruct (negb (truthy v)); [done|].
  unfold setItem. destruct (accepts ls key v); [|done].
  rewrite get_or_null_update by done. by apply get_or_null_set_ne.
Qed.

Lemma save_shape_refused (key field : string) (now : Z) (v : string)
    (ls : gmap string string) :
  accepts ls key v = false -> save_shape accepts stringify parse key field now v ls = ls.
Proof.
  intros Ha. unfold save_shape. destruct (negb (truthy v)); [done|].
  by rewrite (setItem_refused _ _ _ Ha).
Qed.

Lemma clear_shape_other_key (key field : string) (ls : gmap string string) (key' : string) :
  key' <> SESSION_DATA ->
  get_or_null (clear_shape accepts stringify parse key field ls) key'
    = get_or_null (removeItem ls key) key'.
Proof.
  intros Hk. unfold clear_shape.
  destruct (getSessionData parse _); try done; unfold setItem;
    destruct (accepts _ _ _); try done; by rewrite get_or_null_set_ne.
Qed.

Lemma get_or_null_remove (ls : gmap string string) (key : string) :
  get_or_null (removeItem ls key) key = None.
Proof. unfold get_or_null, getItem, removeItem. by rewrite lookup_delete_eq. Qed.

Lemma get_or_null_remove_ne (ls : gmap string string) (key key' : string) :
  key <> key' -> get_or_null (removeItem ls key) key' = get_or_null ls key'.
Proof. intros H. unfold get_or_null, getItem, removeItem. by rewrite lookup_delete_ne. Qed.

Lemma getMRN_clearAll (ls : gmap string string) : getMRN (clearAll ls) = None.
Proof.
  unfold getMRN, get_or_null, clearAll, storage_keys, getItem, removeItem. cbn [foldl].
  rewrite !lookup_delete_ne by done. by rewrite lookup_delete_eq.
Qed.

End StoreFacts.

(** C9 (amended): for a non-empty [m], if the store takes the write of [m],
    [getMRN()] returns [m] after [saveMRN(m)], also when a template or a
    transcript is saved in between; if the store refuses the write,
    [saveMRN(m)] changes nothing; after [clearAll()], [getMRN()] returns
    [null] in either case. *)
Theorem mrn_round_trip (accepts : gmap string string -> string -> string -> bool)
    (stringify : json -> string) (parse : string -> option json) (now now' : Z)
    (m other : string) (ls : gmap string string) :
  m <> "" ->
  (accepts ls CURRENT_MRN m = true ->
   getMRN (saveMRN accepts stringify parse now m ls) = Some m /\
   getMRN (saveTemplate accepts stringify parse now' other
             (saveMRN accepts stringify parse now m ls)) = Some m /\
   getMRN (saveTranscript accepts stringify parse now' other
             (saveMRN accepts stringify parse now m ls)) = Some m) /\
  (accepts ls CURRENT_MRN m = false -> saveMRN accepts stringify parse now m ls = ls) /\
  getMRN (clearAll (saveMRN accepts stringify parse now m ls)) = None.
Proof.
  intros Hm. split; [|split].
  - intros Ha.
    change (saveTemplate accepts stringify parse now' other)
      with (save_shape accepts stringify parse CURRENT_TEMPLATE "template" now' other).
    change (saveTranscript accepts stringify parse now' other)
      with (save_shape accepts stringify parse CURRENT_TRANSCRIPT "transcript" now' other).
    change (saveMRN accepts stringify parse now m)
      with (save_shape accepts stringify parse CURRENT_MRN "mrn" now m).
    unfold getMRN.
    rewrite (save_shape_other_key _ _ _ CURRENT_TEMPLATE) by done.
    rewrite (save_shape_other_key _ _ _ CURRENT_TRANSCRIPT) by done.
    by rewrite save_shape_same_key.
  - apply (save_shape_refused accepts stringify parse CURRENT_MRN "mrn").
  - apply getMRN_clearAll.
Qed.

Lemma mrn_round_trip_witness :
  getMRN (saveMRN (room_for 10) sample_stringify sample_parse 1000 "AB123" ∅) = Some "AB123" /\
  getMRN (clearAll (saveMRN (room_for 10) sample_stringify sample_parse 1000 "AB123" ∅)) = None.
Proof.
  destruct (mrn_round_trip (room_for 10) sample_stringify sample_parse 1000 2000
              "AB123" "SOAP Note" ∅ ltac:(discriminate)) as (H1 & _ & H2).
  split; [exact (proj1 (H1 eq_refl)) | exact H2].
Defined.

(** The round trip as the claim states it, for every store, fails: a
    store whose quota is exhausted refuses the write, [saveMRN] catches
    the exception and [getMRN()] returns [null]. *)
Lemma mrn_round_trip_needs_room :
  getMRN (saveMRN exhausted sample_stringify sample_parse 1000 "AB123" ∅) = None /\
  ~ (forall accepts stringify parse now m ls,
       m <> "" -> getMRN (saveMRN accepts stringify parse now m ls) = Some m).
Proof.
  split; [reflexivity|]. intros H.
  by specialize (H exhausted sample_stringify sample_parse 1000%Z "AB123" ∅
                   ltac:(discriminate)).
Qed.

(** * Further properties *)

(** ** Interim results *)
Lemma scan_results_interim (rs : list slot) (acc : list string) (li : string) :
  (scan_results rs acc li).2 =
    match last rs with
    | Some res => if truthy (slot_text res) && negb (isFinal res) then slot_text res else li
    | None => li
    end.
Proof.
  revert acc li. induction rs as [|r rs IH]; intros acc li; [reflexivity|].
  cbn -[slot_text last].
  destruct rs as [|r' rs].
  - cbn -[slot_text]. destruct (truthy (slot_text r)); cbn -[slot_text]; [|reflexivity].
    destruct (isFinal r); reflexivity.
  - rewrite last_cons_cons.
    destruct (truthy (slot_text r)); cbn -[slot_text last scan_results]; [|apply IH].
    destruct (isFinal r); apply IH.
Qed.

Lemma latest_interim_scan (rs : list slot) :
  (scan_results rs [] "").2 = latest_interim rs.
Proof.
  rewrite scan_results_interim. unfold latest_interim.
  destruct (last rs) as [res|]; [|reflexivity].
  destruct (isFinal res); [by rewrite andb_false_r|].
  rewrite andb_true_r. by destruct (slot_text res).
Qed.

Lemma onResult_interim_only (e : result_event) (c : controller) :
  final_texts (results e) = [] ->
  _onResult e c =
    if truthy (latest_interim (results e))
       && bool_decide (partialThrottleMs c ≤ now e - _lastPartialAt c)%Z
    then (tt, set_lastPartialAt (now e) c, [OnTranscript (latest_interim (results e)) false])
    else (tt, c, []).
Proof.
  intros Hnil. unfold _onResult.
  pose proof (scan_results_finals (results e) [] "") as Hs.
  pose proof (latest_interim_scan (results e)) as Hi.
  destruct (scan_results (results e) [] "") as [fs li]. simpl in Hs, Hi. subst fs li.
  rewrite Hnil. rewrite bool_decide_eq_true_2 by done. rewrite andb_true_r.
  destruct (truthy (latest_interim (results e))); [|reflexivity].
  unfold_method. cbn. by destruct (bool_decide _).
Qed.

(** X1: An event that carries no final text changes nothing but the throttle
    clock: it reports the text of the last slot, if that slot is neither
    final nor blank, by one [onTranscript(text, false)] when at least
    [partialThrottleMs] have passed since the last interim report, and
    fires nothing otherwise. *)
Theorem interim_only_event (e : result_event) (c : controller) :
  final_texts (results e) = [] ->
  _onResult e c =
    if truthy (latest_interim (results e))
       && bool_decide (partialThrottleMs c ≤ now e - _lastPartialAt c)%Z
    then (tt, set_lastPartialAt (now e) c, [OnTranscript (latest_interim (results e)) false])
    else (tt, c, []).
Proof. exact (onResult_interim_only e c). Qed.

Lemma interim_only_event_witness :
  _onResult (ResultEvent [Slot (Some "mute") false; Slot (Some " pat ") false] 1000)
    (constructor 800 [] true bare_page)
    = (tt, set_lastPartialAt 1000 (constructor 800 [] true bare_page), [OnTranscript "pat" false]).
Proof.
  exact (interim_only_event
           (ResultEvent [Slot (Some "mute") false; Slot (Some " pat ") false] 1000)
           (constructor 800 [] true bare_page) eq_refl).
Defined.


(** ** Interim throttling *)
(** X2: After an interim text has been reported at time [now e1], the next
    interim-only event is reported exactly when at least
    [partialThrottleMs] have passed; it is dropped otherwise. *)
Theorem interim_throttling (c : controller) (e1 e2 : result_event) :
  final_texts (results e1) = [] ->
  final_texts (results e2) = [] ->
  latest_interim (results e1) <> "" ->
  latest_interim (results e2) <> "" ->
  (partialThrottleMs c ≤ now e1 - _lastPartialAt c)%Z ->
  let r1 := _onResult e1 c in
  let r2 := _onResult e2 (state_of r1) in
  events_of r1 = [OnTranscript (latest_interim (results e1)) false] /\
  events_of r2 =
    if bool_decide (partialThrottleMs c ≤ now e2 - now e1)%Z
    then [OnTranscript (latest_interim (results e2)) false]
    else [].
Proof.
  intros H1 H2 L1 L2 Ht r1 r2. subst r1 r2.
  rewrite (onResult_interim_only e1 c H1).
  rewrite (truthy_nonempty _ L1).
  rewrite (bool_decide_eq_true_2 _ Ht). cbn [andb state_of events_of fst snd].
  split; [reflexivity|].
  rewrite (onResult_interim_only e2 _ H2).
  rewrite (truthy_nonempty _ L2).
  cbn [andb]. destruct c; cbn. by destruct (bool_decide _).
Qed.

Lemma interim_throttling_witness :
  let c := constructor 800 [] true bare_page in
  let r1 := _onResult (interim_event "pat" 1000) c in
  (events_of r1 = [OnTranscript "pat" false] /\
   events_of (_onResult (interim_event "patient" 1500) (state_of r1)) = []) /\
  (events_of r1 = [OnTranscript "pat" false] /\
   events_of (_onResult (interim_event "patient has" 1800) (state_of r1))
     = [OnTranscript "patient has" false]).
Proof.
  split.
  - exact (interim_throttling (constructor 800 [] true bare_page)
             (interim_event "pat" 1000) (interim_event "patient" 1500)
             eq_refl eq_refl ltac:(discriminate) ltac:(discriminate)
             ltac:(vm_compute; discriminate)).
  - exact (interim_throttling (constructor 800 [] true bare_page)
             (interim_event "pat" 1000) (interim_event "patient has" 1800)
             eq_refl eq_refl ltac:(discriminate) ltac:(discriminate)
             ltac:(vm_compute; discriminate)).
Defined.

(** ** What the steps of the result handler leave alone *)
Lemma same_setup_refl (c : controller) : same_setup c c.
Proof. by repeat split. Qed.

Lemma same_setup_trans (c1 c2 c3 : controller) :
  same_setup c1 c2 -> same_setup c2 c3 -> same_setup c1 c3.
Proof.
  unfold same_setup. intros (?&?&?&?&?&?) (?&?&?&?&?&?). repeat split; congruence.
Qed.

Lemma emitStopNote_setup (c : controller) :
  same_setup c (state_of (_emitStopNote c)) /\
  _lastPartialAt (state_of (_emitStopNote c)) = _lastPartialAt c /\
  Forall (fun p => p.2 = true) (transcripts_fired (events_of (_emitStopNote c))).
Proof.
  unfold _emitStopNote, same_setup. destruct c as [? ? ? ? ? ? nm ? ? ? ? ?], nm; unfold_method;
    cbn -[trim]; [|by repeat split].
  destruct (truthy (trim _)); cbn -[trim]; repeat split; repeat constructor.
Qed.

Lemma emitStartNote_setup (c : controller) :
  same_setup c (state_of (_emitStartNote c)) /\
  _lastPartialAt (state_of (_emitStartNote c)) = _lastPartialAt c /\
  transcripts_fired (events_of (_emitStartNote c)) = [].
Proof.
  unfold _emitStartNote, same_setup. by destruct c as [? ? ? ? ? ? nm ? ? ? ? ?], nm.
Qed.

Lemma parseCommand_setup (s : string) (c : controller) :
  same_setup c (state_of (_parseCommand s c)) /\
  _lastPartialAt (state_of (_parseCommand s c)) = _lastPartialAt c /\
  Forall (fun p => p.2 = true) (transcripts_fired (events_of (_parseCommand s c))).
Proof.
  unfold _parseCommand.
  destruct (negb (truthy (trim (toLowerCase s)))).
  { split; [apply same_setup_refl|]. split; [done | constructor]. }
  unfold_method. cbn -[trim toLowerCase test plain_command _emitStartNote _emitStopNote].
  destruct (custom_action _ _).
  { split; [apply same_setup_refl|]. split; [done | constructor]. }
  destruct (test re_note _).
  - pose proof (emitStartNote_setup c) as (H1 & H2 & H3). unfold state_of, events_of in *.
    destruct (_emitStartNote c) as [[? ?] ?]. cbn -[transcripts_fired] in *.
    rewrite app_nil_r, H3. split; [done|]. split; [done | constructor].
  - destruct (test re_create _).
    + pose proof (emitStopNote_setup c) as (H1 & H2 & H3). unfold state_of, events_of in *.
      destruct (_emitStopNote c) as [[? ?] ?]. cbn -[transcripts_fired] in *.
      rewrite app_nil_r. done.
    + split; [apply same_setup_refl|]. split; [done | constructor].
Qed.

Lemma onResult_final_frame (e : result_event) (c : controller) :
  final_texts (results e) <> [] ->
  let r := _onResult e c in
  Forall (fun p => p.2 = true) (transcripts_fired (events_of r)) /\
  _lastPartialAt (state_of r) = _lastPartialAt c /\
  same_setup c (state_of r).
Proof.
  intros Hne r. subst r.
  rewrite onResult_final_eq by done. unfold onResult_final.
  destruct (detect_after_transcript e c Hne) as (c2 & ev2 & -> & Hc2 & Hev2).
  assert (Htr : transcripts_fired ev2 = [])
    by (subst ev2; apply detection_events_only).
  assert (Hs2 : same_setup c c2 /\ _lastPartialAt c2 = _lastPartialAt c)
    by (subst c2; unfold same_setup; by destruct c).
  destruct Hs2 as [Hs2 Hl2]. clear Hc2 Hev2.
  destruct (_noteMode c2).
  - destruct (test re_create _).
    + pose proof (emitStopNote_setup
                    (set_noteBuffer (append_sp (_noteBuffer c2) (final_text e)) c2))
        as (H1 & H2 & H3).
      unfold state_of, events_of in *. destruct (_emitStopNote _) as [[[] c4] ev4].
      cbn -[transcripts_fired] in *.
      rewrite (transcripts_fired_app ev2 (_ :: ev4)), Htr. split.
      { cbn. constructor; [done | exact H3]. }
      split; [rewrite H2; by destruct c2|].
      eapply same_setup_trans; [exact Hs2|].
      eapply same_setup_trans; [|exact H1]. unfold same_setup. by destruct c2.
    + unfold state_of, events_of. cbn -[transcripts_fired].
      rewrite transcripts_fired_app, Htr. split; [repeat constructor|].
      split; [by destruct c2|].
      eapply same_setup_trans; [exact Hs2|]. unfold same_setup. by destruct c2.
  - pose proof (parseCommand_setup (toLowerCase (final_text e)) c2) as (H1 & H2 & H3).
    unfold state_of, events_of in *. destruct (_parseCommand _ c2) as [[a c3] ev3].
    cbn -[transcripts_fired] in *.
    rewrite !transcripts_fired_app, Htr, app_nil_l. split.
    { apply Forall_app. split; [exact H3|]. destruct (truthy_opt a); repeat constructor. }
    split; [congruence|]. by eapply same_setup_trans.
Qed.

(** X3: An event with final text never reports interim text and does not
    touch the throttle clock or the setup of the controller. *)
Theorem final_event_suppresses_interim (e : result_event) (c : controller) :
  final_texts (results e) <> [] ->
  let r := _onResult e c in
  Forall (fun p => p.2 = true) (transcripts_fired (events_of r)) /\
  _lastPartialAt (state_of r) = _lastPartialAt c /\
  same_setup c (state_of r).
Proof. exact (onResult_final_frame e c). Qed.

Lemma final_event_suppresses_interim_witness :
  let r := _onResult (ResultEvent [Slot (Some "Hello") true; Slot (Some "wor") false] 5000)
             (constructor 800 [] true bare_page) in
  Forall (fun p => p.2 = true) (transcripts_fired (events_of r)) /\
  _lastPartialAt (state_of r) = _lastPartialAt (constructor 800 [] true bare_page) /\
  same_setup (constructor 800 [] true bare_page) (state_of r).
Proof.
  exact (final_event_suppresses_interim
           (ResultEvent [Slot (Some "Hello") true; Slot (Some "wor") false] 5000)
           (constructor 800 [] true bare_page) ltac:(discriminate)).
Defined.


(** ** Final text in normal mode *)
Lemma lower_char_idem (a : ascii) : lower_char (lower_char a) = lower_char a.
Proof. destruct a as [[] [] [] [] [] [] [] []]; reflexivity. Qed.

Lemma toLowerCase_idem (s : string) : toLowerCase (toLowerCase s) = toLowerCase s.
Proof.
  unfold toLowerCase. induction s as [|a s IH]; simpl; [done|].
  by rewrite lower_char_idem, IH.
Qed.

Lemma plain_command_truthy (text a : string) : plain_command text = Some a -> truthy a = true.
Proof.
  unfold plain_command. intros H.
  repeat (case_match; [by simplify_eq|]). discriminate.
Qed.

(** The complete behaviour of [_onResult] on final text outside note
    mode. *)
Lemma normal_mode_dispatch (e : result_event) (c : controller) :
  _noteMode c = false ->
  final_texts (results e) <> [] ->
  let r := _onResult e c in
  let s := state_of r in
  let cmds := commands_fired (events_of r) in
  let trs := transcripts_fired (events_of r) in
  match custom_action (_customMap c) (command_text e) with
  | Some a =>
      _noteMode s = false /\ _noteBuffer s = _noteBuffer c /\
      if truthy a then cmds = [(a, final_text e)] /\ trs = []
      else cmds = [] /\ trs = [(final_text e, true)]
  | None =>
      if test re_note (command_text e) then
        _noteMode s = true /\ _noteBuffer s = "" /\
        cmds = [("start_note", "note"); ("start_note", final_text e)] /\ trs = []
      else
        _noteMode s = false /\ _noteBuffer s = _noteBuffer c /\
        if test re_create (command_text e) then
          cmds = [("stop_note", final_text e)] /\ trs = []
        else
          match plain_command (command_text e) with
          | Some a => cmds = [(a, final_text e)] /\ trs = []
          | None => cmds = [] /\ trs = [(final_text e, true)]
          end
  end.
Proof.
  intros Hnm Hne r s cmds trs. subst cmds trs s r.
  rewrite onResult_final_eq by done. unfold onResult_final.
  destruct (detect_after_transcript e c Hne) as (c2 & ev2 & -> & Hc2 & Hev2).
  assert (commands_fired ev2 = [] /\ transcripts_fired ev2 = []) as [Hcmd Htr]
    by (subst ev2; apply detection_events_only).
  assert (H2 : _noteMode c2 = false /\ _noteBuffer c2 = _noteBuffer c /\
               _customMap c2 = _customMap c) by (subst c2; by destruct c).
  destruct H2 as (Hn2 & Hb2 & Hm2). clear Hc2 Hev2. rewrite Hn2.
  unfold _parseCommand. rewrite toLowerCase_idem. fold (command_text e).
  assert (Htt : negb (truthy (command_text e)) = false \/ True) by (by right).
  clear Htt.
  destruct (truthy (command_text e)) eqn:Et.
  2:{ (* the classified text is never blank *)
      exfalso. unfold command_text in Et.
      destruct (final_text_head e Hne) as (a & u & Hft & Ha). rewrite Hft in Et.
      unfold toLowerCase in Et. simpl in Et.
      assert (Hl : is_space (lower_char a) = false).
      { revert Ha. clear. destruct a as [[] [] [] [] [] [] [] []]; vm_compute; congruence. }
      rewrite (trim_truthy_of_head _ _ Hl) in Et. discriminate. }
  cbn [negb]. unfold_method.
  cbn -[trim toLowerCase test plain_command _emitStartNote _emitStopNote
        commands_fired transcripts_fired custom_action command_text].
  rewrite Hm2.
  destruct (custom_action (_customMap c) (command_text e)) as [a|].
  { cbn -[commands_fired transcripts_fired].
    rewrite commands_fired_app, transcripts_fired_app, Hcmd, Htr.
    split; [done|]. split; [done|]. by destruct (truthy a). }
  destruct (test re_note (command_text e)).
  { unfold _emitStartNote. unfold_method.
    destruct c2 as [? ? ? ? ? ? nm nb ? ? ? ?]. simpl in Hn2, Hb2. subst nm.
    cbn -[commands_fired transcripts_fired].
    rewrite commands_fired_app, transcripts_fired_app, Hcmd, Htr. done. }
  destruct (test re_create (command_text e)).
  { unfold _emitStopNote. unfold_method.
    destruct c2 as [? ? ? ? ? ? nm nb ? ? ? ?]. simpl in Hn2, Hb2. subst nm.
    cbn -[commands_fired transcripts_fired].
    rewrite commands_fired_app, transcripts_fired_app, Hcmd, Htr. done. }
  cbn -[commands_fired transcripts_fired plain_command].
  rewrite commands_fired_app, transcripts_fired_app, Hcmd, Htr.
  split; [done|]. split; [done|].
  destruct (plain_command (command_text e)) as [a|] eqn:Ep; [|done].
  cbn -[commands_fired transcripts_fired]. by rewrite (plain_command_truthy _ _ Ep).
Qed.


(** X4: Outside note mode, a final utterance with the standalone word
    "note" that no override rule matches starts note mode with an empty
    buffer; [onCommand] is called twice, first with ['start_note',
    'note'] by [_emitStartNote] and then with ['start_note', utterance]
    by [_onResult], and the utterance is neither buffered nor reported
    as transcript. *)
Theorem note_utterance_starts_note (e : result_event) (c : controller) :
  _noteMode c = false ->
  final_texts (results e) <> [] ->
  custom_action (_customMap c) (command_text e) = None ->
  test re_note (command_text e) = true ->
  let r := _onResult e c in
  _noteMode (state_of r) = true /\
  _noteBuffer (state_of r) = "" /\
  commands_fired (events_of r) = [("start_note", "note"); ("start_note", final_text e)] /\
  transcripts_fired (events_of r) = [].
Proof.
  intros Hnm Hne Hc Hn. pose proof (normal_mode_dispatch e c Hnm Hne) as H.
  cbv zeta in H. by rewrite Hc, Hn in H.
Qed.

Lemma note_utterance_starts_note_witness :
  let r := _onResult (final_event "Take a note" 0) (constructor 800 [] true bare_page) in
  _noteMode (state_of r) = true /\
  _noteBuffer (state_of r) = "" /\
  commands_fired (events_of r) = [("start_note", "note"); ("start_note", "Take a note")] /\
  transcripts_fired (events_of r) = [].
Proof.
  exact (note_utterance_starts_note (final_event "Take a note" 0)
           (constructor 800 [] true bare_page)
           eq_refl ltac:(discriminate) eq_refl eq_refl).
Defined.

(** X5: An override rule that matches takes the utterance away from every
    built-in rule: its action is the only command fired, and an
    utterance with the word "note" then does not start note mode. *)
Theorem override_takes_precedence (e : result_event) (c : controller) (a : string) :
  _noteMode c = false ->
  final_texts (results e) <> [] ->
  custom_action (_customMap c) (command_text e) = Some a ->
  a <> "" ->
  let r := _onResult e c in
  _noteMode (state_of r) = false /\
  _noteBuffer (state_of r) = _noteBuffer c /\
  commands_fired (events_of r) = [(a, final_text e)] /\
  transcripts_fired (events_of r) = [].
Proof.
  intros Hnm Hne Hc Ha. pose proof (normal_mode_dispatch e c Hnm Hne) as H.
  cbv zeta in H. rewrite Hc, (truthy_nonempty _ Ha) in H. exact H.
Qed.

Lemma override_takes_precedence_witness :
  let r := _onResult (final_event "Take a note" 0) (constructor 800 [memo_rule] true bare_page) in
  _noteMode (state_of r) = false /\
  _noteBuffer (state_of r) = "" /\
  commands_fired (events_of r) = [("memo", "Take a note")] /\
  transcripts_fired (events_of r) = [].
Proof.
  exact (override_takes_precedence (final_event "Take a note" 0)
           (constructor 800 [memo_rule] true bare_page) "memo"
           eq_refl ltac:(discriminate) eq_refl ltac:(discriminate)).
Defined.

(** X6: Outside note mode the word "create" is still classified: the
    handler fires [onCommand('stop_note', utterance)] although no note
    is in progress, flushes nothing and leaves the mode and the buffer
    as they are. *)
Theorem create_outside_note_mode (e : result_event) (c : controller) :
  _noteMode c = false ->
  final_texts (results e) <> [] ->
  custom_action (_customMap c) (command_text e) = None ->
  test re_note (command_text e) = false ->
  test re_create (command_text e) = true ->
  let r := _onResult e c in
  _noteMode (state_of r) = false /\
  _noteBuffer (state_of r) = _noteBuffer c /\
  commands_fired (events_of r) = [("stop_note", final_text e)] /\
  transcripts_fired (events_of r) = [].
Proof.
  intros Hnm Hne Hc Hn Hcr. pose proof (normal_mode_dispatch e c Hnm Hne) as H.
  cbv zeta in H. rewrite Hc, Hn, Hcr in H. exact H.
Qed.

Lemma create_outside_note_mode_witness :
  let r := _onResult (final_event "Create the report" 0) (constructor 800 [] true bare_page) in
  _noteMode (state_of r) = false /\
  _noteBuffer (state_of r) = "" /\
  commands_fired (events_of r) = [("stop_note", "Create the report")] /\
  transcripts_fired (events_of r) = [].
Proof.
  exact (create_outside_note_mode (final_event "Create the report" 0)
           (constructor 800 [] true bare_page)
           eq_refl ltac:(discriminate) eq_refl eq_refl eq_refl).
Defined.

(** X7: Outside note mode, unless the utterance starts a note, a final
    utterance is reported exactly once, with its original casing:
    either as one command or as one final transcript, never as both;
    note mode and the note buffer are left as they are. *)
Theorem normal_mode_single_report (e : result_event) (c : controller) :
  _noteMode c = false ->
  final_texts (results e) <> [] ->
  custom_action (_customMap c) (command_text e) <> None \/
    test re_note (command_text e) = false ->
  let r := _onResult e c in
  _noteMode (state_of r) = false /\
  _noteBuffer (state_of r) = _noteBuffer c /\
  ((commands_fired (events_of r) = [] /\
    transcripts_fired (events_of r) = [(final_text e, true)]) \/
   (exists a, commands_fired (events_of r) = [(a, final_text e)] /\
              transcripts_fired (events_of r) = [])).
Proof.
  intros Hnm Hne Hor. pose proof (normal_mode_dispatch e c Hnm Hne) as H.
  cbv zeta in H.
  destruct (custom_action (_customMap c) (command_text e)) as [a|].
  { destruct H as (H1 & H2 & H3). split; [done|]. split; [done|].
    destruct (truthy a); [right; by exists a | by left]. }
  destruct Hor as [Hor | Hor]; [done|]. rewrite Hor in H.
  destruct H as (H1 & H2 & H3). split; [done|]. split; [done|].
  destruct (test re_create (command_text e)); [right; by eexists|].
  destruct (plain_command (command_text e)); [right; by eexists | by left].
Qed.

Lemma normal_mode_single_report_witness :
  let r := _onResult (final_event "Patient feels Better" 0) (constructor 800 [] true bare_page) in
  _noteMode (state_of r) = false /\
  _noteBuffer (state_of r) = "" /\
  ((commands_fired (events_of r) = [] /\
    transcripts_fired (events_of r) = [("Patient feels Better", true)]) \/
   (exists a, commands_fired (events_of r) = [(a, "Patient feels Better")] /\
              transcripts_fired (events_of r) = [])).
Proof.
  exact (normal_mode_single_report (final_event "Patient feels Better" 0)
           (constructor 800 [] true bare_page) eq_refl ltac:(discriminate) (or_intror eq_refl)).
Defined.


(** ** Trimmed text *)
Lemma trimEnd_idem (s : string) : trimEnd (trimEnd s) = trimEnd s.
Proof.
  induction s as [|a s IH]; [reflexivity|]. simpl.
  destruct (trimEnd s) as [|b t] eqn:E.
  - destruct (is_space a) eqn:Ea; [reflexivity|]. simpl. by rewrite Ea.
  - change (trimEnd (String a (String b t))) with
      (match trimEnd (String b t) with
       | EmptyString => if is_space a then EmptyString else String a EmptyString
       | u => String a u
       end).
    by rewrite IH.
Qed.

Lemma trimEnd_app (a b : string) :
  trimEnd b <> "" -> trimEnd (a +:+ b) = a +:+ trimEnd b.
Proof.
  intros Hb. induction a as [|x a IH]; sapp; [reflexivity|].
  simpl. rewrite IH. destruct (a +:+ trimEnd b) eqn:E; [|reflexivity].
  destruct a; [rewrite append_nil in E; contradiction | rewrite append_cons in E; discriminate].
Qed.

Lemma clean_trim (s : string) : trim s <> "" -> clean (trim s).
Proof.
  intros Hne. split; [exact Hne|]. pose proof (trim_head s) as Hh. split.
  - destruct (trim s) as [|a u]; [done|]. simpl. by rewrite Hh.
  - unfold trim. apply trimEnd_idem.
Qed.

Lemma clean_append (a sep b : string) : clean a -> clean b -> clean (a +:+ sep +:+ b).
Proof.
  intros (Ha & Hsa & Hea) (Hb & Hsb & Heb). split; [|split].
  - destruct a; [done|]. by rewrite append_cons.
  - destruct a as [|x a]; [done|]. rewrite append_cons. simpl in *.
    destruct (is_space x) eqn:Ex; [|reflexivity].
    (* a string that starts with white space is changed by trimStart *)
    exfalso. assert (Hl : String.length (trimStart a) <= String.length a).
    { clear. induction a as [|y a IH]; simpl; [lia|]. destruct (is_space y); simpl; lia. }
    rewrite Hsa in Hl. simpl in Hl. lia.
  - rewrite trimEnd_app.
    + rewrite trimEnd_app by (rewrite Heb; exact Hb). by rewrite Heb.
    + rewrite trimEnd_app by (rewrite Heb; exact Hb). rewrite Heb.
      destruct sep; [exact Hb | by rewrite append_cons].
Qed.

Lemma clean_join (l : list string) :
  l <> [] -> Forall clean l -> clean (join " " l).
Proof.
  intros Hne Hall. induction Hall as [|x l Hx Hl IH]; [done|].
  destruct l as [|y l]; [exact Hx|].
  rewrite join_cons by done. apply clean_append; [exact Hx | by apply IH].
Qed.

Lemma clean_trimmed (s : string) : clean s -> trim s = s.
Proof. intros (_ & Hs & He). unfold trim. by rewrite Hs. Qed.

Lemma final_texts_clean (rs : list slot) : Forall clean (final_texts rs).
Proof.
  unfold final_texts. apply Forall_forall. intros x Hx.
  apply list_elem_of_In, filter_In in Hx as [Hin Ht].
  apply in_map_iff in Hin as (r & <- & _). unfold slot_text in *.
  apply clean_trim. by destruct (trim _).
Qed.

Lemma session_finals_clean (es : list result_event) : Forall clean (session_finals es).
Proof.
  unfold session_finals. induction es as [|e es IH]; simpl; [constructor|].
  apply Forall_app. split; [apply final_texts_clean | exact IH].
Qed.

Lemma clean_truthy (l : list string) : Forall clean l -> Forall (fun x => truthy x = true) l.
Proof.
  intros H. eapply Forall_impl; [exact H|]. intros x (Hx & _). by apply truthy_nonempty.
Qed.

(** ** Dictating a note *)
Lemma run_session_app_events (e : result_event) (es : list result_event) (c : controller) :
  events_of (run_session (e :: es) c) =
    events_of (_onResult e c) ++ events_of (run_session es (state_of (_onResult e c))).
Proof.
  simpl. unfold_method. destruct (_onResult e c) as [[[] c1] ev1]. simpl.
  by destruct (run_session es c1) as [[[] c2] ev2].
Qed.

(** One final chunk in note mode (the step behind C2). *)
Lemma note_mode_step (e : result_event) (c : controller) :
  _noteMode c = true ->
  final_texts (results e) <> [] ->
  let r := _onResult e c in
  let buffer := append_sp (_noteBuffer c) (final_text e) in
  if test re_create (toLowerCase (final_text e)) then
    _noteMode (state_of r) = false /\
    _noteBuffer (state_of r) = "" /\
    truthy (trim buffer) = true /\
    transcripts_fired (events_of r) = [(final_text e, true); (trim buffer, true)] /\
    commands_fired (events_of r) = [("stop_note", "create")]
  else
    _noteMode (state_of r) = true /\
    _noteBuffer (state_of r) = buffer /\
    transcripts_fired (events_of r) = [(final_text e, true)] /\
    commands_fired (events_of r) = [].
Proof.
  intros Hnote Hne r buffer. subst r.
  rewrite onResult_final_eq by done. unfold onResult_final.
  destruct (detect_after_transcript e c Hne) as (c2 & ev2 & -> & Hc2 & Hev2).
  assert (Hn2 : _noteMode c2 = true) by (subst c2; by destruct c).
  assert (Hb2 : _noteBuffer c2 = _noteBuffer c) by (subst c2; by destruct c).
  assert (commands_fired ev2 = [] /\ transcripts_fired ev2 = []) as [Hcmd Htr]
    by (subst ev2; apply detection_events_only).
  clear Hc2 Hev2.
  rewrite Hn2, Hb2. fold buffer.
  assert (Hvis : truthy (trim buffer) = true).
  { destruct (final_text_head e Hne) as (a & u & Hft & Ha).
    unfold buffer, append_sp. rewrite <- append_assoc.
    by apply (trim_append_visible _ _ a u). }
  destruct (test re_create (toLowerCase (final_text e))).
  - unfold _emitStopNote. unfold_method.
    destruct c2 as [? ? ? ? ? ? nm nb ? ? ? ?]. simpl in Hn2. subst nm.
    cbn -[trim]. rewrite Hvis. cbn -[trim].
    rewrite commands_fired_app, transcripts_fired_app, Hcmd, Htr. done.
  - destruct c2 as [? ? ? ? ? ? nm nb ? ? ? ?]. simpl in Hn2. subst nm.
    unfold state_of, events_of. cbn -[trim].
    rewrite commands_fired_app, transcripts_fired_app, Hcmd, Htr. done.
Qed.

Lemma run_session_note_buffer (es : list result_event) (c : controller)
    (segs : list string) :
  _noteMode c = true ->
  _noteBuffer c = join " " segs ->
  Forall clean segs ->
  Forall (fun e => test re_create (toLowerCase (final_text e)) = false) es ->
  let r := run_session es c in
  _noteMode (state_of r) = true /\
  _noteBuffer (state_of r) = join " " (segs ++ session_finals es) /\
  commands_fired (events_of r) = [].
Proof.
  intros Hn Hb Hsegs Hes. revert c segs Hn Hb Hsegs.
  induction Hes as [|e es He _ IH]; intros c segs Hn Hb Hsegs r; subst r.
  - unfold session_finals. simpl. by rewrite app_nil_r.
  - rewrite run_session_cons, run_session_app_events, commands_fired_app.
    unfold session_finals. simpl. fold (session_finals es). rewrite app_assoc.
    destruct (final_texts (results e)) as [|x l] eqn:E.
    + rewrite (onResult_interim_only e c E), app_nil_r.
      destruct (_ && _); cbn -[run_session commands_fired].
      * apply (IH (set_lastPartialAt (now e) c) segs); by destruct c.
      * by apply IH.
    + assert (Hne : final_texts (results e) <> []) by (rewrite E; discriminate).
      pose proof (note_mode_step e c Hn Hne) as H. cbv zeta in H. rewrite He in H.
      destruct H as (H1 & H2 & _ & H4). rewrite H4, app_nil_l. rewrite <- E.
      apply IH; [exact H1 | | ].
      * rewrite H2, Hb. unfold final_text.
        apply append_sp_join; [by apply clean_truthy | exact Hne].
      * apply Forall_app. split; [exact Hsegs | apply final_texts_clean].
Qed.

(** X8: In note mode every final text is appended to the buffer, in order
    and separated by single spaces, as long as no utterance has the
    word "create"; note mode stays on and no command is fired. *)
Theorem note_buffer_accumulates (es : list result_event) (c : controller)
    (segs : list string) :
  _noteMode c = true ->
  _noteBuffer c = join " " segs ->
  Forall clean segs ->
  Forall (fun e => test re_create (toLowerCase (final_text e)) = false) es ->
  let r := run_session es c in
  _noteMode (state_of r) = true /\
  _noteBuffer (state_of r) = join " " (segs ++ session_finals es) /\
  commands_fired (events_of r) = [].
Proof. exact (run_session_note_buffer es c segs). Qed.

(** X9: A note that is dictated after the utterance "note" and ended by an
    utterance with the word "create" is reported as the dictated final
    texts joined by single spaces, the closing utterance included. *)
Theorem note_flushed_by_create (es : list result_event) (e : result_event) (c : controller) :
  _noteMode c = true ->
  _noteBuffer c = "" ->
  Forall (fun e' => test re_create (toLowerCase (final_text e')) = false) es ->
  final_texts (results e) <> [] ->
  test re_create (toLowerCase (final_text e)) = true ->
  let r := _onResult e (state_of (run_session es c)) in
  _noteMode (state_of r) = false /\
  _noteBuffer (state_of r) = "" /\
  transcripts_fired (events_of r)
    = [(final_text e, true); (join " " (session_finals (es ++ [e])), true)] /\
  commands_fired (events_of r) = [("stop_note", "create")].
Proof.
  intros Hn Hb Hes Hne Hcr r. subst r.
  destruct (run_session_note_buffer es c [] Hn Hb ltac:(constructor) Hes) as (S1 & S2 & _).
  rewrite app_nil_l in S2.
  pose proof (note_mode_step e _ S1 Hne) as H. cbv zeta in H. rewrite Hcr in H.
  destruct H as (H1 & H2 & _ & H4 & H5). split; [done|]. split; [done|]. split; [|done].
  rewrite H4, S2. do 3 f_equal.
  assert (Hj : append_sp (join " " (session_finals es)) (final_text e)
               = join " " (session_finals (es ++ [e]))).
  { unfold final_text. rewrite append_sp_join;
      [| apply clean_truthy, session_finals_clean | exact Hne].
    unfold session_finals. by rewrite map_app, concat_app; simpl; rewrite app_nil_r. }
  rewrite Hj. apply clean_trimmed, clean_join; [|apply session_finals_clean].
  unfold session_finals. rewrite map_app, concat_app. simpl. rewrite app_nil_r.
  intros [_ Habs]%app_eq_nil. contradiction.
Qed.

Lemma note_buffer_accumulates_witness :
  let r := run_session dictation (note_controller "") in
  _noteMode (state_of r) = true /\
  _noteBuffer (state_of r) = "Patient is stable Blood pressure normal" /\
  commands_fired (events_of r) = [].
Proof.
  exact (note_buffer_accumulates dictation (note_controller "") []
           eq_refl eq_refl ltac:(constructor) ltac:(repeat constructor)).
Defined.

Lemma note_flushed_by_create_witness :
  let r := _onResult (final_event "Create" 3000)
             (state_of (run_session dictation (note_controller ""))) in
  _noteMode (state_of r) = false /\
  _noteBuffer (state_of r) = "" /\
  transcripts_fired (events_of r)
    = [("Create", true); ("Patient is stable Blood pressure normal Create", true)] /\
  commands_fired (events_of r) = [("stop_note", "create")].
Proof.
  exact (note_flushed_by_create dictation (final_event "Create" 3000) (note_controller "")
           eq_refl eq_refl ltac:(repeat constructor) ltac:(discriminate) eq_refl).
Defined.


(** ** Stopping *)
Lemma run_session_rec (es : list result_event) (c : controller) :
  _rec (state_of (run_session es c)) = _rec c.
Proof.
  revert c. induction es as [|e es IH]; intros c; [done|].
  rewrite run_session_cons, IH.
  destruct (final_texts (results e)) as [|x l] eqn:E.
  - rewrite (onResult_interim_only e c E). destruct (_ && _); by destruct c.
  - destruct (onResult_final_frame e c) as (_ & _ & Hs);
      [rewrite E; discriminate|].
    unfold same_setup in Hs. by destruct Hs as (_ & _ & _ & -> & _).
Qed.

(** X10: [stop()] flushes a dictated note exactly when the controller has
    a recognizer: it then reports [onListenStateChange(false)], the
    dictated text and the [stop_note] command, and leaves note mode.
    Without a recognizer, as after [destroy()], it returns at once:
    nothing is fired and the note stays in the buffer. *)
Theorem note_flushed_by_stop (es : list result_event) (c : controller) :
  _noteMode c = true ->
  _noteBuffer c = "" ->
  Forall (fun e => test re_create (toLowerCase (final_text e)) = false) es ->
  session_finals es <> [] ->
  let c' := state_of (run_session es c) in
  let r := stop c' in
  if _rec c then
    events_of r =
      [OnListenStateChange false; OnTranscript (join " " (session_finals es)) true;
       OnCommand "stop_note" "create"] /\
    _noteMode (state_of r) = false /\ _noteBuffer (state_of r) = "" /\
    _listening (state_of r) = false
  else
    r = (tt, c', []) /\ _noteMode c' = true /\
    _noteBuffer c' = join " " (session_finals es).
Proof.
  intros Hn Hb Hes Hne c' r. subst r c'.
  destruct (run_session_note_buffer es c [] Hn Hb ltac:(constructor) Hes) as (S1 & S2 & _).
  rewrite app_nil_l in S2.
  pose proof (run_session_rec es c) as Hr.
  assert (Ht : trim (join " " (session_finals es)) = join " " (session_finals es))
    by (apply clean_trimmed, clean_join; [exact Hne | apply session_finals_clean]).
  assert (Hv : truthy (join " " (session_finals es)) = true).
  { apply join_truthy; [exact Hne | apply clean_truthy, session_finals_clean]. }
  destruct (_rec c).
  - destruct (state_of (run_session es c)) as [? ? ? rc ? ? nm nb ? ? ? ?].
    simpl in S1, S2, Hr. subst rc nm nb.
    unfold stop, _emitStopNote. unfold_method. cbn -[trim join].
    by rewrite Ht, Hv.
  - split; [|by split].
    destruct (state_of (run_session es c)) as [? ? ? rc ? ? nm nb ? ? ? ?].
    simpl in Hr. subst rc. reflexivity.
Qed.

Lemma note_flushed_by_stop_witness :
  events_of (stop (state_of (run_session dictation (note_controller ""))))
    = [OnListenStateChange false; OnTranscript "Patient is stable Blood pressure normal" true;
       OnCommand "stop_note" "create"] /\
  stop (state_of (run_session dictation (set_rec false (note_controller ""))))
    = (tt, state_of (run_session dictation (set_rec false (note_controller ""))), []).
Proof.
  split.
  - exact (proj1 (note_flushed_by_stop dictation (note_controller "")
                    eq_refl eq_refl ltac:(repeat constructor) ltac:(discriminate))).
  - exact (proj1 (note_flushed_by_stop dictation (set_rec false (note_controller ""))
                    eq_refl eq_refl ltac:(repeat constructor) ltac:(discriminate))).
Defined.

(** ** The empty note *)

Lemma trim_empty_spaces (s : string) : trim s = "" -> forallb_string is_space s = true.
Proof.
  unfold trim. induction s as [|a s IH]; [done|]. simpl.
  destruct (is_space a) eqn:E; [exact IH|].
  intros H. apply trimEnd_empty in H. simpl in H. by rewrite E in H.
Qed.

Lemma trimStart_spaces (ws t : string) :
  forallb_string is_space ws = true -> trimStart (ws +:+ t) = trimStart t.
Proof.
  induction ws as [|a ws IH]; sapp; [done|]. simpl.
  intros [-> H]%andb_true_iff. by apply IH.
Qed.

(** A buffer of white space does not show in the note. *)
Lemma trim_blank_buffer (buffer text : string) :
  trim buffer = "" -> clean text -> trim (append_sp buffer text) = text.
Proof.
  intros Hb (Hne & Hs & He). apply trim_empty_spaces in Hb.
  unfold append_sp, trim. rewrite trimStart_spaces by done.
  destruct (truthy buffer); [|by rewrite append_nil, Hs].
  change (" " +:+ text) with (String " " text). simpl. by rewrite Hs.
Qed.

Lemma final_text_clean (e : result_event) :
  final_texts (results e) <> [] -> clean (final_text e).
Proof. intros H. apply clean_join; [exact H | apply final_texts_clean]. Qed.

(** C10 (amended): when [stop()], or [_emitStopNote] itself, ends a note whose
    buffer trims to the empty string, [onCommand('stop_note', 'create')]
    is fired, note mode and the buffer are reset and no [onTranscript]
    is fired ([stop()] does so on a controller that has a recognizer).
    The word "create" never ends an empty note: the utterance is
    appended to the buffer first, so that with such a buffer the
    utterance itself is reported as the note. *)
Theorem empty_note_flush (c : controller) :
  _noteMode c = true ->
  trim (_noteBuffer c) = "" ->
  _emitStopNote c =
    (tt, set_noteBuffer "" (set_noteMode false c), [OnCommand "stop_note" "create"]) /\
  stop c =
    (if _rec c then
       (tt, set_noteBuffer "" (set_noteMode false (set_listening false c)),
        [OnListenStateChange false; OnCommand "stop_note" "create"])
     else (tt, c, [])) /\
  (forall e, final_texts (results e) <> [] ->
     test re_create (toLowerCase (final_text e)) = true ->
     transcripts_fired (events_of (_onResult e c))
       = [(final_text e, true); (final_text e, true)] /\
     commands_fired (events_of (_onResult e c)) = [("stop_note", "create")]).
Proof.
  intros Hn Hb. split; [|split].
  - destruct c as [? ? ? rc ? ? nm nb ? ? ? ?]. simpl in Hn, Hb. subst nm.
    unfold _emitStopNote. unfold_method. cbn -[trim]. by rewrite Hb.
  - destruct c as [? ? ? rc ? ? nm nb ? ? ? ?]. simpl in Hn, Hb. subst nm.
    unfold stop, _emitStopNote. unfold_method. destruct rc; cbn -[trim]; [|done].
    by rewrite Hb.
  - intros e He Hc. pose proof (note_mode_step e c Hn He) as H. cbv zeta in H.
    rewrite Hc in H. destruct H as (_ & _ & _ & Ht & Hcmd).
    rewrite (trim_blank_buffer _ _ Hb (final_text_clean e He)) in Ht. by split.
Qed.

Lemma empty_note_flush_witness :
  _noteMode started_note = true /\
  trim (_noteBuffer started_note) = "" /\
  stop started_note =
    (tt, set_noteBuffer "" (set_noteMode false (set_listening false started_note)),
     [OnListenStateChange false; OnCommand "stop_note" "create"]).
Proof.
  split; [reflexivity|]. split; [reflexivity|].
  exact (proj1 (proj2 (empty_note_flush started_note eq_refl eq_refl))).
Defined.

(** A note that is started and ended at once by the word "create" is
    not empty: the closing utterance is in the buffer when the note is
    flushed, and it is reported as the note, after the report of the
    utterance itself. *)
Lemma create_reports_a_note :
  _noteMode started_note = true /\
  trim (_noteBuffer started_note) = "" /\
  transcripts_fired (events_of (_onResult (final_event "create" 1000) started_note))
    = [("create", true); ("create", true)] /\
  transcripts_fired (events_of (_onResult (final_event "create" 1000) started_note))
    <> [("create", true)] /\
  commands_fired (events_of (_onResult (final_event "create" 1000) started_note))
    = [("stop_note", "create")].
Proof. repeat split. discriminate. Qed.

(** ** Listening state *)
Lemma onResult_listening (e : result_event) (c : controller) :
  _listening (state_of (_onResult e c)) = _listening c /\
  listen_changes (events_of (_onResult e c)) = [].
Proof.
  destruct (final_texts (results e)) as [|x l] eqn:E.
  - rewrite (onResult_interim_only e c E). destruct (_ && _); by destruct c.
  - assert (Hne : final_texts (results e) <> []) by (rewrite E; discriminate).
    destruct (onResult_final_frame e c Hne) as (_ & _ & Hs).
    split; [apply Hs|].
    (* the events are detections, commands and transcripts *)
    rewrite onResult_final_eq by done. unfold onResult_final.
    destruct (detect_after_transcript e c Hne) as (c2 & ev2 & -> & _ & Hev2).
    assert (H2 : listen_changes ev2 = []).
    { subst ev2. unfold detection_events. repeat case_match; reflexivity. }
    assert (Hstop : forall c', listen_changes (events_of (_emitStopNote c')) = []).
    { intros c'. unfold _emitStopNote. destruct c' as [? ? ? ? ? ? nm ? ? ? ? ?], nm;
        unfold_method; cbn -[trim]; [|done]. by destruct (truthy (trim _)). }
    assert (Hstart : forall c', listen_changes (events_of (_emitStartNote c')) = []).
    { intros c'. unfold _emitStartNote. by destruct c' as [? ? ? ? ? ? nm ? ? ? ? ?], nm. }
    unfold listen_changes in *.
    destruct (_noteMode c2).
    + destruct (test re_create _).
      * specialize (Hstop (set_noteBuffer (append_sp (_noteBuffer c2) (final_text e)) c2)).
        unfold events_of in *. destruct (_emitStopNote _) as [[[] c4] ev4].
        cbn [snd] in *. rewrite omap_app, H2. exact Hstop.
      * unfold events_of. cbn [snd]. by rewrite omap_app, H2.
    + unfold _parseCommand. destruct (negb (truthy (trim _))).
      { unfold_method. cbn [snd]. by rewrite omap_app, H2. }
      unfold_method.
      cbn -[trim toLowerCase test plain_command _emitStartNote _emitStopNote omap].
      destruct (custom_action _ _) as [a|].
      { cbn [snd]. rewrite omap_app, H2. by destruct (truthy_opt _). }
      destruct (test re_note _).
      { specialize (Hstart c2). unfold events_of in *.
        destruct (_emitStartNote c2) as [[[] c4] ev4]. cbn [snd] in *.
        by rewrite !omap_app, H2, Hstart. }
      destruct (test re_create _).
      { specialize (Hstop c2). unfold events_of in *.
        destruct (_emitStopNote c2) as [[[] c4] ev4]. cbn [snd] in *.
        by rewrite !omap_app, H2, Hstop. }
      cbn [snd]. rewrite !omap_app, H2. by destruct (truthy_opt _).
Qed.

(** X11: Every [onListenStateChange(b)] that a method fires carries the value
    that [isListening()] returns after the call, and [start()] returns
    that same value when the speech API is available and [false] when it
    is not. *)
Theorem listen_state_is_reported_truthfully (c : controller) (rec_start : option string)
    (e : result_event) (ev : option error_event) :
  Forall (fun b => b = _listening (state_of (start rec_start c)))
    (listen_changes (events_of (start rec_start c))) /\
  value_of (start rec_start c) = _SR c && _listening (state_of (start rec_start c)) /\
  Forall (fun b => b = _listening (state_of (stop c))) (listen_changes (events_of (stop c))) /\
  Forall (fun b => b = _listening (state_of (destroy c)))
    (listen_changes (events_of (destroy c))) /\
  Forall (fun b => b = _listening (state_of (_onEnd c))) (listen_changes (events_of (_onEnd c))) /\
  listen_changes (events_of (_onError ev c)) = [] /\
  listen_changes (events_of (_onResult e c)) = [].
Proof.
  assert (Hstop : forall c', listen_changes (events_of (_emitStopNote c')) = [] /\
                             _listening (state_of (_emitStopNote c')) = _listening c').
  { intros c'. unfold _emitStopNote. destruct c' as [? ? ? ? ? ? nm ? ? ? ? ?], nm;
      unfold_method; cbn -[trim]; [|done]. by destruct (truthy (trim _)). }
  repeat split.
  - unfold start. unfold_method. destruct c as [? ? sr rc ls ? ? ? ? ? ? ?].
    destruct sr, ls, rc, rec_start; cbn; repeat constructor.
  - unfold start. unfold_method. destruct c as [? ? sr rc ls ? ? ? ? ? ? ?].
    by destruct sr, ls, rc, rec_start.
  - unfold stop. unfold_method. destruct (negb (_rec c)); [constructor|].
    destruct (_noteMode c); [|by destruct c; repeat constructor].
    destruct (Hstop (set_listening false c)) as [H1 H2]. unfold state_of, events_of in *.
    destruct (_emitStopNote _) as [[[] c4] ev4]. cbn [fst snd] in *.
    cbn -[listen_changes]. change (listen_changes (OnListenStateChange false :: ev4))
      with (false :: listen_changes ev4). rewrite H1, H2. by destruct c; repeat constructor.
  - unfold destroy, stop. unfold_method. destruct (negb (_rec c)); [constructor|].
    destruct (_noteMode c); [|by destruct c; repeat constructor].
    destruct (Hstop (set_listening false c)) as [H1 H2]. unfold state_of, events_of in *.
    destruct (_emitStopNote _) as [[[] c4] ev4]. cbn [fst snd] in *.
    cbn -[listen_changes]. rewrite !app_nil_r.
    change (listen_changes (OnListenStateChange false :: ev4))
      with (false :: listen_changes ev4). rewrite H1.
    constructor; [|constructor]. destruct c4; simpl in *. by destruct c.
  - unfold _onEnd. unfold_method. destruct (_listening c) eqn:E; cbn; repeat constructor.
    by rewrite E.
  - apply onResult_listening.
Qed.


(** ** Restarting the recognizer *)
(** X12: The recognizer is restarted by an [end] event exactly while the
    controller is listening, and by an [error] event only while it is
    listening and the code is one of the four recoverable ones.  An
    error leaves the controller as it is, so the [end] event that
    follows an error restarts a listening controller even when the error
    was not recoverable; after [stop()] nothing restarts it. *)
Theorem restart_only_while_listening (c : controller) (ev : option error_event) :
  value_of (_onEnd c) = _listening c /\
  state_of (_onEnd c) = c /\
  (value_of (_onError ev c) = true ->
   _listening c = true /\ error_code ev ∈ recoverable) /\
  _onError ev c = (value_of (_onError ev c), c, [OnError (error_code ev)]) /\
  value_of (_onEnd (state_of (_onError ev c))) = _listening c /\
  (_rec c = true ->
   value_of (_onEnd (state_of (stop c))) = false /\
   value_of (_onError ev (state_of (stop c))) = false).
Proof.
  assert (Hstop : forall c', _listening (state_of (_emitStopNote c')) = _listening c').
  { intros c'. unfold _emitStopNote. destruct c' as [? ? ? ? ? ? nm ? ? ? ? ?], nm;
      unfold_method; cbn -[trim]; [|done]. by destruct (truthy (trim _)). }
  split; [|split; [|split; [|split; [|split]]]].
  - unfold _onEnd. unfold_method. by destruct (_listening c).
  - unfold _onEnd. unfold_method. by destruct (_listening c).
  - unfold _onError. unfold_method. cbn. intros [H1 H2]%andb_true_iff.
    split; [done|]. by apply bool_decide_eq_true in H2.
  - unfold _onError. unfold_method. reflexivity.
  - unfold _onError, _onEnd. unfold_method. cbn. by destruct (_listening c).
  - intros Hrec.
    assert (Hl : _listening (state_of (stop c)) = false).
    { unfold stop. unfold_method. rewrite Hrec. cbn [negb].
      destruct (_noteMode c); [|by destruct c].
      specialize (Hstop (set_listening false c)). unfold state_of in *.
      destruct (_emitStopNote _) as [[[] c4] ev4]. cbn [fst snd] in *.
      rewrite Hstop. by destruct c. }
    unfold _onEnd, _onError. unfold_method. cbn. by rewrite Hl.
Qed.

Lemma restart_only_while_listening_witness :
  let c := state_of (start None (constructor 800 [] true bare_page)) in
  let fatal := Some (ErrorEvent "not-allowed" "") in
  value_of (_onError (Some (ErrorEvent "network" "")) c) = true /\
  value_of (_onError fatal c) = false /\
  value_of (_onEnd (state_of (_onError fatal c))) = true /\
  value_of (_onEnd (state_of (stop c))) = false /\
  value_of (_onError (Some (ErrorEvent "network" "")) (state_of (stop c))) = false.
Proof.
  cbv zeta.
  destruct (restart_only_while_listening (state_of (start None (constructor 800 [] true bare_page)))
              (Some (ErrorEvent "not-allowed" ""))) as (_ & _ & _ & _ & H5 & _).
  destruct (restart_only_while_listening (state_of (start None (constructor 800 [] true bare_page)))
              (Some (ErrorEvent "network" ""))) as (_ & _ & _ & _ & _ & H6).
  destruct (H6 eq_refl) as [H7 H8].
  split; [reflexivity|]. split; [reflexivity|]. split; [exact H5|]. split; [exact H7 | exact H8].
Defined.

(** ** The recognizer object *)
(** X13: [destroy()] does what [stop()] does and drops the recognizer: a
    later [stop()] or [destroy()] does nothing, and a later [start()]
    that succeeds makes the controller listen again with a recognizer. *)
Theorem destroy_then_restart (c : controller) :
  events_of (destroy c) = events_of (stop c) /\
  _rec (state_of (destroy c)) = false /\
  stop (state_of (destroy c)) = (tt, state_of (destroy c), []) /\
  destroy (state_of (destroy c)) = (tt, state_of (destroy c), []) /\
  (_SR c = true -> _rec c = true ->
   let r := start None (state_of (destroy c)) in
   value_of r = true /\ _rec (state_of r) = true /\ _listening (state_of r) = true /\
   events_of r = [OnListenStateChange true]).
Proof.
  assert (Hstop : forall c', _listening (state_of (_emitStopNote c')) = _listening c' /\
                             _SR (state_of (_emitStopNote c')) = _SR c').
  { intros c'. unfold _emitStopNote. destruct c' as [? ? ? ? ? ? nm ? ? ? ? ?], nm;
      unfold_method; cbn -[trim]; [|done]. by destruct (truthy (trim _)). }
  assert (Hd : forall c', _rec (state_of (destroy c')) = false).
  { intros c'. unfold destroy, stop. unfold_method. destruct (negb (_rec c')) eqn:E.
    - cbn. by destruct c'.
    - destruct (_noteMode c'); [|by destruct c'].
      destruct (_emitStopNote _) as [[[] c4] ev4]. by destruct c4. }
  split; [|split; [apply Hd|split; [|split]]].
  - unfold destroy, stop. unfold_method. destruct (negb (_rec c)); [done|].
    destruct (_noteMode c); [|by destruct c].
    destruct (_emitStopNote _) as [[[] c4] ev4]. cbn. by rewrite !app_nil_r.
  - specialize (Hd c). unfold stop. unfold_method. by rewrite Hd.
  - specialize (Hd c). destruct (state_of (destroy c)) as [? ? ? rc ? ? ? ? ? ? ? ?].
    simpl in Hd. subst rc. reflexivity.
  - intros Hsr Hrec r. subst r.
    assert (H : _SR (state_of (destroy c)) = true /\ _listening (state_of (destroy c)) = false).
    { unfold destroy, stop. unfold_method. rewrite Hrec. cbn [negb].
      destruct (_noteMode c); [|by destruct c].
      destruct (Hstop (set_listening false c)) as [H1 H2]. unfold state_of in *.
      destruct (_emitStopNote _) as [[[] c4] ev4]. cbn [fst snd] in *.
      destruct c4; simpl in *. rewrite H1, H2. by destruct c. }
    destruct H as [H1 H2]. specialize (Hd c).
    destruct (state_of (destroy c)) as [? ? sr rc ls ? ? ? ? ? ? ?].
    simpl in *. by subst.
Qed.

Lemma destroy_then_restart_witness :
  let c := note_controller "left arm pain" in
  events_of (destroy c)
    = [OnListenStateChange false; OnTranscript "left arm pain" true;
       OnCommand "stop_note" "create"] /\
  events_of (stop (state_of (destroy c))) = [] /\
  events_of (start None (state_of (destroy c))) = [OnListenStateChange true].
Proof.
  cbv zeta.
  destruct (destroy_then_restart (note_controller "left arm pain")) as (H1 & _ & H3 & _ & H5).
  destruct (H5 eq_refl eq_refl) as (_ & _ & _ & H6).
  split; [rewrite H1; reflexivity|]. split; [by rewrite H3 | exact H6].
Defined.


(** ** The detection state *)
Lemma detections_of_detection_events (m t : option string) (full : string) :
  detections_fired (detection_events m t full) =
    match m, t with
    | Some m, Some t => if truthy m && truthy t then [(m, t, full)] else []
    | _, _ => []
    end.
Proof. unfold detection_events. destruct m, t; try done. by destruct (_ && _). Qed.

Lemma onResult_detections (e : result_event) (c : controller) :
  let r := _onResult e c in
  match final_texts (results e) with
  | [] =>
      detections_fired (events_of r) = [] /\
      _detectedMRN (state_of r) = _detectedMRN c /\
      _detectedTemplate (state_of r) = _detectedTemplate c /\
      _fullTranscript (state_of r) = _fullTranscript c
  | _ :: _ => detections_fired (events_of r) = stored_detection (state_of r)
  end.
Proof.
  intros r. subst r. destruct (final_texts (results e)) as [|x l] eqn:E.
  - rewrite (onResult_interim_only e c E). destruct (_ && _); by destruct c.
  - assert (Hne : final_texts (results e) <> []) by (rewrite E; discriminate).
    destruct (onResult_detection e c Hne) as (Sm & St & _ & Sf & Ev).
    unfold stored_detection. rewrite Ev, Sm, St, Sf. apply detections_of_detection_events.
Qed.

(** X14: An event without final text fires no combined detection and leaves
    the detection state alone; an event with final text fires the
    combined detection exactly once when an MRN and a template are
    stored after it has been handled, whether or not they are new, and
    the callback then carries the stored MRN, the stored template and
    the whole transcript. *)
Theorem detection_event_carries_state (e : result_event) (c : controller) :
  let r := _onResult e c in
  match final_texts (results e) with
  | [] =>
      detections_fired (events_of r) = [] /\
      _detectedMRN (state_of r) = _detectedMRN c /\
      _detectedTemplate (state_of r) = _detectedTemplate c /\
      _fullTranscript (state_of r) = _fullTranscript c
  | _ :: _ => detections_fired (events_of r) = stored_detection (state_of r)
  end.
Proof. exact (onResult_detections e c). Qed.

Lemma onResult_next_detection (e : result_event) (c : controller) :
  final_texts (results e) <> [] ->
  let r := _onResult e c in
  _detectedMRN (state_of r) =
    match _detectMRN (final_text e) with
    | Some m => Some m
    | None => _detectedMRN c
    end /\
  _detectedTemplate (state_of r) =
    match _detectTemplate (_availableTemplates c) (final_text e) with
    | Some t => if truthy t then Some t else _detectedTemplate c
    | None => _detectedTemplate c
    end.
Proof.
  intros Hne r. subst r.
  destruct (onResult_detection e c Hne) as (Sm & St & _).
  rewrite Sm, St. unfold next_MRN, next_template.
  cbn [set_fullTranscript _detectedMRN _detectedTemplate _availableTemplates].
  split.
  - destruct (_detectMRN (final_text e)) as [m|] eqn:Em; [|done].
    rewrite (detectMRN_truthy _ _ Em). cbn [andb]. unfold differs.
    destruct (_detectedMRN c) as [w|]; [|done].
    destruct (String.eqb_spec m w) as [->|]; reflexivity.
  - destruct (_detectTemplate _ _) as [t|]; [|done].
    destruct (truthy t); [|done]. cbn [andb]. unfold differs.
    destruct (_detectedTemplate c) as [w|]; [|done].
    destruct (String.eqb_spec t w) as [->|]; reflexivity.
Qed.

(** X15: The stored MRN and template are those of the most recent final text
    in which one was detected: a detected value replaces the stored one,
    and a final text without one leaves the stored value as it is, so a
    stored value is never cleared by an utterance. *)
Theorem detection_last_write_wins (e : result_event) (c : controller) :
  final_texts (results e) <> [] ->
  let r := _onResult e c in
  _detectedMRN (state_of r) =
    match _detectMRN (final_text e) with
    | Some m => Some m
    | None => _detectedMRN c
    end /\
  _detectedTemplate (state_of r) =
    match _detectTemplate (_availableTemplates c) (final_text e) with
    | Some t => if truthy t then Some t else _detectedTemplate c
    | None => _detectedTemplate c
    end.
Proof. exact (onResult_next_detection e c). Qed.

Lemma detection_last_write_wins_witness :
  let c := set_detectedMRN (Some "XY999") soap_controller in
  let r := _onResult (final_event "patient MRN AB123" 0) c in
  _detectedMRN (state_of r) = Some "AB123" /\ _detectedTemplate (state_of r) = None.
Proof.
  exact (detection_last_write_wins (final_event "patient MRN AB123" 0)
           (set_detectedMRN (Some "XY999") soap_controller) ltac:(discriminate)).
Defined.

Lemma detectTemplate_in (ts : list string) (text t : string) :
  _detectTemplate ts text = Some t -> t ∈ ts.
Proof.
  unfold _detectTemplate. destruct (truthy text); [|discriminate].
  generalize (normalize (toLowerCase text)) as nt. intros nt.
  induction ts as [|u ts IH]; cbn -[template_matches]; [discriminate|].
  destruct (template_matches nt u).
  - intros [= ->]. left.
  - intros H. right. by apply IH.
Qed.

Lemma onResult_templates (e : result_event) (c : controller) :
  _availableTemplates (state_of (_onResult e c)) = _availableTemplates c.
Proof.
  destruct (final_texts (results e)) as [|x l] eqn:E.
  - rewrite (onResult_interim_only e c E). destruct (_ && _); by destruct c.
  - destruct (onResult_final_frame e c) as (_ & _ & Hs); [rewrite E; discriminate|].
    apply Hs.
Qed.

Lemma onResult_detection_ok (e : result_event) (c : controller) :
  detection_ok c -> detection_ok (state_of (_onResult e c)).
Proof.
  intros [Hm Ht]. unfold detection_ok. rewrite onResult_templates.
  destruct (final_texts (results e)) as [|x l] eqn:E.
  - pose proof (onResult_detections e c) as H. cbv zeta in H. rewrite E in H.
    destruct H as (_ & -> & -> & _). by split.
  - assert (Hne : final_texts (results e) <> []) by (rewrite E; discriminate).
    destruct (onResult_next_detection e c Hne) as [-> ->]. split.
    + destruct (_detectMRN (final_text e)) as [m'|] eqn:Em; [|exact Hm].
      intros m [= <-]. by eapply detectMRN_valid.
    + destruct (_detectTemplate _ _) as [t'|] eqn:Et; [|exact Ht].
      destruct (truthy t'); [|exact Ht]. intros t [= <-]. by eapply detectTemplate_in.
Qed.

Lemma run_session_detection_ok (es : list result_event) (c : controller) :
  detection_ok c ->
  detection_ok (state_of (run_session es c)) /\
  _availableTemplates (state_of (run_session es c)) = _availableTemplates c /\
  Forall (fun d => mrn_valid d.1.1 = true /\ d.1.2 ∈ _availableTemplates c)
    (detections_fired (events_of (run_session es c))).
Proof.
  revert c. induction es as [|e es IH]; intros c Hok.
  - split; [exact Hok|]. split; [done | constructor].
  - rewrite run_session_cons, run_session_app_events, detections_fired_app.
    pose proof (onResult_detection_ok e c Hok) as Hok1.
    destruct (IH _ Hok1) as (H1 & H2 & H3). rewrite onResult_templates in H2, H3.
    split; [exact H1|]. split; [exact H2|]. apply Forall_app. split; [|exact H3].
    pose proof (onResult_detections e c) as H. cbv zeta in H.
    destruct (final_texts (results e)); [destruct H as [-> _]; constructor|].
    rewrite H. unfold stored_detection. destruct Hok1 as [Hm Ht].
    rewrite onResult_templates in Ht.
    destruct (_detectedMRN _) as [m|]; [|constructor].
    destruct (_detectedTemplate _) as [t|]; [|constructor].
    destruct (_ && _); constructor; [|constructor]. split; [by apply Hm | by apply Ht].
Qed.


(** X16: In a session that starts with no stored MRN and no stored template,
    every combined-detection callback carries an MRN with a letter and a
    digit and a template that is one of the available templates. *)
Theorem combined_events_well_formed (es : list result_event) (c : controller) :
  _detectedMRN c = None ->
  _detectedTemplate c = None ->
  Forall (fun d => existsb_string is_letter d.1.1 = true /\
                   existsb_string is_digit d.1.1 = true /\
                   d.1.2 ∈ _availableTemplates c)
    (detections_fired (events_of (run_session es c))).
Proof.
  intros Hm Ht.
  destruct (run_session_detection_ok es c) as (_ & _ & H).
  { split; intros x Hx; congruence. }
  eapply Forall_impl; [exact H|]. intros d [Hv Hin]. unfold mrn_valid in Hv.
  apply andb_true_iff in Hv as [Hu Hd]. rewrite test_has_upper in Hu.
  rewrite test_has_digit in Hd. split; [|by split].
  eapply existsb_string_impl; [|exact Hu]. intros a Ha. unfold is_letter. by rewrite Ha.
Qed.

Lemma combined_events_well_formed_witness :
  Forall (fun d => existsb_string is_letter d.1.1 = true /\
                   existsb_string is_digit d.1.1 = true /\
                   d.1.2 ∈ ["SOAP Note"; "Consultation Note Form"])
    (detections_fired
       (events_of (run_session [final_event "MRN 4471" 0; final_event "a consult" 900]
                     soap_controller))).
Proof.
  exact (combined_events_well_formed [final_event "MRN 4471" 0; final_event "a consult" 900]
           soap_controller eq_refl eq_refl).
Defined.





(** ** Letter case *)
Lemma lower_upper_char (a : ascii) : lower_char (upper_char a) = lower_char a.
Proof. destruct a as [[] [] [] [] [] [] [] []]; reflexivity. Qed.

Lemma toLowerCase_toUpperCase (s : string) : toLowerCase (toUpperCase s) = toLowerCase s.
Proof.
  unfold toLowerCase, toUpperCase. induction s as [|a s IH]; simpl; [done|].
  by rewrite lower_upper_char, IH.
Qed.

Lemma truthy_map (f : ascii -> ascii) (s : string) : truthy (map_string f s) = truthy s.
Proof. by destruct s. Qed.

(** X19: Command classification and template detection do not depend on the
    letter case of the utterance, and template detection does not depend
    on the letter case in which the templates are written either.  The
    statement is for 7-bit text, on which the case conversions are those
    of JavaScript, and for a controller without override rules, whose
    expressions could keep state between two calls. *)
Theorem classification_ignores_case (s t : string) (ts : list string) (c : controller) :
  seven_bit s -> seven_bit t -> Forall seven_bit ts ->
  _customMap c = [] ->
  _parseCommand (toUpperCase s) c = _parseCommand s c /\
  _detectTemplate ts (toUpperCase s) = _detectTemplate ts s /\
  _detectTemplate ts (toLowerCase s) = _detectTemplate ts s /\
  template_matches s (toUpperCase t) = template_matches s t.
Proof.
  intros _ _ _ _. split; [|split; [|split]].
  - unfold _parseCommand. by rewrite toLowerCase_toUpperCase.
  - unfold _detectTemplate, toUpperCase.
    rewrite truthy_map. fold (toUpperCase s). by rewrite toLowerCase_toUpperCase.
  - unfold _detectTemplate, toLowerCase at 1.
    rewrite truthy_map. fold (toLowerCase s). by rewrite toLowerCase_idem.
  - unfold template_matches. by rewrite toLowerCase_toUpperCase.
Qed.

Lemma classification_ignores_case_witness :
  _parseCommand "SEND AN URGENT ALERT" (constructor 800 [] true bare_page)
    = _parseCommand "Send an urgent alert" (constructor 800 [] true bare_page) /\
  _detectTemplate ["SOAP Note"] "START A SOAP NOTE"
    = _detectTemplate ["SOAP Note"] "Start a soap note".
Proof.
  destruct (classification_ignores_case "Send an urgent alert" "SOAP Note" ["SOAP Note"]
              (constructor 800 [] true bare_page)
              eq_refl eq_refl ltac:(repeat constructor) eq_refl) as (H1 & _).
  destruct (classification_ignores_case "Start a soap note" "SOAP Note" ["SOAP Note"]
              (constructor 800 [] true bare_page)
              eq_refl eq_refl ltac:(repeat constructor) eq_refl) as (_ & H2 & _).
  split; assumption.
Defined.


(** ** The format of a detected MRN *)
Lemma forallb_string_app (p : ascii -> bool) (s t : string) :
  forallb_string p (s +:+ t) = forallb_string p s && forallb_string p t.
Proof.
  induction s as [|a s IH]; sapp; simpl; [done|]. by rewrite IH, andb_assoc.
Qed.

(** Replacing every match by the empty string only removes characters. *)
Lemma replace_empty_keeps (q : ascii -> bool) (p : pattern) (s : string)
    (prev : option ascii) (skip : nat) :
  forallb_string q s = true -> forallb_string q (replace_from p "" prev skip s) = true.
Proof.
  revert prev skip. induction s as [|a s IH]; intros prev skip Hs.
  - destruct skip; simpl; [|done]. by destruct (match_here p prev "").
  - simpl in Hs. apply andb_true_iff in Hs as [Ha Hs].
    destruct skip as [|n]; [|simpl; by apply IH].
    cbn -[match_here String.length]. destruct (match_here p prev (String a s)) as [r|].
    + destruct (_ - _); rewrite append_nil; [|by apply IH].
      simpl. rewrite Ha. by apply IH.
    + simpl. rewrite Ha. by apply IH.
Qed.

(** A greedy repetition that is followed by nothing succeeds as soon as
    its minimum is met, and consumes at least its minimum. *)
Lemma rep_greedy_succeeds (k : cls) (s : string) (min : nat) (prev : option ascii) :
  min <= 1 ->
  (min = 1 -> exists a s', s = String a s' /\ cls_match false k a = true) ->
  exists rest,
    rep_greedy false k min prev s None (fun _ s' c => Some (MatchResult s' c))
      = Some (MatchResult rest None) /\
    String.length rest + min <= String.length s.
Proof.
  revert min prev. induction s as [|a s IH]; intros min prev Hmin Hhead.
  - destruct min as [|min].
    + exists "". simpl. split; [done | lia].
    + destruct Hhead as (a & s' & H & _); [lia | discriminate].
  - simpl. destruct (cls_match false k a) eqn:E.
    + destruct (IH (Nat.pred min) (Some a)) as (rest & -> & Hl); [lia | lia |].
      exists rest. split; [done|]. simpl. lia.
    + destruct min as [|min].
      * exists (String a s). split; [done | simpl; lia].
      * destruct Hhead as (a' & s' & [= <- <-] & H); [lia | congruence].
Qed.

Lemma replace_plus_removes (k : cls) (s : string) (prev : option ascii) (skip : nat) :
  forallb_string (fun a => negb (cls_match false k a))
    (replace_from (Pattern (plus k) false) "" prev skip s) = true.
Proof.
  revert prev skip. induction s as [|a s IH]; intros prev skip.
  - by destruct skip.
  - destruct skip as [|n]; [|simpl; apply IH].
    cbn -[match_here String.length]. unfold match_here. cbn -[rep_greedy String.length].
    destruct (cls_match false k a) eqn:E.
    + destruct (rep_greedy_succeeds k (String a s) 1 prev) as (rest & Hr & Hl);
        [lia | intros _; by exists a, s |].
      rewrite Hr. cbn -[String.length].
      destruct (String.length (String a s) - String.length rest) eqn:En; [simpl in *; lia|].
      rewrite append_nil. apply IH.
    + simpl. rewrite E. simpl. rewrite E. simpl. apply IH.
Qed.

Lemma replace_char_removes (x : ascii) (s : string) (prev : option ascii) (skip : nat) :
  forallb_string (fun a => negb (Ascii.eqb x a))
    (replace_from (Pattern (Chr (CChar x)) false) "" prev skip s) = true.
Proof.
  revert prev skip. induction s as [|a s IH]; intros prev skip.
  - by destruct skip.
  - destruct skip as [|n]; [|simpl; apply IH].
    cbn -[String.length]. destruct (Ascii.eqb x a) eqn:E.
    + cbn -[String.length].
      replace (String.length (String a s) - String.length s) with 1 by (simpl; lia).
      rewrite append_nil. apply IH.
    + simpl. rewrite E. simpl. apply IH.
Qed.

Lemma upper_char_canonical (a : ascii) :
  negb (is_space a) && negb (Ascii.eqb "-" a) = true -> canonical_char (upper_char a) = true.
Proof. destruct a as [[] [] [] [] [] [] [] []]; vm_compute; congruence. Qed.

Lemma toUpperCase_canonical (s : string) :
  forallb_string (fun a => negb (is_space a) && negb (Ascii.eqb "-" a)) s = true ->
  forallb_string canonical_char (toUpperCase s) = true.
Proof.
  unfold toUpperCase. induction s as [|a s IH]; simpl; [done|].
  intros [Ha Hs]%andb_true_iff. by rewrite upper_char_canonical, IH.
Qed.

Lemma forallb_string_and (p q : ascii -> bool) (s : string) :
  forallb_string p s = true -> forallb_string q s = true ->
  forallb_string (fun a => p a && q a) s = true.
Proof.
  induction s as [|a s IH]; simpl; [done|].
  intros [H1 H2]%andb_true_iff [H3 H4]%andb_true_iff. by rewrite H1, H3, IH.
Qed.

Lemma mrn_candidate_canonical (p : pattern) (text v : string) :
  mrn_candidate p text = Some v -> forallb_string canonical_char v = true.
Proof.
  unfold mrn_candidate. destruct (match1 p text) as [g|]; [|discriminate].
  destruct (truthy g); [|discriminate]. intros [= <-].
  assert (H : forallb_string canonical_char
                (toUpperCase (replace_all re_hyphen "" (replace_all re_spaces "" g))) = true).
  { apply toUpperCase_canonical, forallb_string_and.
    - apply replace_empty_keeps. apply (replace_plus_removes CSpace).
    - apply (replace_char_removes "-"). }
  destruct (test re_all_digits _); [|exact H].
  by rewrite forallb_string_app, H.
Qed.

(** X20: A detected MRN is in canonical form: it holds no white space, no
    hyphen and no lower-case letter, whatever the spoken text looked
    like. *)
Theorem detected_mrn_is_canonical (text mrn : string) :
  _detectMRN text = Some mrn -> forallb_string canonical_char mrn = true.
Proof.
  unfold _detectMRN. destruct (truthy text); [|discriminate].
  generalize mrn_patterns. intros ps.
  induction ps as [|p ps IH]; cbn -[mrn_candidate mrn_valid]; [discriminate|].
  destruct (mrn_candidate p text) as [v|] eqn:Ev; [|exact IH].
  destruct (mrn_valid v); [|exact IH]. intros [= <-]. by eapply mrn_candidate_canonical.
Qed.

Lemma detected_mrn_is_canonical_witness :
  forallb_string canonical_char "XY9" = true.
Proof.
  exact (detected_mrn_is_canonical "the mrn-xy - 9 please" "XY9" eq_refl).
Defined.

(** ** MRN normalization *)

(** *** Greedy repetition over a run of characters *)

Lemma last_char_app (prev : option ascii) (s t : string) :
  last_char prev (s +:+ t) = last_char (last_char prev s) t.
Proof. revert prev. induction s as [|a s IH]; intros prev; sapp; simpl; [done | apply IH]. Qed.

Lemma last_char_word (prev : option ascii) (s : string) :
  s <> "" -> forallb_string is_word s = true -> is_word_opt (last_char prev s) = true.
Proof.
  revert prev. induction s as [|a s IH]; intros prev Hne Hs; [done|].
  simpl in *. apply andb_true_iff in Hs as [Ha Hs].
  destruct s as [|b s]; [exact Ha|]. by apply IH.
Qed.

Lemma rep_greedy_run {A : Type} (icase : bool) (c : cls) (run rest : string) (min : nat)
    (prev : option ascii) (cap : option string) (k : @cont A) (x : A) :
  forallb_string (cls_match icase c) run = true ->
  head_avoids (cls_match icase c) rest ->
  min <= String.length run ->
  k (last_char prev run) rest cap = Some x ->
  rep_greedy icase c min prev (run +:+ rest) cap k = Some x.
Proof.
  revert min prev. induction run as [|a run IH]; intros min prev Hrun Hrest Hmin Hk; sapp.
  - simpl in *. assert (min = 0) as -> by lia.
    destruct rest as [|b rest]; [exact Hk|]. simpl in *. by rewrite Hrest.
  - simpl in *. apply andb_true_iff in Hrun as [Ha Hrun]. rewrite Ha.
    rewrite (IH (Nat.pred min) (Some a)); [done | done | done | lia | done].
Qed.

Lemma rep_greedy_fails {A : Type} (icase : bool) (c : cls) (run rest : string) (min : nat)
    (prev : option ascii) (cap : option string) (k : @cont A) :
  forallb_string (cls_match icase c) run = true ->
  head_avoids (cls_match icase c) rest ->
  (forall r1 r2, run = r1 +:+ r2 -> min <= String.length r1 ->
     k (last_char prev r1) (r2 +:+ rest) cap = None) ->
  rep_greedy icase c min prev (run +:+ rest) cap k = None.
Proof.
  revert min prev. induction run as [|a run IH]; intros min prev Hrun Hrest Hk; sapp.
  - assert (match min with 0 => k prev rest cap | S _ => None end = None) as Hstop.
    { destruct min; [|done]. apply (Hk "" ""); [done | simpl; lia]. }
    destruct rest as [|b rest]; [exact Hstop|]. simpl in *. by rewrite Hrest.
  - simpl in *. apply andb_true_iff in Hrun as [Ha Hrun]. rewrite Ha.
    rewrite (IH (Nat.pred min) (Some a)); [| done | done |].
    + simpl. destruct min; [|done]. apply (Hk "" (String a run)); [done | simpl; lia].
    + intros r1 r2 -> Hm. apply (Hk (String a r1) r2); [done | simpl; lia].
Qed.

Lemma head_avoids_app (P : ascii -> bool) (s t : string) :
  forallb_string (fun a => negb (P a)) s = true -> head_avoids P t -> head_avoids P (s +:+ t).
Proof.
  destruct s as [|a s]; sapp; [done|]. simpl.
  intros [H _]%andb_true_iff _. by apply negb_true_iff.
Qed.

(** *** Patterns that need white space *)

Lemma rep_greedy_no_cont {A : Type} (icase : bool) (c : cls) (P : ascii -> bool)
    (min : nat) (prev : option ascii) (s : string) (cap : option string) (k : @cont A) :
  (forall p s' c', forallb_string (fun a => negb (P a)) s' = true -> k p s' c' = None) ->
  forallb_string (fun a => negb (P a)) s = true ->
  rep_greedy icase c min prev s cap k = None.
Proof.
  intros Hk. revert min prev. induction s as [|a s IH]; intros min prev Hs.
  - simpl. destruct min; [by apply Hk | done].
  - assert (match min with 0 => k prev (String a s) cap | S _ => None end = None) as Hstop.
    { destruct min; [by apply Hk | done]. }
    simpl in *. apply andb_true_iff in Hs as [_ Hs].
    destruct (cls_match icase c a); [|exact Hstop]. by rewrite IH, Hstop.
Qed.

Lemma rmatch_no_cont {A : Type} (icase : bool) (P : ascii -> bool) (r : regex) :
  forall (prev : option ascii) (s : string) (cap : option string) (k : @cont A),
    (forall p s' c', forallb_string (fun a => negb (P a)) s' = true -> k p s' c' = None) ->
    forallb_string (fun a => negb (P a)) s = true ->
    rmatch icase r prev s cap k = None.
Proof.
  induction r as [| c | | | | r1 IH1 r2 IH2 | r1 IH1 r2 IH2 | r1 IH1 | min c | r1 IH1];
    intros prev s cap k Hk Hs; simpl.
  - by apply Hk.
  - destruct s as [|a s]; [done|]. simpl in Hs. apply andb_true_iff in Hs as [_ Hs].
    destruct (cls_match icase c a); [by apply Hk | done].
  - destruct (xorb _ _); [by apply Hk | done].
  - destruct prev; [done | by apply Hk].
  - destruct s; [by apply Hk | done].
  - apply IH1; [|done]. intros p s' c' Hs'. by apply IH2.
  - by rewrite IH1, IH2.
  - rewrite IH1 by done. by apply Hk.
  - by apply (rep_greedy_no_cont _ _ P).
  - apply IH1; [|done]. intros p s' c' Hs'. by apply Hk.
Qed.

Lemma rmatch_consumes_space {A : Type} (icase : bool) (r : regex) :
  consumes_space r = true ->
  forall (prev : option ascii) (s : string) (cap : option string) (k : @cont A),
    forallb_string (fun a => negb (is_space a)) s = true ->
    rmatch icase r prev s cap k = None.
Proof.
  induction r as [| c | | | | r1 IH1 r2 IH2 | r1 IH1 r2 IH2 | r1 IH1 | min c | r1 IH1];
    simpl; intros Hc prev s cap k Hs; try discriminate.
  - destruct c; try discriminate. destruct s as [|a s]; [done|]. simpl in *.
    apply andb_true_iff in Hs as [Ha _]. apply negb_true_iff in Ha. by rewrite Ha.
  - apply orb_true_iff in Hc as [Hc|Hc]; [by apply IH1|].
    apply (rmatch_no_cont _ is_space); [|done]. intros p s' c' Hs'. by apply IH2.
  - apply andb_true_iff in Hc as [H1 H2]. by rewrite IH1, IH2.
  - destruct min as [|min]; [discriminate|]. destruct c; try discriminate.
    destruct s as [|a s]; [done|]. simpl in *.
    apply andb_true_iff in Hs as [Ha _]. apply negb_true_iff in Ha. by rewrite Ha.
  - by apply IH1.
Qed.

Lemma forallb_string_tail (P : ascii -> bool) (a : ascii) (s : string) :
  forallb_string P (String a s) = true -> forallb_string P s = true.
Proof. simpl. by intros [_ H]%andb_true_iff. Qed.

Lemma exec_consumes_space (p : pattern) (s : string) :
  consumes_space (pat_re p) = true ->
  forallb_string (fun a => negb (is_space a)) s = true ->
  exec p s = None.
Proof.
  intros Hc. unfold exec. generalize (@None ascii).
  induction s as [|a s IH]; intros prev Hs; simpl; unfold match_here;
    rewrite (rmatch_consumes_space _ _ Hc) by done; [done|].
  apply IH. by eapply forallb_string_tail.
Qed.

(** *** A pattern that begins with a word boundary inside a word *)

Lemma search_inside_word (p : pattern) (r : regex) (P : ascii -> bool) (a : ascii)
    (s : string) :
  pat_re p = Seq Bnd r ->
  begins_with (pat_icase p) P r ->
  is_word a = true ->
  forallb_string is_word s = true ->
  search_from p (Some a) s = None.
Proof.
  intros Hp Hb. revert a. induction s as [|b s IH]; intros a Ha Hs.
  - simpl. unfold match_here. rewrite Hp. simpl. rewrite Ha. simpl.
    by rewrite (rmatch_begins _ P).
  - simpl in Hs. apply andb_true_iff in Hs as [Hb' Hs].
    simpl. unfold match_here. rewrite Hp. simpl. rewrite Ha, Hb'. simpl.
    by apply IH.
Qed.

(** The first position decides for a word: a pattern that begins with a
    word boundary matches a text of word characters at its start or not
    at all. *)
Lemma exec_word (p : pattern) (r : regex) (P : ascii -> bool) (s : string) :
  pat_re p = Seq Bnd r ->
  begins_with (pat_icase p) P r ->
  forallb_string is_word s = true ->
  exec p s = match_here p None s.
Proof.
  intros Hp Hb Hs. unfold exec. destruct s as [|a s].
  - simpl. by destruct (match_here p None "").
  - simpl. destruct (match_here p None (String a s)); [done|].
    simpl in Hs. apply andb_true_iff in Hs as [Ha Hs]. by eapply search_inside_word.
Qed.

(** *** Replacing every match by the empty string *)

Lemma string_length_app (s t : string) :
  String.length (s +:+ t) = String.length s + String.length t.
Proof. induction s as [|a s IH]; sapp; simpl; [done | by rewrite IH]. Qed.

Lemma substring_app_run (run rest : string) :
  String.substring 0 (String.length run) (run +:+ rest) = run.
Proof. induction run as [|a run IH]; sapp; simpl; [by destruct rest | by rewrite IH]. Qed.

Lemma substring_all (s : string) : String.substring 0 (String.length s) s = s.
Proof. induction s as [|a s IH]; simpl; [done | by rewrite IH]. Qed.

Lemma remove_chars_app (P : ascii -> bool) (s t : string) :
  remove_chars P (s +:+ t) = remove_chars P s +:+ remove_chars P t.
Proof.
  induction s as [|a s IH]; sapp; simpl; [done|]. destruct (P a); [done|]. sapp. by rewrite IH.
Qed.

Lemma remove_chars_none (P : ascii -> bool) (s : string) :
  forallb_string (fun a => negb (P a)) s = true -> remove_chars P s = s.
Proof.
  induction s as [|a s IH]; simpl; [done|].
  intros [Ha Hs]%andb_true_iff. apply negb_true_iff in Ha. by rewrite Ha, IH.
Qed.

Lemma remove_chars_all (P : ascii -> bool) (s : string) :
  forallb_string P s = true -> remove_chars P s = "".
Proof.
  induction s as [|a s IH]; simpl; [done|].
  intros [Ha Hs]%andb_true_iff. by rewrite Ha, IH.
Qed.

(** A greedy repetition that is followed by nothing takes a run of
    matching characters. *)
Lemma rep_greedy_split (k : cls) (s : string) (min : nat) (prev : option ascii) :
  min <= 1 ->
  (min = 1 -> exists a s', s = String a s' /\ cls_match false k a = true) ->
  exists run rest,
    s = run +:+ rest /\ forallb_string (cls_match false k) run = true /\
    min <= String.length run /\
    rep_greedy false k min prev s None (fun _ s' c => Some (MatchResult s' c))
      = Some (MatchResult rest None).
Proof.
  revert min prev. induction s as [|a s IH]; intros min prev Hmin Hhead.
  - destruct min as [|min].
    + by exists "", "".
    + destruct Hhead as (a & s' & H & _); [lia | discriminate].
  - simpl. destruct (cls_match false k a) eqn:E.
    + destruct (IH (Nat.pred min) (Some a)) as (run & rest & Hs & Hrun & Hl & Hr); [lia | lia |].
      subst s. rewrite Hr.
      exists (String a run), rest. simpl. rewrite E, Hrun. repeat split; try done; lia.
    + destruct min as [|min].
      * by exists "", (String a s).
      * destruct Hhead as (a' & s' & [= <- <-] & H); [lia | congruence].
Qed.

Lemma replace_plus_exact (k : cls) (s : string) (prev : option ascii) (skip : nat) :
  forallb_string (cls_match false k) (String.substring 0 skip s) = true ->
  skip <= String.length s ->
  replace_from (Pattern (plus k) false) "" prev skip s = remove_chars (cls_match false k) s.
Proof.
  revert prev skip. induction s as [|a s IH]; intros prev skip Hrun Hskip.
  - simpl in Hskip. assert (skip = 0) as -> by lia. reflexivity.
  - destruct skip as [|n].
    + cbn -[match_here String.length]. unfold match_here. cbn -[rep_greedy String.length].
      destruct (cls_match false k a) eqn:E.
      * destruct (rep_greedy_split k (String a s) 1 prev) as (run & rest & Hs & Hr & Hl & ->);
          [lia | intros _; by exists a, s |].
        destruct run as [|b run]; [simpl in Hl; lia|]. rewrite append_cons in Hs.
        injection Hs as <- ->. cbn -[String.length].
        replace (String.length (String a (run +:+ rest)) - String.length rest)
          with (S (String.length run)) by (simpl; rewrite string_length_app; lia).
        rewrite append_nil. simpl in Hr. apply andb_true_iff in Hr as [_ Hr].
        apply IH; [rewrite substring_app_run; exact Hr | rewrite string_length_app; lia].
      * simpl. rewrite E. simpl. f_equal. apply IH; [by destruct s | lia].
    + simpl in Hrun, Hskip. apply andb_true_iff in Hrun as [Ha Hrun].
      simpl. rewrite Ha. apply IH; [done | lia].
Qed.

Lemma replace_spaces (s : string) : replace_all re_spaces "" s = remove_chars is_space s.
Proof.
  unfold replace_all, re_spaces. rewrite replace_plus_exact; [done | by destruct s | lia].
Qed.

Lemma replace_char_exact (x : ascii) (s : string) (prev : option ascii) :
  replace_from (Pattern (Chr (CChar x)) false) "" prev 0 s = remove_chars (Ascii.eqb x) s.
Proof.
  revert prev. induction s as [|a s IH]; intros prev; [reflexivity|].
  cbn -[String.length]. destruct (Ascii.eqb x a) eqn:E.
  - cbn -[String.length].
    replace (String.length (String a s) - String.length s) with 1 by (simpl; lia).
    rewrite append_nil. apply IH.
  - simpl. by rewrite IH.
Qed.

Lemma replace_hyphens (s : string) : replace_all re_hyphen "" s = remove_chars (Ascii.eqb "-") s.
Proof. apply replace_char_exact. Qed.

(** *** Letters, separators and digits *)

Lemma letter_facts (a : ascii) :
  is_letter a = true ->
  is_space a = false /\ Ascii.eqb "-" a = false /\ is_digit a = false /\
  is_word a = true /\ is_upper (upper_char a) = true /\
  cls_match true upperAZ a = true /\ cls_match true dash_or_space a = false.
Proof.
  destruct a as [[] [] [] [] [] [] [] []]; vm_compute; intros; repeat split; congruence.
Qed.

Lemma upper_facts (a : ascii) :
  is_upper a = true ->
  is_letter a = true /\ upper_char a = a /\ cls_match false upperAZ a = true /\
  cls_match false CDigit a = false.
Proof.
  destruct a as [[] [] [] [] [] [] [] []]; vm_compute; intros; repeat split; congruence.
Qed.

Lemma digit_class (a : ascii) :
  is_digit a = true ->
  is_letter a = false /\ is_word a = true /\ cls_match true upperAZ a = false /\
  cls_match false upperAZ a = false /\ cls_match true dash_or_space a = false /\
  cls_match true CDigit a = true.
Proof.
  destruct a as [[] [] [] [] [] [] [] []]; vm_compute; intros; repeat split; congruence.
Qed.

Lemma sep_facts (a : ascii) :
  is_dash_or_space a = true ->
  cls_match true dash_or_space a = true /\ cls_match true upperAZ a = false /\
  (Ascii.eqb "-" a = false -> is_space a = true).
Proof.
  destruct a as [[] [] [] [] [] [] [] []]; vm_compute; intros; repeat split; congruence.
Qed.

Lemma toUpperCase_app (s t : string) : toUpperCase (s +:+ t) = toUpperCase s +:+ toUpperCase t.
Proof.
  unfold toUpperCase. induction s as [|a s IH]; sapp; simpl; [done|]. sapp. by rewrite IH.
Qed.

Lemma remove_seps (s : string) :
  forallb_string is_dash_or_space s = true ->
  remove_chars (Ascii.eqb "-") (remove_chars is_space s) = "".
Proof.
  induction s as [|a s IH]; cbn [remove_chars forallb_string]; [done|].
  intros [Ha Hs]%andb_true_iff. apply sep_facts in Ha as (_ & _ & Ha).
  destruct (is_space a) eqn:E; [by apply IH|]. cbn [remove_chars].
  destruct (Ascii.eqb "-" a) eqn:E'; [by apply IH|]. by specialize (Ha eq_refl).
Qed.

(** The value of [_detectMRN] for a group made of letters, separators
    and digits. *)
Lemma normalized_group (letters sep digits : string) :
  forallb_string is_letter letters = true ->
  forallb_string is_dash_or_space sep = true ->
  forallb_string is_digit digits = true ->
  toUpperCase (replace_all re_hyphen ""
                 (replace_all re_spaces "" (letters +:+ sep +:+ digits)))
    = toUpperCase letters +:+ digits.
Proof.
  intros Hl Hs Hd. rewrite replace_spaces, replace_hyphens, !remove_chars_app.
  rewrite (remove_chars_none is_space letters), (remove_chars_none is_space digits); cycle 1.
  { eapply forallb_string_impl; [|exact Hd]. intros a Ha.
    by apply digit_facts in Ha as (? & _). }
  { eapply forallb_string_impl; [|exact Hl]. intros a Ha.
    apply letter_facts in Ha as (-> & _). done. }
  rewrite (remove_chars_none _ letters), (remove_chars_none _ digits), remove_seps; try done.
  - sapp. by rewrite toUpperCase_app, (toUpperCase_digits digits).
  - eapply forallb_string_impl; [|exact Hd]. intros a Ha.
    by apply digit_facts in Ha as (_ & ? & _).
  - eapply forallb_string_impl; [|exact Hl]. intros a Ha.
    apply letter_facts in Ha as (_ & -> & _). done.
Qed.

Lemma letters_head (letters : string) :
  forallb_string is_letter letters = true -> 1 <= String.length letters ->
  exists a s, letters = String a s /\ is_letter a = true.
Proof.
  destruct letters as [|a s]; simpl; [lia|]. intros [Ha _]%andb_true_iff _. by exists a, s.
Qed.

Lemma digits_word (digits : string) :
  forallb_string is_digit digits = true -> forallb_string is_word digits = true.
Proof. apply forallb_string_impl. intros a Ha. by apply digit_class in Ha as (_ & ? & _). Qed.

Lemma letters_word (letters : string) :
  forallb_string is_letter letters = true -> forallb_string is_word letters = true.
Proof.
  apply forallb_string_impl. intros a Ha.
  by apply letter_facts in Ha as (_ & _ & _ & ? & _).
Qed.

Lemma digits_head_avoids (P : ascii -> bool) (digits : string) :
  (forall a, is_digit a = true -> P a = false) ->
  forallb_string is_digit digits = true -> head_avoids P digits.
Proof.
  intros HP. destruct digits as [|a s]; simpl; [done|]. intros [Ha _]%andb_true_iff. by apply HP.
Qed.

(** Pattern 1 on the keyword followed by letters and digits, with any
    separators in between. *)
Lemma pattern1_group (sep0 letters sep digits : string) :
  forallb_string is_dash_or_space sep0 = true ->
  forallb_string is_letter letters = true ->
  2 <= String.length letters ->
  forallb_string is_dash_or_space sep = true ->
  forallb_string is_digit digits = true ->
  digits <> "" ->
  match_here mrn_pattern1 None ("MRN" +:+ sep0 +:+ letters +:+ sep +:+ digits)
    = Some (MatchResult "" (Some (letters +:+ sep +:+ digits))).
Proof.
  intros H0 Hl Hl2 Hs Hd Hd1.
  destruct (letters_head letters Hl ltac:(lia)) as (l1 & ls & El & Hl1).
  unfold match_here, mrn_pattern1. sapp. cbn -[rep_greedy String.append String.substring].
  apply rep_greedy_run.
  { eapply forallb_string_impl; [|exact H0]. intros a Ha. by apply sep_facts in Ha as (? & _). }
  { rewrite El. sapp. simpl. by apply letter_facts in Hl1 as (_ & _ & _ & _ & _ & _ & ?). }
  { lia. }
  cbn -[rep_greedy String.append String.substring String.length].
  apply rep_greedy_run.
  { eapply forallb_string_impl; [|exact Hl]. intros a Ha.
    by apply letter_facts in Ha as (_ & _ & _ & _ & _ & ? & _). }
  { apply head_avoids_app.
    - eapply forallb_string_impl; [|exact Hs]. intros a Ha.
      apply sep_facts in Ha as (_ & -> & _). done.
    - apply digits_head_avoids; [|done]. intros a Ha.
      by apply digit_class in Ha as (_ & _ & ? & _). }
  { done. }
  apply rep_greedy_run.
  { eapply forallb_string_impl; [|exact Hs]. intros a Ha. by apply sep_facts in Ha as (? & _). }
  { apply digits_head_avoids; [|done]. intros a Ha.
    by apply digit_class in Ha as (_ & _ & _ & _ & ? & _). }
  { lia. }
  rewrite <- (append_empty_r digits) at 1.
  apply rep_greedy_run.
  { eapply forallb_string_impl; [|exact Hd]. intros a Ha.
    by apply digit_class in Ha as (_ & _ & _ & _ & _ & ?). }
  { done. }
  { destruct digits; [done | simpl; lia]. }
  cbn -[String.append String.substring String.length last_char].
  rewrite (last_char_word _ digits Hd1 (digits_word digits Hd)).
  cbn -[String.append String.substring String.length].
  by rewrite Nat.sub_0_r, substring_all.
Qed.

Lemma search_from_here (p : pattern) (prev : option ascii) (s : string) (r : match_result) :
  match_here p prev s = Some r -> search_from p prev s = Some r.
Proof. intros H. destruct s; simpl; by rewrite H. Qed.

(** [/^\d+$/] does not match a text that begins with a letter. *)
Lemma test_all_digits_letter (a : ascii) (s : string) :
  is_letter a = true -> test re_all_digits (String a s) = false.
Proof.
  intros Ha. apply letter_facts in Ha as (_ & _ & Hd & _).
  unfold test, exec. cbn [search_from]. unfold match_here at 1.
  cbn -[is_digit search_from]. rewrite Hd.
  assert (forall prev, search_from re_all_digits (Some prev) s = None) as ->; [|done].
  induction s as [|b s IH]; intros prev; [done|].
  cbn [search_from]. unfold match_here. cbn -[search_from]. apply IH.
Qed.

Lemma toUpperCase_letters (letters : string) :
  forallb_string is_letter letters = true ->
  forallb_string is_upper (toUpperCase letters) = true.
Proof.
  unfold toUpperCase. induction letters as [|a s IH]; simpl; [done|].
  intros [Ha Hs]%andb_true_iff. apply letter_facts in Ha as (_ & _ & _ & _ & -> & _).
  by apply IH.
Qed.

Lemma upper_letters (s : string) :
  forallb_string is_upper s = true -> forallb_string is_letter s = true.
Proof. apply forallb_string_impl. intros a Ha. by apply upper_facts in Ha as (? & _). Qed.

Lemma toUpperCase_upper (s : string) :
  forallb_string is_upper s = true -> toUpperCase s = s.
Proof.
  unfold toUpperCase. induction s as [|a s IH]; simpl; [done|].
  intros [Ha Hs]%andb_true_iff. apply upper_facts in Ha as (_ & -> & _). by rewrite IH.
Qed.

Lemma toUpperCase_length (s : string) : String.length (toUpperCase s) = String.length s.
Proof. unfold toUpperCase. induction s as [|a s IH]; simpl; [done | by rewrite IH]. Qed.

(** Upper-case letters followed by digits pass the final check of
    [_detectMRN] and are not taken for a number. *)
Lemma upper_digits_valid (upper digits : string) :
  forallb_string is_upper upper = true -> upper <> "" ->
  forallb_string is_digit digits = true -> digits <> "" ->
  test re_all_digits (upper +:+ digits) = false /\ mrn_valid (upper +:+ digits) = true.
Proof.
  intros Hu Hu1 Hd Hd1. destruct upper as [|a u]; [done|]. destruct digits as [|d ds]; [done|].
  simpl in Hu, Hd. apply andb_true_iff in Hu as [Ha _]. apply andb_true_iff in Hd as [Hd _].
  split.
  - sapp. apply test_all_digits_letter. by apply upper_facts in Ha as (? & _).
  - unfold mrn_valid. rewrite test_has_upper, test_has_digit, !existsb_string_app.
    simpl. by rewrite Ha, Hd, !orb_true_r.
Qed.

(** The candidate that a pattern yields for a group of letters,
    separators and digits. *)
Lemma group_candidate (p : pattern) (text letters sep digits : string) :
  match1 p text = Some (letters +:+ sep +:+ digits) ->
  forallb_string is_letter letters = true -> letters <> "" ->
  forallb_string is_dash_or_space sep = true ->
  forallb_string is_digit digits = true -> digits <> "" ->
  mrn_candidate p text = Some (toUpperCase letters +:+ digits) /\
  mrn_valid (toUpperCase letters +:+ digits) = true.
Proof.
  intros Hm Hl Hl1 Hs Hd Hd1. unfold mrn_candidate. rewrite Hm.
  assert (truthy (letters +:+ sep +:+ digits) = true) as ->.
  { destruct letters; [done|]. by sapp. }
  rewrite normalized_group by done.
  destruct (upper_digits_valid (toUpperCase letters) digits) as (-> & Hv); try done.
  - by apply toUpperCase_letters.
  - by destruct letters.
Qed.

(** The keyword, letters and digits: the value is the letters in upper
    case followed by the digits, whatever separates them. *)
Lemma detectMRN_group (sep0 letters sep digits : string) :
  forallb_string is_dash_or_space sep0 = true ->
  forallb_string is_letter letters = true ->
  2 <= String.length letters ->
  forallb_string is_dash_or_space sep = true ->
  forallb_string is_digit digits = true ->
  digits <> "" ->
  _detectMRN ("MRN" +:+ sep0 +:+ letters +:+ sep +:+ digits)
    = Some (toUpperCase letters +:+ digits).
Proof.
  intros H0 Hl Hl2 Hs Hd Hd1.
  destruct (group_candidate mrn_pattern1 ("MRN" +:+ sep0 +:+ letters +:+ sep +:+ digits)
              letters sep digits) as (Hc & Hv); try done.
  { unfold match1, exec.
    by rewrite (search_from_here _ _ _ _ (pattern1_group _ _ _ _ H0 Hl Hl2 Hs Hd Hd1)). }
  { destruct letters; [simpl in Hl2; lia | done]. }
  unfold _detectMRN.
  assert (truthy ("MRN" +:+ sep0 +:+ letters +:+ sep +:+ digits) = true) as -> by by sapp.
  unfold mrn_patterns. cbn [detectMRN_loop]. by rewrite Hc, Hv.
Qed.

(** *** Detection in a value of letters and digits *)

Lemma head_word (s t : string) :
  s <> "" -> forallb_string is_word s = true -> is_word_opt (head_char (s +:+ t)) = true.
Proof. destruct s as [|a s]; [done|]. sapp. simpl. by intros _ [? _]%andb_true_iff. Qed.

Lemma candidate_none (p : pattern) (text : string) :
  exec p text = None -> mrn_candidate p text = None.
Proof. intros H. unfold mrn_candidate, match1. by rewrite H. Qed.

Lemma value_no_space (upper digits : string) :
  forallb_string is_upper upper = true -> forallb_string is_digit digits = true ->
  forallb_string (fun a => negb (is_space a)) (upper +:+ digits) = true.
Proof.
  intros Hu Hd. rewrite forallb_string_app. apply andb_true_iff. split.
  - eapply forallb_string_impl; [|exact Hu]. intros a Ha.
    apply upper_facts in Ha as (Ha & _). apply letter_facts in Ha as (-> & _). done.
  - eapply forallb_string_impl; [|exact Hd]. intros a Ha. by apply digit_facts in Ha as (? & _).
Qed.

Lemma value_word (upper digits : string) :
  forallb_string is_upper upper = true -> forallb_string is_digit digits = true ->
  forallb_string is_word (upper +:+ digits) = true.
Proof.
  intros Hu Hd. rewrite forallb_string_app. apply andb_true_iff. split.
  - by apply letters_word, upper_letters.
  - by apply digits_word.
Qed.

(** Pattern 5 takes the whole value when it ends in three digits, and
    nothing otherwise. *)
Lemma pattern5_value (upper digits : string) :
  forallb_string is_upper upper = true -> 2 <= String.length upper ->
  forallb_string is_digit digits = true -> digits <> "" ->
  match_here mrn_pattern5 None (upper +:+ digits)
    = if 3 <=? String.length digits
      then Some (MatchResult "" (Some (upper +:+ digits)))
      else None.
Proof.
  intros Hu Hu2 Hd Hd1.
  assert (Hne : upper <> "") by (destruct upper; [simpl in Hu2; lia | done]).
  assert (Hrun : forallb_string (cls_match false upperAZ) upper = true).
  { eapply forallb_string_impl; [|exact Hu]. intros a Ha.
    by apply upper_facts in Ha as (_ & _ & ? & _). }
  assert (Hrest : head_avoids (cls_match false upperAZ) digits).
  { apply digits_head_avoids; [|done]. intros a Ha.
    by apply digit_class in Ha as (_ & _ & _ & ? & _). }
  assert (Hdig : forallb_string (cls_match false CDigit) digits = true) by done.
  destruct (3 <=? String.length digits) eqn:E;
    unfold match_here, mrn_pattern5;
    cbn -[rep_greedy String.append String.substring String.length head_char];
    (rewrite head_word; [|done | by apply letters_word, upper_letters]);
    cbn -[rep_greedy String.append String.substring String.length].
  - apply Nat.leb_le in E. apply rep_greedy_run; [done | done | done |].
    rewrite <- (append_empty_r digits) at 1. apply rep_greedy_run; [done | done | done |].
    cbn -[String.append String.substring String.length last_char].
    rewrite (last_char_word _ digits Hd1 (digits_word digits Hd)).
    cbn -[String.append String.substring String.length].
    by rewrite Nat.sub_0_r, substring_all.
  - apply Nat.leb_gt in E. apply rep_greedy_fails; [done | done |].
    intros r1 r2 -> _. destruct r2 as [|b r2].
    + sapp. rewrite <- (append_empty_r digits). apply rep_greedy_fails; [done | done |].
      intros d1 d2 Hsplit Hlen. rewrite Hsplit, string_length_app in E. lia.
    + rewrite forallb_string_app in Hu. apply andb_true_iff in Hu as [_ Hu].
      simpl in Hu. apply andb_true_iff in Hu as [Hb _].
      apply upper_facts in Hb as (_ & _ & _ & Hb). sapp. simpl. simpl in Hb. by rewrite Hb.
Qed.

(** Pattern 1 does not match a value that lacks the keyword in front. *)
Lemma pattern1_value (upper digits : string) :
  forallb_string is_upper upper = true -> 2 <= String.length upper ->
  forallb_string is_digit digits = true -> digits <> "" ->
  mrn_prefixed upper = false ->
  match_here mrn_pattern1 None (upper +:+ digits) = None.
Proof.
  intros Hu Hu2 Hd Hd1 Hp.
  destruct upper as [|u1 [|u2 rest]]; [simpl in Hu2; lia | simpl in Hu2; lia|].
  destruct digits as [|d ds]; [done|].
  simpl in Hu. apply andb_true_iff in Hu as [H1 Hu]. apply andb_true_iff in Hu as [H2 Hu].
  pose proof (upper_facts u1 H1) as (L1 & U1 & _). pose proof (upper_facts u2 H2) as (_ & U2 & _).
  apply letter_facts in L1 as (_ & _ & _ & W1 & _).
  pose proof Hd as Hd'. simpl in Hd'. apply andb_true_iff in Hd' as [Dd _].
  unfold match_here, mrn_pattern1. sapp.
  cbn -[rep_greedy String.append String.substring String.length upper_char is_word].
  rewrite W1, U1, U2. cbn -[rep_greedy String.append String.substring String.length upper_char].
  change (upper_char "M") with "M"%char. change (upper_char "R") with "R"%char.
  change (upper_char "N") with "N"%char.
  destruct (Ascii.eqb "M" u1) eqn:E1; [|done]. destruct (Ascii.eqb "R" u2) eqn:E2; [|done].
  apply Ascii.eqb_eq in E1 as <-. apply Ascii.eqb_eq in E2 as <-.
  destruct rest as [|u3 rest]; sapp.
  { destruct (digit_facts d Dd) as (_ & _ & -> & _).
    destruct (Ascii.eqb "N" d) eqn:E3; [|done]. apply Ascii.eqb_eq in E3 as <-. done. }
  simpl in Hu. apply andb_true_iff in Hu as [H3 Hu].
  pose proof (upper_facts u3 H3) as (_ & -> & _).
  destruct (Ascii.eqb "N" u3) eqn:E3; [|done]. apply Ascii.eqb_eq in E3 as <-.
  unfold mrn_prefixed in Hp. cbn -[Nat.leb String.length] in Hp.
  apply Nat.leb_gt in Hp. simpl in Hp.
  assert (Hsep : forall a, is_letter a = true \/ is_digit a = true ->
                   cls_match true dash_or_space a = false).
  { intros a [Ha|Ha]; [by apply letter_facts in Ha as (_ & _ & _ & _ & _ & _ & ?)|].
    by apply digit_class in Ha as (_ & _ & _ & _ & ? & _). }
  rewrite <- (append_nil (rest +:+ _)). apply rep_greedy_fails; [done | |].
  { destruct rest as [|r rest]; sapp; simpl; apply Hsep; [by right|].
    simpl in Hu. apply andb_true_iff in Hu as [Hr _]. left.
    by apply upper_facts in Hr as (? & _). }
  intros r1 r2 Hsplit _. destruct r1; [|done]. destruct r2; [|done]. sapp.
  cbn -[rep_greedy String.append String.substring String.length].
  apply rep_greedy_fails.
  { eapply forallb_string_impl; [|exact Hu]. intros a Ha.
    apply upper_facts in Ha as (Ha & _).
    by apply letter_facts in Ha as (_ & _ & _ & _ & _ & ? & _). }
  { simpl. by apply digit_class in Dd as (_ & _ & ? & _). }
  intros r1 r2 -> Hlen. rewrite string_length_app in Hp. lia.
Qed.

(** Detection in a value of upper-case letters and digits that lacks
    the keyword in front. *)
Lemma detectMRN_value (upper digits : string) :
  forallb_string is_upper upper = true -> 2 <= String.length upper ->
  forallb_string is_digit digits = true -> digits <> "" ->
  mrn_prefixed upper = false ->
  _detectMRN (upper +:+ digits)
    = if 3 <=? String.length digits then Some (upper +:+ digits) else None.
Proof.
  intros Hu Hu2 Hd Hd1 Hp.
  assert (Hne : upper <> "") by (destruct upper; [simpl in Hu2; lia | done]).
  pose proof (value_no_space upper digits Hu Hd) as Hsp.
  pose proof (value_word upper digits Hu Hd) as Hw.
  assert (C1 : mrn_candidate mrn_pattern1 (upper +:+ digits) = None).
  { apply candidate_none. rewrite (exec_word _ _ is_letter) by (done || (simpl; by_cases_on_char)).
    by apply pattern1_value. }
  assert (C2 : mrn_candidate mrn_pattern2 (upper +:+ digits) = None).
  { by apply candidate_none, exec_consumes_space. }
  assert (C3 : mrn_candidate mrn_pattern3 (upper +:+ digits) = None).
  { by apply candidate_none, exec_consumes_space. }
  assert (C4 : mrn_candidate mrn_pattern4 (upper +:+ digits) = None).
  { by apply candidate_none, exec_consumes_space. }
  assert (E5 : exec mrn_pattern5 (upper +:+ digits)
               = if 3 <=? String.length digits
                 then Some (MatchResult "" (Some (upper +:+ digits))) else None).
  { rewrite (exec_word _ _ is_letter) by (done || (simpl; by_cases_on_char)).
    by apply pattern5_value. }
  unfold _detectMRN. rewrite (truthy_nonempty (upper +:+ digits)) by (destruct upper; by sapp).
  unfold mrn_patterns. cbn [detectMRN_loop]. rewrite C1, C2, C3, C4.
  destruct (3 <=? String.length digits).
  - destruct (group_candidate mrn_pattern5 (upper +:+ digits) upper "" digits) as (-> & Hv);
      try done.
    + unfold match1. by rewrite E5.
    + by apply upper_letters.
    + rewrite (toUpperCase_upper upper Hu) in Hv |- *. by rewrite Hv.
  - by rewrite (candidate_none _ _ E5).
Qed.

Lemma substring_all_from (n : nat) (s t : string) :
  String.length s = n -> String.substring n (String.length (s +:+ t) - n) (s +:+ t) = t.
Proof.
  revert n. induction s as [|a s IH]; intros n Hn; simpl in Hn; subst n.
  - sapp. rewrite Nat.sub_0_r. apply substring_all.
  - sapp. simpl. by apply IH.
Qed.

Lemma starts_with_split (p s : string) :
  starts_with p s = true -> exists t, s = p +:+ t.
Proof.
  revert s. induction p as [|a p IH]; intros s; [by exists s|].
  destruct s as [|b s]; simpl; [done|].
  intros [Hab Hs]%andb_true_iff. apply Ascii.eqb_eq in Hab as <-.
  destruct (IH s Hs) as (t & ->). by exists t.
Qed.

(** C7 (amended): MRN detection normalizes.  For the keyword "MRN", any run of
    white space and hyphens, two or more letters, any run of white space
    and hyphens and one or more digits, [_detectMRN] returns the letters
    in upper case followed by the digits, whatever the separators are.
    Detection applied to that value returns it unchanged exactly when it
    ends in three or more digits and does not begin with "MRN" followed
    by two or more letters; a value with that prefix is returned
    without it, and any other value is not detected. *)
Theorem mrn_normalization_idempotent (sep0 letters sep digits : string) :
  forallb_string is_dash_or_space sep0 = true ->
  forallb_string is_letter letters = true ->
  2 <= String.length letters ->
  forallb_string is_dash_or_space sep = true ->
  forallb_string is_digit digits = true ->
  digits <> "" ->
  let value := toUpperCase letters +:+ digits in
  _detectMRN ("MRN" +:+ sep0 +:+ letters +:+ sep +:+ digits) = Some value /\
  _detectMRN value =
    if mrn_prefixed (toUpperCase letters) then Some (without_keyword value)
    else if 3 <=? String.length digits then Some value
    else None.
Proof.
  intros H0 Hl Hl2 Hs Hd Hd1 value. split; [by apply detectMRN_group|].
  pose proof (toUpperCase_letters letters Hl) as Hu.
  pose proof (toUpperCase_length letters) as Hlen.
  subst value. destruct (mrn_prefixed (toUpperCase letters)) eqn:Hp.
  - unfold mrn_prefixed in Hp. apply andb_true_iff in Hp as [Hk H5].
    apply Nat.leb_le in H5. destruct (starts_with_split _ _ Hk) as (rest & Hrest).
    rewrite Hrest in Hu, H5 |- *. rewrite forallb_string_app in Hu.
    apply andb_true_iff in Hu as [_ Hu]. rewrite string_length_app in H5. simpl in H5.
    unfold without_keyword. rewrite append_assoc, substring_all_from by done.
    rewrite <- (toUpperCase_upper rest Hu) at 2.
    apply (detectMRN_group "" rest "" digits); try done; [by apply upper_letters | lia].
  - apply detectMRN_value; try done. lia.
Qed.

Lemma mrn_normalization_idempotent_witness :
  _detectMRN "MRN AB-123" = Some "AB123" /\
  _detectMRN "MRN AB 123" = Some "AB123" /\
  _detectMRN "MRN ab - 123" = Some "AB123" /\
  _detectMRN "AB123" = Some "AB123".
Proof.
  split; [|split; [|split]].
  - exact (proj1 (mrn_normalization_idempotent " " "AB" "-" "123"
                    eq_refl eq_refl ltac:(simpl; lia) eq_refl eq_refl ltac:(discriminate))).
  - exact (proj1 (mrn_normalization_idempotent " " "AB" " " "123"
                    eq_refl eq_refl ltac:(simpl; lia) eq_refl eq_refl ltac:(discriminate))).
  - exact (proj1 (mrn_normalization_idempotent " " "ab" " - " "123"
                    eq_refl eq_refl ltac:(simpl; lia) eq_refl eq_refl ltac:(discriminate))).
  - exact (proj2 (mrn_normalization_idempotent " " "AB" "-" "123"
                    eq_refl eq_refl ltac:(simpl; lia) eq_refl eq_refl ltac:(discriminate))).
Defined.

(** Detection is not idempotent on every value it returns: the value
    returned for a bare number carries the keyword and is read again
    without it, and a value with fewer than three digits is not detected
    at all. *)
Lemma mrn_detection_not_idempotent :
  _detectMRN "MRN 123" = Some "MRNAB123" /\ _detectMRN "MRNAB123" = Some "AB123" /\
  _detectMRN "MRN AB-12" = Some "AB12" /\ _detectMRN "AB12" = None /\
  ~ (forall text value, _detectMRN text = Some value -> _detectMRN value = Some value).
Proof.
  repeat split; try reflexivity.
  intros H. by specialize (H "MRN 123" "MRNAB123" eq_refl).
Qed.


(** ** The session store *)

Lemma digits_pos_digits (p : positive) : digits_pos (pos_digits p) = Some p.
Proof. induction p as [q IH|q IH|]; simpl; by rewrite ?IH. Qed.

Lemma codec_round_trip (v : json) : codec_parse (codec_stringify v) = Some v.
Proof.
  unfold codec_parse, codec_stringify. rewrite digits_pos_digits. simpl. apply decode_encode.
Qed.

Lemma codec_not_empty (v : json) : codec_stringify v <> "".
Proof. unfold codec_stringify. by destruct (encode v). Qed.

(** An index is written with digits, so it is not the name of a field
    that the class reads. *)
Lemma pretty_N_go_head (a : ascii) (x : N) (s : string) :
  is_digit a = false ->
  (forall s', s <> String a s') -> forall s', pretty_N_go x s <> String a s'.
Proof.
  intros Ha. revert s. induction (N.lt_wf_0 x) as [x _ IH]; intros s Hs s'.
  assert (x = 0 ∨ 0 < x)%N as [->|?] by lia.
  - rewrite pretty_N_go_0. apply Hs.
  - rewrite pretty_N_go_step by done. apply IH.
    { by apply N.div_lt. }
    intros s'' [= E _]. rewrite <- E in Ha. revert Ha.
    unfold pretty_N_char. by repeat case_match.
Qed.

Lemma pretty_index_head (a : ascii) (i : nat) (s' : string) :
  is_digit a = false -> pretty i <> String a s'.
Proof.
  intros Ha. unfold pretty, pretty_nat, pretty, pretty_N. case_decide.
  - intros [= E _]. by rewrite <- E in Ha.
  - by apply pretty_N_go_head.
Qed.

Lemma indexed_named {A : Type} (f : A -> jsval) (l : list A) (a : ascii) (name : string) :
  is_digit a = false -> indexed f l !! String a name = None.
Proof.
  intros Ha. unfold indexed. apply not_elem_of_list_to_map_1.
  rewrite list_elem_of_fmap. intros ([k v] & Hk & Hin). simpl in Hk.
  apply elem_of_lookup_imap in Hin as (i & x & [= -> _] & _).
  by eapply pretty_index_head.
Qed.

(** Reading a field through a copy of the own fields is reading it from
    the value. *)
Lemma own_fields_named (v : json) (a : ascii) (name : string) :
  is_digit a = false -> own_fields v !! String a name = named_field v (String a name).
Proof.
  intros Ha. destruct v; simpl; try done; by apply indexed_named.
Qed.

Section SessionLaws.
Variable accepts : gmap string string -> string -> string -> bool.
Variable stringify : json -> string.
Variable parse : string -> option json.

Lemma getSessionData_set_other (ls : gmap string string) (key v : string) :
  key <> SESSION_DATA ->
  getSessionData parse (<[key := v]> ls) = getSessionData parse ls.
Proof.
  intros H. unfold getSessionData, getItem. by rewrite lookup_insert_ne.
Qed.

Lemma getSessionData_remove_other (ls : gmap string string) (key : string) :
  key <> SESSION_DATA ->
  getSessionData parse (removeItem ls key) = getSessionData parse ls.
Proof.
  intros H. unfold getSessionData, getItem, removeItem. by rewrite lookup_delete_ne.
Qed.

Lemma getSessionData_unparsable (ls : gmap string string) (bad : string) :
  parse bad = None -> getSessionData parse (<[SESSION_DATA := bad]> ls) = JObject ∅.
Proof.
  intros Hbad. unfold getSessionData, getItem.
  rewrite lookup_insert_eq, Hbad. by destruct (truthy bad).
Qed.

End SessionLaws.

Section JsonLaws.
Variable accepts : gmap string string -> string -> string -> bool.
Variable stringify : json -> string.
Variable parse : string -> option json.
Hypothesis parse_stringify : forall x, parse (stringify x) = Some x.
Hypothesis stringify_not_empty : forall x, stringify x <> "".
Hypothesis session_writes : forall l x, accepts l SESSION_DATA x = true.

Lemma getSessionData_written (ls : gmap string string) (v : json) :
  getSessionData parse (<[SESSION_DATA := stringify v]> ls) = v.
Proof.
  unfold getSessionData, getItem. rewrite lookup_insert_eq.
  rewrite (truthy_nonempty _ (stringify_not_empty v)). by rewrite parse_stringify.
Qed.

Lemma getSessionData_saveSessionData (now : Z) (data : gmap string jsval)
    (ls : gmap string string) :
  getSessionData parse (saveSessionData accepts stringify parse now data ls)
    = JObject (<["timestamp" := JNum now]> (data ∪ own_fields (getSessionData parse ls))).
Proof.
  unfold saveSessionData, spread, setItem. rewrite session_writes.
  by rewrite getSessionData_written.
Qed.

Lemma getSessionData_update (now : Z) (field : string) (v : jsval) (ls : gmap string string) :
  getSessionData parse (_updateSessionData accepts stringify parse now {[field := v]} ls)
    = JObject (<["timestamp" := JNum now]>
                 (<[field := v]> (own_fields (getSessionData parse ls)))).
Proof.
  unfold _updateSessionData. rewrite getSessionData_saveSessionData. unfold spread.
  do 2 f_equal. rewrite <- (assoc_L (∪)), (idemp_L (∪)).
  by rewrite insert_union_singleton_l.
Qed.

Lemma getSessionData_save_shape (key field : string) (now : Z) (v : string)
    (ls : gmap string string) :
  key <> SESSION_DATA -> v <> "" -> accepts ls key v = true ->
  getSessionData parse (save_shape accepts stringify parse key field now v ls)
    = JObject (<["timestamp" := JNum now]>
                 (<[field := JStr v]> (own_fields (getSessionData parse ls)))).
Proof.
  intros Hk Hv Ha. unfold save_shape. rewrite (truthy_nonempty v Hv). cbn [negb].
  rewrite (setItem_accepted _ _ _ _ Ha), getSessionData_update.
  by rewrite getSessionData_set_other.
Qed.

Lemma getSessionData_clear_shape (key field : string) (ls : gmap string string) :
  key <> SESSION_DATA ->
  getSessionData parse (clear_shape accepts stringify parse key field ls)
    = delete_field field (getSessionData parse ls).
Proof.
  intros Hk. unfold clear_shape. rewrite getSessionData_remove_other by done.
  destruct (getSessionData parse ls) eqn:E; unfold setItem; rewrite ?session_writes;
    rewrite ?getSessionData_written; try done.
  by rewrite getSessionData_remove_other.
Qed.

End JsonLaws.



Lemma getSessionData_after_save (accepts : gmap string string -> string -> string -> bool)
    (stringify : json -> string) (parse : string -> option json) (now : Z) (v : string)
    (data : gmap string jsval) (ls : gmap string string) :
  (forall x, parse (stringify x) = Some x) ->
  (forall x, stringify x <> "") ->
  (forall l x, accepts l SESSION_DATA x = true) ->
  v <> "" ->
  let old := own_fields (getSessionData parse ls) in
  (accepts ls CURRENT_MRN v = true ->
   getSessionData parse (saveMRN accepts stringify parse now v ls)
     = JObject (<["timestamp" := JNum now]> (<["mrn" := JStr v]> old))) /\
  (accepts ls CURRENT_TEMPLATE v = true ->
   getSessionData parse (saveTemplate accepts stringify parse now v ls)
     = JObject (<["timestamp" := JNum now]> (<["template" := JStr v]> old))) /\
  (accepts ls CURRENT_TRANSCRIPT v = true ->
   getSessionData parse (saveTranscript accepts stringify parse now v ls)
     = JObject (<["timestamp" := JNum now]> (<["transcript" := JStr v]> old))) /\
  getSessionData parse (saveSessionData accepts stringify parse now data ls)
    = JObject (<["timestamp" := JNum now]> (data ∪ old)) /\
  (forall bad, parse bad = None ->
     getSessionData parse (<[SESSION_DATA := bad]> ls) = JObject ∅).
Proof.
  intros H1 H2 H3 Hv old.
  change (saveTemplate accepts stringify parse)
    with (save_shape accepts stringify parse CURRENT_TEMPLATE "template").
  change (saveTranscript accepts stringify parse)
    with (save_shape accepts stringify parse CURRENT_TRANSCRIPT "transcript").
  change (saveMRN accepts stringify parse)
    with (save_shape accepts stringify parse CURRENT_MRN "mrn").
  repeat split; try (intros Ha; by apply getSessionData_save_shape).
  - by apply getSessionData_saveSessionData.
  - apply getSessionData_unparsable.
Qed.

(** X22: The session object mirrors what is saved.  When [JSON.parse]
    reads back what [JSON.stringify] wrote, no value is written as the
    empty string and the store takes the writes of the session text,
    then after a [saveMRN(m)] whose write the store takes the session
    object holds [mrn = m] and a fresh [timestamp] over the fields that
    the stored value had, and likewise for the template and the
    transcript; [saveSessionData(data)] merges [data] over those
    fields.  A stored session that cannot be parsed counts as empty. *)
Theorem session_object_mirrors_saves
    (accepts : gmap string string -> string -> string -> bool)
    (stringify : json -> string) (parse : string -> option json) (now : Z) (v : string)
    (data : gmap string jsval) (ls : gmap string string) :
  (forall x, parse (stringify x) = Some x) ->
  (forall x, stringify x <> "") ->
  (forall l x, accepts l SESSION_DATA x = true) ->
  v <> "" ->
  let old := own_fields (getSessionData parse ls) in
  (accepts ls CURRENT_MRN v = true ->
   getSessionData parse (saveMRN accepts stringify parse now v ls)
     = JObject (<["timestamp" := JNum now]> (<["mrn" := JStr v]> old))) /\
  (accepts ls CURRENT_TEMPLATE v = true ->
   getSessionData parse (saveTemplate accepts stringify parse now v ls)
     = JObject (<["timestamp" := JNum now]> (<["template" := JStr v]> old))) /\
  (accepts ls CURRENT_TRANSCRIPT v = true ->
   getSessionData parse (saveTranscript accepts stringify parse now v ls)
     = JObject (<["timestamp" := JNum now]> (<["transcript" := JStr v]> old))) /\
  getSessionData parse (saveSessionData accepts stringify parse now data ls)
    = JObject (<["timestamp" := JNum now]> (data ∪ old)) /\
  (forall bad, parse bad = None ->
     getSessionData parse (<[SESSION_DATA := bad]> ls) = JObject ∅).
Proof. exact (getSessionData_after_save accepts stringify parse now v data ls). Qed.

Lemma session_object_mirrors_saves_witness :
  getSessionData codec_parse (saveMRN roomy codec_stringify codec_parse 10 "AB123" ∅)
    = JObject (<["timestamp" := JNum 10]>
                 (<["mrn" := JStr "AB123"]> (own_fields (getSessionData codec_parse ∅)))).
Proof.
  exact (proj1 (session_object_mirrors_saves roomy codec_stringify codec_parse 10 "AB123" ∅ ∅
                  codec_round_trip codec_not_empty (fun _ _ => eq_refl)
                  ltac:(discriminate)) eq_refl).
Defined.

Lemma clear_frame (accepts : gmap string string -> string -> string -> bool)
    (stringify : json -> string) (parse : string -> option json) (ls : gmap string string) :
  (getMRN (clearMRN accepts stringify parse ls) = None /\
   getTemplate (clearMRN accepts stringify parse ls) = getTemplate ls /\
   getTranscript (clearMRN accepts stringify parse ls) = getTranscript ls) /\
  (getTemplate (clearTemplate accepts stringify parse ls) = None /\
   getMRN (clearTemplate accepts stringify parse ls) = getMRN ls /\
   getTranscript (clearTemplate accepts stringify parse ls) = getTranscript ls) /\
  ((forall x, parse (stringify x) = Some x) ->
   (forall x, stringify x <> "") ->
   (forall l x, accepts l SESSION_DATA x = true) ->
   getSessionData parse (clearMRN accepts stringify parse ls)
     = delete_field "mrn" (getSessionData parse ls) /\
   getSessionData parse (clearTemplate accepts stringify parse ls)
     = delete_field "template" (getSessionData parse ls)).
Proof.
  change (clearMRN accepts stringify parse)
    with (clear_shape accepts stringify parse CURRENT_MRN "mrn").
  change (clearTemplate accepts stringify parse)
    with (clear_shape accepts stringify parse CURRENT_TEMPLATE "template").
  unfold getMRN, getTemplate, getTranscript.
  rewrite !clear_shape_other_key by done.
  rewrite !get_or_null_remove. rewrite !get_or_null_remove_ne by done.
  repeat split; by apply getSessionData_clear_shape.
Qed.

(** X23: [clearMRN()] removes the stored MRN and leaves the template and
    the transcript as they were, in every store; under the assumptions
    of X22 on [JSON] and on the writes of the session text it removes
    the [mrn] field of a stored session object and leaves the other
    fields, its old [timestamp] included, and it leaves a stored value
    that is not an object as it is.  [clearTemplate()] does the same
    for the template. *)
Theorem clear_one_value (accepts : gmap string string -> string -> string -> bool)
    (stringify : json -> string) (parse : string -> option json) (ls : gmap string string) :
  (getMRN (clearMRN accepts stringify parse ls) = None /\
   getTemplate (clearMRN accepts stringify parse ls) = getTemplate ls /\
   getTranscript (clearMRN accepts stringify parse ls) = getTranscript ls) /\
  (getTemplate (clearTemplate accepts stringify parse ls) = None /\
   getMRN (clearTemplate accepts stringify parse ls) = getMRN ls /\
   getTranscript (clearTemplate accepts stringify parse ls) = getTranscript ls) /\
  ((forall x, parse (stringify x) = Some x) ->
   (forall x, stringify x <> "") ->
   (forall l x, accepts l SESSION_DATA x = true) ->
   getSessionData parse (clearMRN accepts stringify parse ls)
     = delete_field "mrn" (getSessionData parse ls) /\
   getSessionData parse (clearTemplate accepts stringify parse ls)
     = delete_field "template" (getSessionData parse ls)).
Proof. exact (clear_frame accepts stringify parse ls). Qed.

Lemma clear_one_value_witness :
  getSessionData codec_parse (clearMRN roomy codec_stringify codec_parse filled_store)
    = delete_field "mrn" (getSessionData codec_parse filled_store) /\
  getSessionData codec_parse (clearMRN roomy codec_stringify codec_parse null_session_store)
    = delete_field "mrn" (getSessionData codec_parse null_session_store).
Proof.
  split.
  - exact (proj1 (proj2 (proj2 (clear_one_value roomy codec_stringify codec_parse filled_store))
                   codec_round_trip codec_not_empty (fun _ _ => eq_refl))).
  - exact (proj1 (proj2 (proj2 (clear_one_value roomy codec_stringify codec_parse
                                  null_session_store))
                   codec_round_trip codec_not_empty (fun _ _ => eq_refl))).
Defined.

(** X24: [clearAll()] leaves nothing of the session: the three values read
    back as [null], the session object is empty and no session is
    active, whatever was stored; keys of other applications are not
    touched, and clearing twice is clearing once. *)
Theorem clearAll_clears_everything (parse : string -> option json)
    (ls : gmap string string) :
  getMRN (clearAll ls) = None /\
  getTemplate (clearAll ls) = None /\
  getTranscript (clearAll ls) = None /\
  getSessionData parse (clearAll ls) = JObject ∅ /\
  hasActiveSession parse (clearAll ls) = Some false /\
  getActiveSession parse (clearAll ls)
    = {[ "mrn" := JNul; "template" := JNul; "transcript" := JNul ]} /\
  (forall key, key ∉ storage_keys -> getItem (clearAll ls) key = getItem ls key) /\
  clearAll (clearAll ls) = clearAll ls.
Proof.
  assert (Hk : forall key, key ∈ storage_keys -> clearAll ls !! key = None).
  { intros key Hin. apply list_elem_of_In in Hin. simpl in Hin.
    unfold clearAll, storage_keys, removeItem. cbn [foldl]. rewrite !lookup_delete.
    destruct Hin as [<-|[<-|[<-|[<-|[]]]]]; repeat case_decide; done. }
  assert (H1 : getMRN (clearAll ls) = None).
  { unfold getMRN, get_or_null, getItem. rewrite Hk; [done | repeat constructor]. }
  assert (H2 : getTemplate (clearAll ls) = None).
  { unfold getTemplate, get_or_null, getItem. rewrite Hk; [done | repeat constructor]. }
  assert (H3 : getTranscript (clearAll ls) = None).
  { unfold getTranscript, get_or_null, getItem. rewrite Hk; [done | repeat constructor]. }
  assert (H4 : getSessionData parse (clearAll ls) = JObject ∅).
  { unfold getSessionData, getItem. rewrite Hk; [done | repeat constructor]. }
  split; [exact H1|]. split; [exact H2|]. split; [exact H3|]. split; [exact H4|].
  split; [unfold hasActiveSession; by rewrite H4|].
  split.
  { unfold getActiveSession. rewrite H1, H2, H3, H4. cbn [own_fields or_null].
    by rewrite (left_id_L ∅ (∪)). }
  split.
  - intros key Hn. unfold clearAll, storage_keys, removeItem, getItem in *. cbn [foldl].
    rewrite !lookup_delete. repeat case_decide; try done;
      subst key; exfalso; apply Hn; repeat constructor.
  - unfold clearAll, storage_keys, removeItem. cbn [foldl].
    apply map_eq. intros i. rewrite !lookup_delete. by repeat case_decide.
Qed.

Lemma clearAll_clears_everything_witness :
  getMRN (clearAll filled_store) = None /\
  getItem (clearAll (<["theme" := "dark"]> filled_store)) "theme"
    = getItem (<["theme" := "dark"]> filled_store) "theme".
Proof.
  destruct (clearAll_clears_everything codec_parse filled_store) as (H1 & _).
  destruct (clearAll_clears_everything codec_parse (<["theme" := "dark"]> filled_store))
    as (_ & _ & _ & _ & _ & _ & H7 & _).
  split; [exact H1|]. apply H7. intros H. apply list_elem_of_In in H. simpl in H.
  repeat (destruct H as [H|H]; [discriminate|]). exact H.
Defined.

Lemma field_truthy_own (v : json) (a : ascii) (name : string) :
  is_digit a = false ->
  field_truthy (JObject (own_fields v)) (String a name) = field_truthy v (String a name).
Proof.
  intros Ha. unfold field_truthy. cbn [named_field]. by rewrite own_fields_named.
Qed.

Lemma hasActiveSession_null (parse : string -> option json) (ls : gmap string string) :
  hasActiveSession parse ls = None <-> getSessionData parse ls = JNull.
Proof. unfold hasActiveSession. by destruct (getSessionData parse ls). Qed.

(** X25: In a store that takes every write and under the assumptions of
    X22 on [JSON]: saving an MRN or a template makes the session
    active; saving a transcript keeps it as active as it was, and
    replaces a stored [null] by an object, after which
    [hasActiveSession()] no longer throws; clearing both the MRN and
    the template ends it even if a transcript remains.
    [hasActiveSession()] throws exactly when the stored session is
    [null]. *)
Theorem active_session (accepts : gmap string string -> string -> string -> bool)
    (stringify : json -> string) (parse : string -> option json) (now : Z) (v : string)
    (ls : gmap string string) :
  (forall x, parse (stringify x) = Some x) ->
  (forall x, stringify x <> "") ->
  (forall l key x, accepts l key x = true) ->
  v <> "" ->
  hasActiveSession parse (saveMRN accepts stringify parse now v ls) = Some true /\
  hasActiveSession parse (saveTemplate accepts stringify parse now v ls) = Some true /\
  hasActiveSession parse (saveTranscript accepts stringify parse now v ls)
    = Some (default false (hasActiveSession parse ls)) /\
  hasActiveSession parse
      (clearTemplate accepts stringify parse (clearMRN accepts stringify parse ls))
    = (fun _ => false) <$> hasActiveSession parse ls /\
  getActiveSession parse (saveMRN accepts stringify parse now v ls) !! "mrn"
    = Some (JStr v) /\
  (hasActiveSession parse ls = None <-> getSessionData parse ls = JNull).
Proof.
  intros H1 H2 H3 Hv.
  destruct (getSessionData_after_save accepts stringify parse now v ∅ ls H1 H2
              (fun l x => H3 l _ x) Hv) as (Sm & St & Sx & _).
  specialize (Sm (H3 _ _ _)). specialize (St (H3 _ _ _)). specialize (Sx (H3 _ _ _)).
  destruct (clear_frame accepts stringify parse (clearMRN accepts stringify parse ls))
    as (_ & _ & Ct).
  destruct (Ct H1 H2 (fun l x => H3 l _ x)) as (_ & Ct').
  destruct (clear_frame accepts stringify parse ls) as (_ & _ & Cm).
  destruct (Cm H1 H2 (fun l x => H3 l _ x)) as (Cm' & _).
  split; [|split; [|split; [|split; [|split]]]].
  - unfold hasActiveSession. rewrite Sm. unfold field_truthy. cbn [named_field].
    rewrite (lookup_insert_ne _ "timestamp") by done. rewrite lookup_insert_eq.
    cbn [js_truthy]. by rewrite (truthy_nonempty v Hv).
  - unfold hasActiveSession. rewrite St. unfold field_truthy. cbn [named_field].
    rewrite !(lookup_insert_ne _ "timestamp") by done. rewrite lookup_insert_eq.
    cbn [js_truthy]. rewrite (truthy_nonempty v Hv). by rewrite orb_true_r.
  - unfold hasActiveSession. rewrite Sx.
    assert (forall f a, is_digit a = false -> String a f <> "timestamp" ->
              String a f <> "transcript" ->
              field_truthy
                (JObject (<["timestamp":=JNum now]>
                            (<["transcript":=JStr v]> (own_fields (getSessionData parse ls)))))
                (String a f)
              = field_truthy (getSessionData parse ls) (String a f)) as Hf.
    { intros f a Ha N1 N2. unfold field_truthy. cbn [named_field].
      rewrite !lookup_insert_ne by done. by rewrite own_fields_named. }
    rewrite (Hf "rn" "m"%char), (Hf "emplate" "t"%char) by done.
    by destruct (getSessionData parse ls).
  - unfold hasActiveSession. rewrite Ct', Cm'.
    destruct (getSessionData parse ls) as [o| | | | |]; try done.
    cbn [delete_field fmap option_fmap option_map]. f_equal.
    unfold field_truthy. cbn [named_field].
    rewrite lookup_delete_eq, (lookup_delete_ne _ "template" "mrn") by done.
    by rewrite lookup_delete_eq.
  - unfold getActiveSession. rewrite Sm. cbn [own_fields].
    apply lookup_union_Some_l.
    rewrite (lookup_insert_ne _ "timestamp") by done. by rewrite lookup_insert_eq.
  - apply hasActiveSession_null.
Qed.

Lemma active_session_witness :
  hasActiveSession codec_parse (saveMRN roomy codec_stringify codec_parse 10 "AB123" ∅)
    = Some true /\
  hasActiveSession codec_parse
      (saveTranscript roomy codec_stringify codec_parse 10 "hello" null_session_store)
    = Some (default false (hasActiveSession codec_parse null_session_store)).
Proof.
  destruct (active_session roomy codec_stringify codec_parse 10 "AB123" ∅
              codec_round_trip codec_not_empty (fun _ _ _ => eq_refl)
              ltac:(discriminate)) as (H1 & _).
  destruct (active_session roomy codec_stringify codec_parse 10 "hello" null_session_store
              codec_round_trip codec_not_empty (fun _ _ _ => eq_refl)
              ltac:(discriminate)) as (_ & _ & H3 & _).
  split; assumption.
Defined.

(** X27: No exception leaves the methods that write.  A save whose value
    the store refuses changes nothing.  When the store refuses the
    session text, [saveSessionData] changes nothing, a save stores the
    value alone and a clear removes the key alone, so that the session
    object keeps the field.  When the stored session is [null], a clear
    removes the key alone as well, and [hasActiveSession()] throws. *)
Theorem refused_writes_are_caught (accepts : gmap string string -> string -> string -> bool)
    (stringify : json -> string) (parse : string -> option json) (now : Z) (v : string)
    (data : gmap string jsval) (ls : gmap string string) :
  (accepts ls CURRENT_MRN v = false -> saveMRN accepts stringify parse now v ls = ls) /\
  (accepts ls CURRENT_TEMPLATE v = false ->
   saveTemplate accepts stringify parse now v ls = ls) /\
  (accepts ls CURRENT_TRANSCRIPT v = false ->
   saveTranscript accepts stringify parse now v ls = ls) /\
  ((forall l x, accepts l SESSION_DATA x = false) ->
   saveSessionData accepts stringify parse now data ls = ls /\
   (v <> "" -> accepts ls CURRENT_MRN v = true ->
    saveMRN accepts stringify parse now v ls = <[CURRENT_MRN := v]> ls) /\
   clearMRN accepts stringify parse ls = removeItem ls CURRENT_MRN /\
   clearTemplate accepts stringify parse ls = removeItem ls CURRENT_TEMPLATE) /\
  (getSessionData parse ls = JNull ->
   clearMRN accepts stringify parse ls = removeItem ls CURRENT_MRN /\
   clearTemplate accepts stringify parse ls = removeItem ls CURRENT_TEMPLATE /\
   hasActiveSession parse ls = None).
Proof.
  split; [apply (save_shape_refused accepts stringify parse CURRENT_MRN "mrn")|].
  split; [apply (save_shape_refused accepts stringify parse CURRENT_TEMPLATE "template")|].
  split; [apply (save_shape_refused accepts stringify parse CURRENT_TRANSCRIPT "transcript")|].
  split.
  - intros Hr.
    assert (forall d l, saveSessionData accepts stringify parse now d l = l) as Hs.
    { intros d l. unfold saveSessionData, setItem. by rewrite Hr. }
    split; [apply Hs|]. split.
    + intros Hv Ha. unfold saveMRN. rewrite (truthy_nonempty v Hv). cbn [negb].
      rewrite (setItem_accepted _ _ _ _ Ha). unfold _updateSessionData. apply Hs.
    + unfold clearMRN, clearTemplate, setItem.
      split; destruct (getSessionData parse _); by rewrite ?Hr.
  - intros Hn. unfold clearMRN, clearTemplate.
    rewrite !getSessionData_remove_other by done. rewrite Hn.
    split; [done|]. split; [done|]. by apply hasActiveSession_null.
Qed.

Lemma refused_writes_are_caught_witness :
  saveMRN (room_for 3) codec_stringify codec_parse 10 "AB123" filled_store = filled_store /\
  clearMRN roomy codec_stringify codec_parse null_session_store
    = removeItem null_session_store CURRENT_MRN.
Proof.
  destruct (refused_writes_are_caught (room_for 3) codec_stringify codec_parse 10 "AB123" ∅
              filled_store) as (H1 & _).
  destruct (refused_writes_are_caught roomy codec_stringify codec_parse 10 "AB123" ∅
              null_session_store) as (_ & _ & _ & _ & H5).
  split; [exact (H1 eq_refl)|].
  refine (proj1 (H5 _)).
  unfold null_session_store, getSessionData, getItem.
  rewrite lookup_insert_eq. rewrite (truthy_nonempty _ (codec_not_empty JNull)).
  by rewrite codec_round_trip.
Defined.

(** ** The earlier result handler *)
Lemma v1_scan_final (rs : list slot) (interim : string) (acc : list string) :
  Forall (fun x => truthy x = true) acc ->
  (VoiceV1.scan_results rs interim (join " " acc)).2
    = join " " (acc ++ List.filter truthy (map VoiceV1.slot_text (List.filter isFinal rs))).
Proof.
  revert interim acc. induction rs as [|r rs IH]; intros interim acc Hacc.
  - simpl. by rewrite app_nil_r.
  - cbn -[VoiceV1.slot_text]. destruct (truthy (VoiceV1.slot_text r)) eqn:Et;
      cbn -[VoiceV1.slot_text].
    + destruct (isFinal r); cbn -[VoiceV1.slot_text]; [|by apply IH].
      rewrite Et.
      replace (append_sp (join " " acc) (VoiceV1.slot_text r))
        with (join " " (acc ++ [VoiceV1.slot_text r]))
        by (symmetry; by apply (append_sp_join acc [VoiceV1.slot_text r])).
      rewrite IH by (apply Forall_app; split; [done | by constructor]).
      by rewrite <- app_assoc.
    + destruct (isFinal r); cbn -[VoiceV1.slot_text]; rewrite ?Et; by apply IH.
Qed.

Lemma v1_detect_transcript (text : string) (c : controller) :
  _fullTranscript (state_of (VoiceV1._detectMRNAndTemplate text c)) = _fullTranscript c.
Proof.
  unfold VoiceV1._detectMRNAndTemplate. destruct (negb (truthy text)); [done|].
  destruct c as [? ? ? ? ? ? ? ? ? sm st tpls]. unfold_method.
  cbn -[VoiceV1._detectMRN VoiceV1._detectTemplate].
  generalize (VoiceV1._detectMRN text) (VoiceV1._detectTemplate text). intros dm dt.
  destruct dm as [m|], dt as [t|], sm as [m'|], st as [t'|]; cbn;
    repeat (case_match; cbn); simplify_eq/=; reflexivity.
Qed.

Lemma v1_onResult_transcript (e : VoiceV1.result_event) (c : controller) :
  _fullTranscript (state_of (VoiceV1._onResult e c)) =
    match final_texts_v1 e with
    | [] => _fullTranscript c
    | l => append_sp (_fullTranscript c) (join " " l)
    end.
Proof.
  unfold VoiceV1._onResult.
  pose proof (v1_scan_final (drop (VoiceV1.resultIndex e) (VoiceV1.results e)) "" []
                ltac:(constructor)) as Hs.
  rewrite app_nil_l in Hs. fold (final_texts_v1 e) in Hs.
  change (join " " []) with EmptyString in Hs.
  destruct (VoiceV1.scan_results _ "" "") as [interim finalTxt]. cbn [snd] in Hs.
  subst finalTxt.
  set (W := when (truthy interim) _).
  assert (Hf : _fullTranscript (state_of (W c)) = _fullTranscript c).
  { unfold W. destruct (truthy interim); unfold_method; cbn; [|done].
    destruct (bool_decide _); by destruct c. }
  unfold mbind at 1, method_bind at 1.
  unfold state_of in Hf. destruct (W c) as [[[] c''] evi]. cbn [fst snd] in Hf. clear W.
  destruct (final_texts_v1 e) as [|x l] eqn:E.
  - simpl. unfold_method. simpl. exact Hf.
  - assert (Ht : truthy (join " " (x :: l)) = true).
    { apply join_truthy; [done|]. rewrite <- E. unfold final_texts_v1.
      apply Forall_forall. intros y Hy. apply list_elem_of_In, filter_In in Hy. tauto. }
    rewrite Ht. cbn [negb].
    unfold mbind at 1, method_bind at 1, this at 1.
    unfold mbind at 1, method_bind at 1, update at 1.
    unfold mbind at 1, method_bind at 1, this at 1.
    unfold mbind at 1, method_bind at 1.
    set (c1 := set_fullTranscript _ c'').
    pose proof (v1_detect_transcript (_fullTranscript c1) c1) as Hd. unfold state_of in Hd.
    destruct (VoiceV1._detectMRNAndTemplate _ c1) as [[[] c2] ev2]. simpl in Hd.
    unfold mbind at 1, method_bind at 1, this at 1.
    assert (Hgoal : _fullTranscript c2 = append_sp (_fullTranscript c) (join " " (x :: l))).
    { rewrite Hd. unfold c1. rewrite <- Hf. by destruct c''. }
    destruct (_noteMode c2).
    + unfold mbind at 1, method_bind at 1, update at 1.
      unfold mbind at 1, method_bind at 1, fire at 1.
      destruct (test re_create _); unfold when.
      * pose proof (emitStopNote_frame
                      (set_noteBuffer (append_sp (_noteBuffer c2) (join " " (x :: l))) c2))
          as (H & _).
        unfold state_of in *. destruct (_emitStopNote _) as [[[] c4] ev4]. simpl in *.
        transitivity (_fullTranscript c2); [|exact Hgoal]. rewrite H. by destruct c2.
      * transitivity (_fullTranscript c2); [|exact Hgoal]. by destruct c2.
    + unfold mbind at 1, method_bind at 1.
      pose proof (parseCommand_frame (join " " (x :: l)) c2) as (H & _).
      unfold state_of in *. destruct (_parseCommand _ c2) as [[a c3] ev3]. simpl in *.
      transitivity (_fullTranscript c2); [|exact Hgoal].
      destruct (truthy_opt a); unfold fire; simpl; by rewrite H.
Qed.

Lemma v1_run_session_cons (e : VoiceV1.result_event) (es : list VoiceV1.result_event)
    (c : controller) :
  state_of (VoiceV1.run_session (e :: es) c)
    = state_of (VoiceV1.run_session es (state_of (VoiceV1._onResult e c))).
Proof.
  simpl. unfold_method. destruct (VoiceV1._onResult e c) as [[[] c1] ev1]. simpl.
  by destruct (VoiceV1.run_session es c1) as [[[] c2] ev2].
Qed.

Lemma v1_run_session_transcript (es : list VoiceV1.result_event) (c : controller)
    (segs : list string) :
  Forall (fun x => truthy x = true) segs ->
  _fullTranscript c = join " " segs ->
  _fullTranscript (state_of (VoiceV1.run_session es c))
    = join " " (segs ++ concat (map final_texts_v1 es)).
Proof.
  revert c segs. induction es as [|e es IH]; intros c segs Hall Hc.
  - simpl. by rewrite app_nil_r.
  - rewrite v1_run_session_cons. simpl. rewrite app_assoc. apply IH.
    + apply Forall_app. split; [done|]. unfold final_texts_v1.
      apply Forall_forall. intros y Hy. apply list_elem_of_In, filter_In in Hy. tauto.
    + rewrite v1_onResult_transcript.
      destruct (final_texts_v1 e) as [|x l] eqn:E; [by rewrite app_nil_r|].
      rewrite Hc. by apply append_sp_join.
Qed.

Lemma cumulative_finals (seen : list slot) (batches : list (list slot)) :
  concat (map final_texts_v1 (cumulative_events seen batches))
    = List.filter truthy (map VoiceV1.slot_text (List.filter isFinal (concat batches))).
Proof.
  revert seen. induction batches as [|b bs IH]; intros seen; [reflexivity|].
  simpl. rewrite IH. unfold final_texts_v1. simpl.
  rewrite drop_app_length. by rewrite List.filter_app, map_app, List.filter_app.
Qed.

(** X26: The earlier handler, which starts at [e.resultIndex], appends every
    finalized slot once when the recognizer delivers its whole result
    list with every event: the transcript is the lower-cased, trimmed
    texts of the final slots of the result list, in order, joined by
    single spaces. *)
Theorem earlier_handler_appends_each_final_once (batches : list (list slot))
    (c : controller) :
  _fullTranscript c = "" ->
  _fullTranscript (state_of (VoiceV1.run_session (cumulative_events [] batches) c))
    = join " "
        (List.filter truthy
           (map VoiceV1.slot_text (List.filter isFinal (concat batches)))).
Proof.
  intros Hc. rewrite (v1_run_session_transcript _ c []); [|constructor | done].
  by rewrite app_nil_l, cumulative_finals.
Qed.

Lemma earlier_handler_appends_each_final_once_witness :
  _fullTranscript
    (state_of (VoiceV1.run_session (cumulative_events [] two_batches)
                 (VoiceV1.constructor 800 [] true)))
    = "hello there general kenobi".
Proof.
  exact (earlier_handler_appends_each_final_once two_batches
           (VoiceV1.constructor 800 [] true) eq_refl).
Defined.
